(** * Best-effort extraction with bounded retry: the scrapers of
      websiteImages-Scraper, embedded and verified.

    The development follows the three scripts of the repository:
    - [social_link_extractor.js]: [extractSocialLinks] (module [Social]),
    - the Facebook profile scraper: [scrapeFacebookProfile] (module [Facebook],
      and module [Profile] for the queries of one attempt),
    - the local services scraper: [scrapeLocalServices] (module [LocalServices],
      and module [Cards] for the script it runs in the page).

    JavaScript strings are modelled as Rocq strings whose characters stand
    for the UTF-16 code units 0..255; the result object of the extractor is
    a finite map from property names to strings; the browser page is an
    explicit snapshot of what each query answers (or the exception it
    raises), one snapshot per attempt; console output and waits are recorded
    in an event trace. Launching and closing the browser are not modelled.
    A wait of the extractor stands inside the [try] of its attempt and is
    taken to return; the wait of the Facebook scraper stands outside the
    [try] of the attempt, and the error it may throw ends the invocation. *)

From Stdlib Require Import ZArith Ascii String List Bool Lia.
From stdpp Require Import gmap strings list fin_maps.

Local Open Scope string_scope.
Local Open Scope Z_scope.
Local Open Scope list_scope.

(* ===================================================================== *)
(** ** JavaScript string primitives used by the scripts *)
(* ===================================================================== *)

Module JS.

(** [String.prototype.toLowerCase] on one code unit below 256:
    A-Z, and the Latin-1 capitals U+00C0..U+00DE except U+00D7. *)
Definition lowerChar (c : ascii) : ascii :=
  let n := N_of_ascii c in
  if ((65 <=? n) && (n <=? 90))%N
     || ((192 <=? n) && (n <=? 222) && negb (n =? 215))%N
  then ascii_of_N (n + 32)
  else c.

Fixpoint toLowerCase (s : string) : string :=
  match s with
  | EmptyString => EmptyString
  | String c s' => String (lowerChar c) (toLowerCase s')
  end.

(** [hay.includes(needle)] *)
Fixpoint includes (needle hay : string) : bool :=
  String.prefix needle hay
  || match hay with
     | EmptyString => false
     | String _ hay' => includes needle hay'
     end.

(** White space and line terminators of [trim] and of the regular
    expression class [\s], among the code units below 256. *)
Definition isWhiteSpace (c : ascii) : bool :=
  let n := N_of_ascii c in
  ((9 <=? n) && (n <=? 13) || (n =? 32) || (n =? 160))%N.

Fixpoint trimStart (s : string) : string :=
  match s with
  | EmptyString => EmptyString
  | String c s' => if isWhiteSpace c then trimStart s' else s
  end.

Fixpoint trimEnd (s : string) : string :=
  match s with
  | EmptyString => EmptyString
  | String c s' =>
      match trimEnd s' with
      | EmptyString => if isWhiteSpace c then EmptyString else String c EmptyString
      | t => String c t
      end
  end.

Definition trim (s : string) : string := trimEnd (trimStart s).

(** A string is truthy iff it is not empty. *)
Definition truthy (s : string) : bool :=
  match s with EmptyString => false | _ => true end.

(** [obj[key]] read for its truth value: a missing property is
    [undefined], which is falsy. *)
Definition truthyProp (o : option string) : bool :=
  match o with Some s => truthy s | None => false end.

(** [s.split(sep)] for a one-character separator. *)
Fixpoint splitChar (sep : ascii) (s : string) : list string :=
  match s with
  | EmptyString => [EmptyString]
  | String c s' =>
      if Ascii.eqb c sep then EmptyString :: splitChar sep s'
      else match splitChar sep s' with
           | [] => [String c EmptyString]
           | t :: ts => String c t :: ts
           end
  end.

(** [s.split(/\s+/)]: the pieces between maximal runs of white space.
    [inRun] tells that the previous character was white space. *)
Fixpoint splitWsAux (inRun : bool) (s : string) : list string :=
  match s with
  | EmptyString => [EmptyString]
  | String c s' =>
      if isWhiteSpace c then
        if inRun then splitWsAux true s'
        else EmptyString :: splitWsAux true s'
      else match splitWsAux false s' with
           | [] => [String c EmptyString]
           | t :: ts => String c t :: ts
           end
  end.

Definition splitWs (s : string) : list string := splitWsAux false s.

(** [parts.join(sep)] *)
Fixpoint join (sep : string) (parts : list string) : string :=
  match parts with
  | [] => EmptyString
  | [p] => p
  | p :: ps => p +:+ sep +:+ join sep ps
  end.

(** The test [/^https?:\/\//i] of the URL normalisation. *)
Definition hasHttpScheme (s : string) : bool :=
  let l := toLowerCase s in
  String.prefix "http://" l || String.prefix "https://" l.

End JS.

(** every character of the string is in the class: the test of a regular
    expression of the form [^[class]*$] *)
Fixpoint allChars (cls : ascii -> bool) (s : string) : bool :=
  match s with
  | EmptyString => true
  | String c s' => cls c && allChars cls s'
  end.

(* ===================================================================== *)
(** ** The last-resort pattern of the social link extractor *)
(* ===================================================================== *)

(** The pattern built for each platform: an optional scheme (http: or
    https:), two slashes, a greedy run of characters other than the double
    quote, the single quote and the closing angle bracket, the platform name
    followed by .com, and a greedy run of word characters and . / ? = & % -,
    with the flags g and i, run once with [exec] from index 0. The matcher
    follows the backtracking order of the pattern: leftmost start, the
    optional scheme tried first, greedy stars. Each function answers the
    number of characters consumed. *)
Module Pattern.

Definition isWordChar (c : ascii) : bool :=
  let n := N_of_ascii c in
  ((48 <=? n) && (n <=? 57) || (65 <=? n) && (n <=? 90)
   || (97 <=? n) && (n <=? 122) || (n =? 95))%N.

(** the class of the trailing run: word characters and . / ? = & % - *)
Definition isTailChar (c : ascii) : bool :=
  isWordChar c
  || existsb (Ascii.eqb c) ["."; "/"; "?"; "="; "&"; "%"; "-"]%char.

(** the class of the run before the domain: anything but the double
    quote (34), the single quote (39) and the closing angle bracket *)
Definition isBodyChar (c : ascii) : bool :=
  negb (existsb (Ascii.eqb c) [ascii_of_N 34; ascii_of_N 39; ">"%char]).

(** a literal, compared without regard to case (flag [i]) *)
Fixpoint eatLiteral (lit s : string) : option string :=
  match lit, s with
  | EmptyString, _ => Some s
  | String a lit', String b s' =>
      if Ascii.eqb (JS.lowerChar a) (JS.lowerChar b) then eatLiteral lit' s'
      else None
  | String _ _, EmptyString => None
  end.

(** a greedy star over a character class with nothing after it *)
Fixpoint spanLength (cls : ascii -> bool) (s : string) : nat :=
  match s with
  | String c s' => if cls c then S (spanLength cls s') else O
  | EmptyString => O
  end.

(** the platform name, .com, and the trailing run *)
Definition matchDomain (platform s : string) : option nat :=
  match eatLiteral (platform +:+ ".com") s with
  | Some rest =>
      Some (String.length (platform +:+ ".com") + spanLength isTailChar rest)%nat
  | None => None
  end.

(** the run before the domain, then the domain: one more character first
    (greedy), the domain at this position on failure (backtracking). *)
Fixpoint matchBody (platform s : string) : option nat :=
  match s with
  | String c s' =>
      if isBodyChar c then
        match matchBody platform s' with
        | Some n => Some (S n)
        | None => matchDomain platform s
        end
      else matchDomain platform s
  | EmptyString => matchDomain platform s
  end.

(** the two slashes and what follows *)
Definition matchSlashes (platform s : string) : option nat :=
  match eatLiteral "//" s with
  | Some rest => (fun n => 2 + n)%nat <$> matchBody platform rest
  | None => None
  end.

(** the optional scheme group and what follows: with the group (with s
    first, then without s), then without the group. *)
Definition matchAt (platform s : string) : option nat :=
  let withGroup :=
    match eatLiteral "http" s with
    | Some r1 =>
        let withS :=
          match eatLiteral "s" r1 with
          | Some r2 =>
              match eatLiteral ":" r2 with
              | Some r3 => (fun n => 6 + n)%nat <$> matchSlashes platform r3
              | None => None
              end
          | None => None
          end in
        match withS with
        | Some n => Some n
        | None =>
            match eatLiteral ":" r1 with
            | Some r3 => (fun n => 5 + n)%nat <$> matchSlashes platform r3
            | None => None
            end
        end
    | None => None
    end in
  match withGroup with
  | Some n => Some n
  | None => matchSlashes platform s
  end.

(** [regex.exec(html)]: the match at the leftmost position that has one;
    the answer is [match[0]]. *)
Fixpoint exec (platform html : string) : option string :=
  match matchAt platform html with
  | Some n => Some (String.substring 0 n html)
  | None =>
      match html with
      | String _ html' => exec platform html'
      | EmptyString => None
      end
  end.

End Pattern.

(* ===================================================================== *)
(** ** The automation boundary: outcomes, events, page snapshots *)
(* ===================================================================== *)

(** What an awaited call gives: a value, or a thrown error with its
    [message]. *)
Inductive outcome (A : Type) : Type :=
| Ok (a : A)
| Throws (message : string).
Arguments Ok {A} a.
Arguments Throws {A} message.

(** What an invocation does besides returning: console lines and waits, in
    the order they happen. [Enter k] is a ghost event, it marks that control
    reached the block the source numbers [k] in its comments. *)
Inductive event : Type :=
| LogAttempt (attempt : Z)
| Enter (strategy : nat)
| LogResult (result : gmap string string)
| WaitForTimeout (ms : Z)
| LogError (attempt : Z) (message : string)
| LogCaptcha.

(** An anchor found by [$$('a[href]')]: what [getAttribute('href')] and
    [textContent()] answer. *)
Record Anchor : Type := {
  a_href : outcome (option string);
  a_text : outcome string
}.

(** An element handle ([header], [footer]): what [$$('a[href]')] answers. *)
Record Element : Type := { e_anchors : outcome (list Anchor) }.

(** JSON values, as [JSON.parse] builds them. *)
#[local] Unset Elimination Schemes.
Inductive json : Type :=
| JNull
| JBool (b : bool)
| JNumber (z : Z)
| JString (s : string)
| JArray (items : list json)
| JObject (props : list (string * json)).
#[local] Set Elimination Schemes.

(** An [application/ld+json] script: [JSON.parse(await script.textContent())],
    or the error either call throws. *)
Record Script : Type := { s_parsed : outcome json }.

(** A [link] element: what [getAttribute('href')] answers. *)
Record LinkEl : Type := { l_href : outcome (option string) }.

(** A [meta] element: what [getAttribute('content')] answers. *)
Record MetaEl : Type := { m_content : outcome (option string) }.

(** The page as one pass of the extractor sees it: the answer of each query
    the pass can make. *)
Record Page : Type := {
  p_header : outcome (option Element);       (* page.$('header') *)
  p_footer : outcome (option Element);       (* page.$('footer') *)
  p_jsonLd : outcome (list Script);          (* page.$$('script[type=application/ld+json]') *)
  p_relMe : outcome (list LinkEl);           (* page.$$('link[rel~=me]') *)
  p_twitterSite : outcome (option MetaEl);   (* page.$('meta[name=twitter:site]') *)
  p_ogSeeAlso : outcome (option MetaEl);     (* page.$('meta[property=og:see_also]') *)
  p_anchors : outcome (list Anchor);         (* page.$$('a[href]') *)
  p_content : outcome string                 (* page.content() *)
}.

(* ===================================================================== *)
(** ** A small monad: mutable result object, event trace, exceptions *)
(* ===================================================================== *)

Record state : Type := {
  result : gmap string string;
  trace : list event
}.

Definition M (A : Type) : Type := state -> outcome A * state.

Definition ret {A} (a : A) : M A := fun s => (Ok a, s).

Definition bind {A B} (m : M A) (k : A -> M B) : M B :=
  fun s =>
    match m s with
    | (Ok a, s') => k a s'
    | (Throws e, s') => (Throws e, s')
    end.

Declare Scope js_scope.
Delimit Scope js_scope with js.
Notation "x <- m ;; k" := (bind m (fun x => k))
  (at level 100, m at next level, right associativity) : js_scope.
Notation "m ;; k" := (bind m (fun _ => k))
  (at level 100, right associativity) : js_scope.
Local Open Scope js_scope.

(** [await] of a call on the page *)
Definition await {A} (o : outcome A) : M A := fun s => (o, s).

(** [try { body } catch (error) { handler(error.message) }]: what the body
    did to the state before it threw stays done. *)
Definition tryCatch {A} (body : M A) (handler : string -> M A) : M A :=
  fun s =>
    match body s with
    | (Ok a, s') => (Ok a, s')
    | (Throws e, s') => handler e s'
    end.

Definition emit (e : event) : M unit :=
  fun s => (Ok tt, {| result := result s; trace := trace s ++ [e] |}).

(** [result] read *)
Definition getResult : M (gmap string string) := fun s => (Ok (result s), s).

(** [result[key] = value] *)
Definition setProp (key value : string) : M unit :=
  fun s => (Ok tt, {| result := <[key := value]> (result s); trace := trace s |}).

(** [for (const x of xs) { body(x) }]; a [continue] is a [ret tt] in the
    body. *)
Fixpoint forOf {A} (xs : list A) (body : A -> M unit) : M unit :=
  match xs with
  | [] => ret tt
  | x :: xs' => body x ;; forOf xs' body
  end.

Definition when (b : bool) (m : M unit) : M unit := if b then m else ret tt.

(** [{ error: message, url: url }] *)
Definition errorRecord (message url : string) : gmap string string :=
  {[ "error" := message; "url" := url ]}.

(* ===================================================================== *)
(** ** social_link_extractor.js *)
(* ===================================================================== *)

Module Social.

(** the [options] argument: a property the caller left out is [None].
    [delayMs] stands for a property the caller may pass although the
    script never names it; the spread copies it into [config]. *)
Record Options : Type := {
  headless : option bool;
  timeout : option Z;
  maxRetries : option Z;
  delayMs : option Z
}.

Record Config : Type := {
  c_headless : bool;
  c_timeout : Z;
  c_maxRetries : Z;
  c_delayMs : option Z
}.

(** [{ headless: true, timeout: 30000, maxRetries: 30, ...options }] *)
Definition mkConfig (options : Options) : Config :=
  {| c_headless := default true (headless options);
     c_timeout := default 30000 (timeout options);
     c_maxRetries := default 30 (maxRetries options);
     c_delayMs := delayMs options |}.

Definition noOptions : Options :=
  {| headless := None; timeout := None; maxRetries := None; delayMs := None |}.

(** the browser of one invocation: what [page.goto(url, {timeout})]
    answers, and the page as attempt number [n] (from 1) finds it. *)
Record Browser : Type := {
  goto : string -> Z -> outcome unit;
  rendered : Z -> Page
}.

Definition normalizeUrl (targetUrl : string) : string :=
  let url := JS.trim targetUrl in
  if negb (JS.hasHttpScheme url) then "http://" +:+ url else url.

Definition socialPlatforms : list string :=
  ["facebook"; "instagram"; "twitter"; "youtube"; "linkedin"].

(** [socialPlatforms.reduce((acc, platform) => { acc[platform] = ''; return acc; }, { contact: '' })] *)
Definition initialResult : gmap string string :=
  fold_left (fun acc platform => <[platform := ""]> acc)
            socialPlatforms {[ "contact" := "" ]}.

(** [Object.values(result).some(value => value)] *)
Definition hasSocialLinks (r : gmap string string) : bool :=
  existsb (fun kv => JS.truthy kv.2) (map_to_list r).

(** The loop over the platforms that the source repeats in four places:
    [for (const platform of socialPlatforms)
       if (!result[platform] && lower.includes(`${platform}.com`))
         result[platform] = value;] *)
Definition matchPlatforms (lower value : string) : M unit :=
  forOf socialPlatforms (fun platform =>
    r <- getResult ;;
    when (negb (JS.truthyProp (r !! platform))
          && JS.includes (platform +:+ ".com") lower)
         (setProp platform value)).

(** [extractLinksFrom(element)], given what [element.$$('a[href]')]
    answers. *)
Definition extractLinksFrom (anchors : outcome (list Anchor)) : M unit :=
  links <- await anchors ;;
  forOf links (fun link =>
    href <- await (a_href link) ;;
    match href with
    | None | Some EmptyString => ret tt
    | Some href =>
        let hrefLower := JS.toLowerCase href in
        matchPlatforms hrefLower href ;;
        r <- getResult ;;
        if negb (JS.truthyProp (r !! "contact")) then
          if JS.includes "/contact" hrefLower then setProp "contact" href
          else
            text <- await (a_text link) ;;
            when (JS.includes "contact" (JS.toLowerCase text))
                 (setProp "contact" href)
        else ret tt
    end).

(** 1. header and footer *)
Definition strategy1 (p : Page) : M unit :=
  emit (Enter 1) ;;
  header <- await (p_header p) ;;
  footer <- await (p_footer p) ;;
  match header with
  | Some h => extractLinksFrom (e_anchors h)
  | None => ret tt
  end ;;
  match footer with
  | Some f => extractLinksFrom (e_anchors f)
  | None => ret tt
  end.

(** truth value of a JSON value or [undefined] ([None]) *)
Definition jsTruthy (v : option json) : bool :=
  match v with
  | None | Some JNull => false
  | Some (JBool b) => b
  | Some (JNumber z) => negb (z =? 0)
  | Some (JString s) => JS.truthy s
  | Some (JArray _) | Some (JObject _) => true
  end.

(** an own property of a parsed object; of two equal keys [JSON.parse]
    keeps the later one *)
Fixpoint lookupProp (key : string) (props : list (string * json)) : option json :=
  match props with
  | [] => None
  | (k, v) :: rest =>
      match lookupProp key rest with
      | Some v' => Some v'
      | None => if String.eqb k key then Some v else None
      end
  end.

(** [v.sameAs]: a [TypeError] on [null], [undefined] on what has no such
    property *)
Definition propSameAs (v : json) : outcome (option json) :=
  match v with
  | JNull => Throws "Cannot read properties of null (reading sameAs)"
  | JObject props => Ok (lookupProp "sameAs" props)
  | _ => Ok None
  end.

(** [jsonData[0]] when [Array.isArray(jsonData)] *)
Definition firstItem (v : json) : option json :=
  match v with
  | JArray (x :: _) => Some x
  | _ => None
  end.

Definition isArray (v : json) : bool :=
  match v with JArray _ => true | _ => false end.

(** the body of the loop over the structured-data scripts, with its own
    [try]/[catch] that ignores the error *)
Definition scanScript (script : Script) : M unit :=
  tryCatch
    (jsonData <- await (s_parsed script) ;;
     direct <- await (propSameAs jsonData) ;;
     sameAs <-
       (if negb (jsTruthy direct) && isArray jsonData && jsTruthy (firstItem jsonData)
        then match firstItem jsonData with
             | Some item => await (propSameAs item)
             | None => ret direct
             end
        else ret direct) ;;
     if jsTruthy sameAs then
       let links := match sameAs with
                    | Some (JArray items) => items
                    | Some v => [v]
                    | None => []
                    end in
       forOf links (fun link =>
         match link with
         | JString l => matchPlatforms (JS.toLowerCase l) l
         | _ => await (Throws "link.toLowerCase is not a function")
         end)
     else ret tt)
    (fun _ => ret tt).

(** 2. structured data *)
Definition strategy2 (p : Page) : M unit :=
  emit (Enter 2) ;;
  jsonLdScripts <- await (p_jsonLd p) ;;
  forOf jsonLdScripts scanScript.

(** 3. rel=me links *)
Definition strategy3 (p : Page) : M unit :=
  emit (Enter 3) ;;
  relMeLinks <- await (p_relMe p) ;;
  forOf relMeLinks (fun link =>
    href <- await (l_href link) ;;
    match href with
    | None | Some EmptyString => ret tt
    | Some href => matchPlatforms (JS.toLowerCase href) href
    end).

(** 4. meta tags *)
Definition strategy4 (p : Page) : M unit :=
  emit (Enter 4) ;;
  twitterSite <- await (p_twitterSite p) ;;
  r <- getResult ;;
  match twitterSite with
  | Some el =>
      if negb (JS.truthyProp (r !! "twitter")) then
        content <- await (m_content el) ;;
        match content with
        | None | Some EmptyString => ret tt
        | Some content => setProp "twitter" (JS.trim content)
        end
      else ret tt
  | None => ret tt
  end ;;
  ogSeeAlso <- await (p_ogSeeAlso p) ;;
  match ogSeeAlso with
  | Some el =>
      content <- await (m_content el) ;;
      match content with
      | None | Some EmptyString => ret tt
      | Some content =>
          forOf (JS.splitChar "," content) (fun link =>
            matchPlatforms (JS.toLowerCase link) (JS.trim link))
      end
  | None => ret tt
  end.

(** 5. the whole document, if nothing was found so far *)
Definition strategy5 (p : Page) : M unit :=
  r <- getResult ;;
  when (negb (hasSocialLinks r))
       (emit (Enter 5) ;; extractLinksFrom (p_anchors p)).

(** 6. last resort: the pattern over the markup *)
Definition strategy6 (p : Page) : M unit :=
  r <- getResult ;;
  when (negb (hasSocialLinks r))
       (emit (Enter 6) ;;
        html <- await (p_content p) ;;
        forOf socialPlatforms (fun platform =>
          r <- getResult ;;
          when (negb (JS.truthyProp (r !! platform)))
               match Pattern.exec platform html with
               | Some m => setProp platform m
               | None => ret tt
               end)).

(** the strategies of one attempt, in the order of the source *)
Definition strategies1to4 (p : Page) : M unit :=
  strategy1 p ;; strategy2 p ;; strategy3 p ;; strategy4 p.

Definition pass (p : Page) : M unit :=
  strategies1to4 p ;; strategy5 p ;; strategy6 p.

Section Loop.
Variable config : Config.
Variable browser : Browser.

(** the body of the [while] loop after [attempts++]; it answers [true]
    when the loop is left by [break]. *)
Definition attempt (attempts : Z) : M bool :=
  emit (LogAttempt attempts) ;;
  tryCatch
    (pass (rendered browser attempts) ;;
     r <- getResult ;;
     emit (LogResult r) ;;
     if hasSocialLinks r || (attempts >=? c_maxRetries config)
     then ret true
     else emit (WaitForTimeout 1000) ;; ret false)
    (fun message => emit (LogError attempts message) ;; ret false).

(** [while (attempts < config.maxRetries && !hasSocialLinks()) { attempts++; ... }]
    The recursion is on [fuel]; [None] means the fuel ran out before
    the loop condition turned false. *)
Fixpoint retryLoop (fuel : nat) (attempts : Z) (s : state)
  : option (outcome unit * state) :=
  if (attempts <? c_maxRetries config) && negb (hasSocialLinks (result s)) then
    match fuel with
    | O => None
    | S fuel' =>
        let attempts := attempts + 1 in
        match attempt attempts s with
        | (Ok true, s') => Some (Ok tt, s')
        | (Ok false, s') => retryLoop fuel' attempts s'
        | (Throws e, s') => Some (Throws e, s')
        end
    end
  else Some (Ok tt, s).
End Loop.

(** the state when the loop is entered: the fresh [result], nothing
    logged by the loop yet *)
Definition initialState : state := {| result := initialResult; trace := [] |}.

(** The invocation returns an object: [result], or the [errorRecord] of
    the outer [catch]. The answer is [None] only if the fuel given to the
    loop, [maxRetries] rounded to a natural number, did not suffice. *)
Definition extractSocialLinks (targetUrl : string) (options : Options)
           (browser : Browser) : option (gmap string string * list event) :=
  let config := mkConfig options in
  let url := normalizeUrl targetUrl in
  match goto browser url (c_timeout config) with
  | Throws e => Some (errorRecord e url, [])
  | Ok _ =>
      match retryLoop config browser (Z.to_nat (c_maxRetries config)) 0 initialState with
      | None => None
      | Some (Ok _, s) => Some (result s, trace s)
      | Some (Throws e, s) => Some (errorRecord e url, trace s)
      end
  end.

End Social.

(* ===================================================================== *)
(** ** The Facebook profile scraper *)
(* ===================================================================== *)

Module Facebook.

Record Options : Type := {
  headless : option bool;
  timeout : option Z;
  maxRetries : option Z;
  delayMs : option Z
}.

Record Config : Type := {
  c_headless : bool;
  c_timeout : Z;
  c_maxRetries : Z;
  c_delayMs : option Z
}.

(** [{ headless: true, timeout: 30000, maxRetries: 20, ...options }] *)
Definition mkConfig (options : Options) : Config :=
  {| c_headless := default true (headless options);
     c_timeout := default 30000 (timeout options);
     c_maxRetries := default 20 (maxRetries options);
     c_delayMs := delayMs options |}.

Definition noOptions : Options :=
  {| headless := None; timeout := None; maxRetries := None; delayMs := None |}.

(** the eight values one attempt gathers from its locator queries *)
Record Fields : Type := {
  pageName : string;
  pageLikes : string;
  pageFollowers : string;
  phone : string;
  email : string;
  address : string;
  website : string;
  category : string
}.

(** the browser of one invocation: navigation, the body text read for the
    captcha check ([Throws] also when it is [null] and [includes] fails),
    the number of recaptcha frames, what the locator queries of attempt [n]
    (from 1) gather, or the error one of them throws, and what
    [page.waitForTimeout(1000)] answers after attempt [n]. *)
Record Browser : Type := {
  goto : string -> Z -> outcome unit;
  bodyText : outcome string;
  recaptchaCount : outcome nat;
  gathered : Z -> outcome Fields;
  waitForTimeout : Z -> outcome unit
}.

Definition normalizeUrl (facebookUrl : string) : string :=
  let url := JS.trim facebookUrl in
  let url := if negb (JS.hasHttpScheme url) then "https://" +:+ url else url in
  JS.join " " (take 10 (JS.splitWs url)).

(** [pageName || pageLikes || ... || category] *)
Definition foundAny (f : Fields) : bool :=
  existsb JS.truthy
    [pageName f; pageLikes f; pageFollowers f; phone f;
     email f; address f; website f; category f].

(** the object literal of [profileInfo] *)
Definition profileObject (f : Fields) : gmap string string :=
  {[ "pageName" := pageName f; "pageLikes" := pageLikes f;
     "pageFollowers" := pageFollowers f; "phone" := phone f;
     "email" := email f; "address" := address f;
     "website" := website f; "category" := category f ]}.

Definition emptyFields : Fields :=
  {| pageName := ""; pageLikes := ""; pageFollowers := ""; phone := "";
     email := ""; address := ""; website := ""; category := "" |}.

Section Loop.
Variable config : Config.
Variable browser : Browser.

(** the trace after the [try] of attempt [n]: the attempt line, and the
    error line when a query threw *)
Definition attempted (n : Z) (tr : list event) : list event :=
  match gathered browser n with
  | Ok _ => tr ++ [LogAttempt n]
  | Throws e => tr ++ [LogAttempt n; LogError n e]
  end.

(** the [profileInfo] the [try] of attempt [n] sets, on which it leaves
    the loop by [break] *)
Definition foundAt (n : Z) : option (gmap string string) :=
  match gathered browser n with
  | Ok f => if foundAny f then Some (profileObject f) else None
  | Throws _ => None
  end.

(** [while (retries < config.maxRetries && !profileInfo) { ... }]: the
    answer is the final [profileInfo], or the error of a wait, which the
    [try] of the attempt does not cover, and the trace; [None] when the
    fuel ran out. A wait is recorded when it is called. *)
Fixpoint retryLoop (fuel : nat) (retries : Z)
         (profileInfo : option (gmap string string)) (tr : list event)
  : option (outcome (option (gmap string string)) * list event) :=
  if (retries <? c_maxRetries config) && negb (bool_decide (is_Some profileInfo)) then
    match fuel with
    | O => None
    | S fuel' =>
        let tr := attempted (retries + 1) tr in
        match foundAt (retries + 1) with
        | Some info => Some (Ok (Some info), tr)
        | None =>
            let tr := (tr ++ [WaitForTimeout 1000])%list in
            match waitForTimeout browser (retries + 1) with
            | Ok _ => retryLoop fuel' (retries + 1) profileInfo tr
            | Throws e => Some (Throws e, tr)
            end
        end
    end
  else Some (Ok profileInfo, tr).
End Loop.

(** the captcha check; the frames are counted only if neither phrase is
    in the body text *)
Definition captchaCheck (browser : Browser) : outcome bool :=
  match bodyText browser with
  | Throws e => Throws e
  | Ok text =>
      if JS.includes "unusual traffic" text || JS.includes "not a robot" text
      then Ok true
      else match recaptchaCount browser with
           | Throws e => Throws e
           | Ok n => Ok (0 <? n)%nat
           end
  end.

Definition scrapeFacebookProfile (facebookUrl : string) (options : Options)
           (browser : Browser) : option (gmap string string * list event) :=
  let config := mkConfig options in
  let url := normalizeUrl facebookUrl in
  match goto browser url (c_timeout config) with
  | Throws e => Some (errorRecord e url, [])
  | Ok _ =>
      match captchaCheck browser with
      | Throws e => Some (errorRecord e url, [])
      | Ok true => Some (errorRecord "captcha" url, [LogCaptcha])
      | Ok false =>
          match retryLoop config browser (Z.to_nat (c_maxRetries config)) 0 None [] with
          | None => None
          | Some (Ok (Some info), tr) => Some (info, tr)
          | Some (Ok None, tr) => Some (profileObject emptyFields, tr)
          | Some (Throws e, tr) => Some (errorRecord e url, tr)
          end
      end
  end.

End Facebook.

(* ===================================================================== *)
(** ** The local services scraper *)
(* ===================================================================== *)

Module LocalServices.

(** a value handed to the script that runs in the page *)
Inductive value : Type :=
| VString (s : string)
| VNumber (z : Z).

(** one scraped listing, and the object the in-page script returns; the
    properties [page] and [keyword] hold what the script was handed, [None]
    is [undefined] *)
Record Listing : Type := {
  name : string; phone : string; category : string; address : string;
  website : string; reviews : string; rating : string;
  page : option value; keyword : option value
}.

(** what the function resolves to: an object with string properties (the
    captcha record), or [{ data, total }] *)
Inductive output : Type :=
| Object (o : gmap string string)
| Results (data : list Listing) (total : Z).

(** the browser of one invocation: navigation to the built URL, the body
    text, whether [$('iframe[src*=recaptcha]')] finds an element, the
    scroll height answered by the [k]-th scroll, and the object the
    in-page scraping script returns. The function has no [try]: a thrown
    error rejects the promise. *)
Record Browser : Type := {
  goto : outcome unit;
  bodyText : outcome string;
  recaptchaFrame : outcome bool;
  scrollHeight : nat -> outcome Z;
  evaluated : outcome (list Listing * Z)
}.

(** [while (true) { ...; if (currentHeight === prevHeight) break; ... }] *)
Fixpoint scrollLoop (browser : Browser) (fuel k : nat) (prevHeight : Z)
         (tr : list event) : option (outcome unit * list event) :=
  match fuel with
  | O => None
  | S fuel' =>
      match scrollHeight browser k with
      | Throws e => Some (Throws e, tr)
      | Ok currentHeight =>
          if currentHeight =? prevHeight then Some (Ok tt, tr)
          else scrollLoop browser fuel' (S k) currentHeight
                          (tr ++ [WaitForTimeout 2000])
      end
  end.

Definition scrapeLocalServices (browser : Browser) (fuel : nat)
  : option (outcome output * list event) :=
  match goto browser with
  | Throws e => Some (Throws e, [])
  | Ok _ =>
      match bodyText browser with
      | Throws e => Some (Throws e, [])
      | Ok text =>
          let hasCaptcha :=
            JS.includes "unusual traffic" text || JS.includes "not a robot" text in
          match recaptchaFrame browser with
          | Throws e => Some (Throws e, [])
          | Ok hasRecaptcha =>
              if hasCaptcha || hasRecaptcha
              then Some (Ok (Object {[ "error" := "captcha" ]}), [])
              else
                match scrollLoop browser fuel 0 0 [] with
                | None => None
                | Some (Throws e, tr) => Some (Throws e, tr)
                | Some (Ok _, tr) =>
                    match evaluated browser with
                    | Throws e => Some (Throws e, tr)
                    | Ok (data, total) => Some (Ok (Results data total), tr)
                    end
                end
          end
      end
  end.

End LocalServices.

(* ===================================================================== *)
(** ** The in-page script of the local services scraper *)
(* ===================================================================== *)

(** The function passed to [pageObj.evaluate] builds one listing for each
    result card. It runs in the page on DOM elements, whose queries do not
    throw, and is handed the object [{ query, page }]; the count read from
    the [aria-label] of the results header is left at the boundary, in
    [LocalServices.evaluated]. *)
Module Cards.

(** What the script reads from one result card, an element
    [div[jscontroller='xkZ6Lb']]: whether it holds the marker
    [span.uDmIZc], the [innerText] of the name element, the [href] of the
    anchor around the website button, the [innerText] of each detail span
    [span.hGz87c], of the review count and of the rating. [None] is an
    element that [querySelector] or [closest] does not find. *)
Record Card : Type := {
  marked : bool;
  nameText : option string;
  websiteHref : option string;
  detailTexts : list string;
  reviewText : option string;
  ratingText : option string
}.

Definition isDigit (c : ascii) : bool :=
  let n := N_of_ascii c in ((48 <=? n) && (n <=? 57))%N.

(** the class of [phoneRegex]: + ( ) ? digits, white space and - *)
Definition isPhoneChar (c : ascii) : bool :=
  existsb (Ascii.eqb c) ["+"; "("; ")"; "?"; "-"]%char
  || isDigit c || JS.isWhiteSpace c.

(** [phoneRegex.test(text)] for [/^[+()?\d\s-]+$/] *)
Definition phoneRegexTest (text : string) : bool :=
  JS.truthy text && allChars isPhoneChar text.

(** the variables of the loop over the detail spans *)
Record Details : Type := {
  phone : string; category : string; address : string;
  foundPhone : bool; foundCategory : bool; foundAddress : bool
}.

Definition noDetails : Details :=
  {| phone := "N/A"; category := "N/A"; address := "N/A";
     foundPhone := false; foundCategory := false; foundAddress := false |}.

(** the body of the loop over the detail spans; its [return] skips the
    spans that tell the opening hours *)
Definition readSpan (d : Details) (innerText : string) : Details :=
  let text := JS.trim innerText in
  let lower := JS.toLowerCase text in
  if JS.includes "open" lower || JS.includes "closed" lower then d
  else if negb (foundPhone d) && phoneRegexTest text then
    {| phone := text; category := category d; address := address d;
       foundPhone := true; foundCategory := foundCategory d;
       foundAddress := foundAddress d |}
  else if negb (foundCategory d) then
    {| phone := phone d; category := text; address := address d;
       foundPhone := foundPhone d; foundCategory := true;
       foundAddress := foundAddress d |}
  else if negb (foundAddress d) then
    {| phone := phone d; category := category d; address := text;
       foundPhone := foundPhone d; foundCategory := foundCategory d;
       foundAddress := true |}
  else d.

Definition readDetails (spans : list string) : Details :=
  fold_left readSpan spans noDetails.

(** [text.replace(/[()]/g, "")] *)
Fixpoint removeParens (s : string) : string :=
  match s with
  | EmptyString => EmptyString
  | String c s' =>
      if Ascii.eqb c "(" || Ascii.eqb c ")" then removeParens s'
      else String c (removeParens s')
  end.

(** the website of a card: the address of the anchor, unless there is
    none, it is empty or it leads to the map *)
Definition websiteOf (card : Card) : string :=
  match websiteHref card with
  | Some href =>
      if JS.truthy href && negb (JS.includes "maps.google.com" href)
      then JS.trim href else "N/A"
  | None => "N/A"
  end.

(** the object handed to the function as its argument: [{ query, page }] *)
Definition evaluateArg (query : string) (page : Z)
  : list (string * LocalServices.value) :=
  [ ("query", LocalServices.VString query); ("page", LocalServices.VNumber page) ].

(** a property of that object as the parameter pattern of the function
    reads it; [None] is [undefined] *)
Fixpoint prop (name : string) (arg : list (string * LocalServices.value))
  : option LocalServices.value :=
  match arg with
  | [] => None
  | (k, v) :: rest => if String.eqb k name then Some v else prop name rest
  end.

(** the object pushed for one card, given the variables [query] and
    [pageNumber] of the function *)
Definition listingOf (query pageNumber : option LocalServices.value) (card : Card)
  : LocalServices.Listing :=
  let d := readDetails (detailTexts card) in
  {| LocalServices.name :=
       match nameText card with Some t => JS.trim t | None => "N/A" end;
     LocalServices.phone := phone d;
     LocalServices.category := category d;
     LocalServices.address := address d;
     LocalServices.website := websiteOf card;
     LocalServices.reviews :=
       match reviewText card with
       | Some t => JS.trim (removeParens t)
       | None => "N/A"
       end;
     LocalServices.rating :=
       match ratingText card with Some t => JS.trim t | None => "N/A" end;
     LocalServices.page := pageNumber;
     LocalServices.keyword := query |}.

(** The function [({ query, pageNumber }) => { ... }] on its argument:
    [items.forEach(e => { if (e.querySelector("span.uDmIZc")) return; ...;
    data.push({...}); })] *)
Definition scrapeCards (arg : list (string * LocalServices.value)) (cards : list Card)
  : list LocalServices.Listing :=
  let query := prop "query" arg in
  let pageNumber := prop "pageNumber" arg in
  fold_left (fun data card =>
               if marked card then data
               else data ++ [listingOf query pageNumber card])
            cards [].

End Cards.

(* ===================================================================== *)
(** ** One attempt of the Facebook profile scraper *)
(* ===================================================================== *)

(** The body of the [try] of one attempt: the locator queries in the order
    of the source, each of which may throw, and what the attempt makes of
    their answers. *)
Module Profile.

(** one of the [div]s of the contact block: the [src] of its first image
    ([None] without image, [Some None] without [src]), and the text of its
    first [span[dir=auto]] ([None] without such a span) *)
Record ContactDiv : Type := {
  imgSrc : outcome (option (option string));
  spanText : outcome (option string)
}.

(** The page as one attempt finds it. A locator that matches nothing
    ([count() = 0]) is [None]. For the category, the first locator answers
    the text of the parent of the element it finds ([Some None] when the
    parent is not found); the second one is asked only when the first
    finds nothing. *)
Record Page : Type := {
  heading : outcome (option string);            (* h1.html-h1 *)
  likesLink : outcome (option string);          (* a[href*=friends_likes] *)
  followersLink : outcome (option string);      (* a[href*=followers] *)
  autoSpans : outcome (list (outcome string));  (* span[dir=auto], innerText of each *)
  contactDivs : outcome (list ContactDiv);
  categoryStrong : outcome (option (option string));
  categoryXPath : outcome (option (option string))
}.

(** [await] in a function without state: the first error ends it *)
Definition andThen {A B} (o : outcome A) (k : A -> outcome B) : outcome B :=
  match o with
  | Ok a => k a
  | Throws e => Throws e
  end.

(** the class [[\w.-]] *)
Definition isHostChar (c : ascii) : bool :=
  Pattern.isWordChar c || Ascii.eqb c "." || Ascii.eqb c "-".

(** the class [[a-z]] under the flag [i] *)
Definition isLetter (c : ascii) : bool :=
  let n := N_of_ascii c in
  ((65 <=? n) && (n <=? 90) || (97 <=? n) && (n <=? 122))%N.

(** [\.[a-z]{2,}$] at the start of [s] *)
Definition matchTld (s : string) : bool :=
  match s with
  | String c rest =>
      Ascii.eqb c "." && (2 <=? String.length rest)%nat && allChars isLetter rest
  | EmptyString => false
  end.

(** the rest of the greedy run [[\w.-]+], then [\.[a-z]{2,}$]: one more
    character of the run first, the end of the run here on failure *)
Fixpoint matchHostTail (s : string) : bool :=
  match s with
  | String c s' => (isHostChar c && matchHostTail s') || matchTld s
  | EmptyString => false
  end.

(** [/^[\w.-]+\.[a-z]{2,}$/i.test(s)] *)
Definition websiteRegexTest (s : string) : bool :=
  match s with
  | String c s' => isHostChar c && matchHostTail s'
  | EmptyString => false
  end.

(** the body of the loop over the spans, on the text of one span; the
    pair is [(email, website)] *)
Definition readSpan (found : string * string) (text : string) : string * string :=
  let trimmedText := JS.trim text in
  let email :=
    if negb (JS.truthy found.1) && JS.includes "@" trimmedText
       && JS.includes "." trimmedText
    then trimmedText else found.1 in
  let website :=
    if negb (JS.truthy found.2) && websiteRegexTest trimmedText
    then trimmedText else found.2 in
  (email, website).

Fixpoint readSpans (spans : list (outcome string)) (found : string * string)
  : outcome (string * string) :=
  match spans with
  | [] => Ok found
  | span :: rest => andThen span (fun text => readSpans rest (readSpan found text))
  end.

(** the loop over the contact block; the pair is [(phone, address)] *)
Fixpoint readContact (divs : list ContactDiv) (found : string * string)
  : outcome (string * string) :=
  match divs with
  | [] => Ok found
  | div :: rest =>
      andThen (imgSrc div) (fun img =>
        match img with
        | None => readContact rest found
        | Some src =>
            let src := default "" src in
            andThen (spanText div) (fun span =>
              match span with
              | None => readContact rest found
              | Some text =>
                  let phone :=
                    if negb (JS.truthy found.1) && JS.includes "Dc7-7AgwkwS.png" src
                    then JS.trim text else found.1 in
                  let address :=
                    if negb (JS.truthy found.2) && JS.includes "8k_Y-oVxbuU.png" src
                    then JS.trim text else found.2 in
                  readContact rest (phone, address)
              end)
        end)
  end.

(** a literal at the start of a text, compared as it is *)
Fixpoint eatExact (lit s : string) : option string :=
  match lit, s with
  | EmptyString, _ => Some s
  | String a lit', String b s' => if Ascii.eqb a b then eatExact lit' s' else None
  | String _ _, EmptyString => None
  end.

(** [/Page\s*·\s*/] at the start of [s]: what follows the match. The
    middle dot is the code unit 183. *)
Definition matchPageDot (s : string) : option string :=
  match eatExact "Page" s with
  | Some rest =>
      match JS.trimStart rest with
      | String c rest' =>
          if Ascii.eqb c (ascii_of_N 183) then Some (JS.trimStart rest') else None
      | EmptyString => None
      end
  | None => None
  end.

(** [parentText.replace(/Page\s*·\s*/, '')]: the leftmost match is cut out *)
Fixpoint removePageDot (s : string) : string :=
  match matchPageDot s with
  | Some rest => rest
  | None =>
      match s with
      | String c s' => String c (removePageDot s')
      | EmptyString => EmptyString
      end
  end.

Definition cleanCategory (parentText : string) : string :=
  JS.trim (removePageDot parentText).

Definition readCategory (p : Page) : outcome string :=
  andThen (categoryStrong p) (fun strong =>
    match strong with
    | Some parent =>
        Ok match parent with Some text => cleanCategory text | None => "" end
    | None =>
        andThen (categoryXPath p) (fun found =>
          Ok match found with
             | Some (Some text) => cleanCategory text
             | _ => ""
             end)
    end).

(** the values one attempt gathers, or the error of the first query that
    throws *)
Definition gatherFields (p : Page) : outcome Facebook.Fields :=
  andThen (heading p) (fun pageName =>
  andThen (likesLink p) (fun pageLikes =>
  andThen (followersLink p) (fun pageFollowers =>
  andThen (autoSpans p) (fun spans =>
  andThen (readSpans spans ("", "")) (fun emailWebsite =>
  andThen (contactDivs p) (fun divs =>
  andThen (readContact divs ("", "")) (fun phoneAddress =>
  andThen (readCategory p) (fun category =>
    Ok {| Facebook.pageName := default "" pageName;
          Facebook.pageLikes := default "" pageLikes;
          Facebook.pageFollowers := default "" pageFollowers;
          Facebook.phone := phoneAddress.1;
          Facebook.email := emailWebsite.1;
          Facebook.address := phoneAddress.2;
          Facebook.website := emailWebsite.2;
          Facebook.category := category |})))))))).

(** the browser whose attempts see the pages [pages] *)
Definition browserOf (goto : string -> Z -> outcome unit) (bodyText : outcome string)
           (recaptchaCount : outcome nat) (pages : Z -> Page)
           (waitForTimeout : Z -> outcome unit) : Facebook.Browser :=
  {| Facebook.goto := goto;
     Facebook.bodyText := bodyText;
     Facebook.recaptchaCount := recaptchaCount;
     Facebook.gathered := fun n => gatherFields (pages n);
     Facebook.waitForTimeout := waitForTimeout |}.

End Profile.

(* ===================================================================== *)
(** ** The result object, the trace and the strategies *)
(* ===================================================================== *)

Import Social.

(** [preserves I m]: whatever [m] answers, and also when it throws, it
    leaves a state satisfying [I] in a state satisfying [I]. *)
Definition preserves {A} (I : state -> Prop) (m : M A) : Prop :=
  forall s, I s -> I (m s).2.

(** the property names of the result object *)
Definition fieldNames : list string := "contact" :: socialPlatforms.

Definition fieldSet : gset string := list_to_set fieldNames.

(** a field is resolved when it holds a non-empty string *)
Definition resolved (r : gmap string string) (k : string) : Prop :=
  exists v, r !! k = Some v /\ v <> "".

(** A property of the result object is [stable] when no write to a field
    that is still unresolved can break it; these are the only writes the
    strategies make. *)
Definition stable (R : gmap string string -> Prop) : Prop :=
  forall r k v,
    k ∈ fieldNames -> JS.truthyProp (r !! k) = false -> R r -> R (<[k := v]> r).

(** a property of the result object, as a property of the state *)
Definition onResult (R : gmap string string -> Prop) : state -> Prop :=
  fun s => R (result s).

(** a property of the trace, as a property of the state *)
Definition onTrace (T : list event -> Prop) : state -> Prop :=
  fun s => T (trace s).

Definition isLogAttempt (e : event) : bool :=
  match e with LogAttempt _ => true | _ => false end.

(** the number of passes of an invocation: every pass is announced by its
    attempt line *)
Definition passes (tr : list event) : nat := length (filter isLogAttempt tr).

(** the waits of an invocation, in order *)
Definition waits (tr : list event) : list Z :=
  omap (fun e => match e with WaitForTimeout ms => Some ms | _ => None end) tr.

(** what the strategies of a pass may add to the trace *)
Definition passEvent (e : event) : Prop :=
  match e with Enter _ => True | _ => False end.

(** what an attempt may add after its attempt line *)
Definition tailEvent (e : event) : Prop :=
  match e with
  | Enter _ | LogResult _ | LogError _ _ => True
  | WaitForTimeout ms => ms = 1000
  | LogAttempt _ | LogCaptcha => False
  end.

(** what the whole loop of the extractor may add to the trace *)
Definition loopEvent (e : event) : Prop :=
  match e with
  | WaitForTimeout ms => ms = 1000
  | LogCaptcha => False
  | _ => True
  end.

(** what the loop of the Facebook scraper may add to the trace *)
Definition fbLoopEvent (e : event) : Prop :=
  match e with
  | LogAttempt _ | LogError _ _ => True
  | WaitForTimeout ms => ms = 1000
  | _ => False
  end.

(** the number of times a pass reached the block the source numbers [k] *)
Definition isEnter (k : nat) (e : event) : bool :=
  match e with Enter j => Nat.eqb j k | _ => false end.

Definition entered (k : nat) (tr : list event) : nat :=
  length (filter (isEnter k) tr).

(** what an invocation returned and what it logged *)
Definition returned (run : option (gmap string string * list event))
  : gmap string string :=
  match run with Some (r, _) => r | None => ∅ end.

Definition logged (run : option (gmap string string * list event)) : list event :=
  match run with Some (_, tr) => tr | None => [] end.

(** a property of traces that survives the events in [allowed] *)
Definition closedUnder (allowed : event -> Prop) (T : list event -> Prop) : Prop :=
  forall t e, allowed e -> T t -> T (t ++ [e]).

(** the state in which the strategies of attempt [n] start *)
Definition announced (n : Z) (s : state) : state :=
  {| result := result s; trace := trace s ++ [LogAttempt n] |}.

(** the strategy the source numbers [k] *)
Definition strategy (k : nat) : Page -> M unit :=
  match k with
  | 1 => strategy1
  | 2 => strategy2
  | 3 => strategy3
  | 4 => strategy4
  | 5 => strategy5
  | 6 => strategy6
  | _ => fun _ => ret tt
  end%nat.

(** the state after a sequence of strategy runs, each on the page it
    found, whether the runs answered or threw *)
Definition afterRuns (runs : list (nat * Page)) (s : state) : state :=
  fold_left (fun s run => (strategy run.1 run.2 s).2) runs s.

(** the body of the loop of the sixth strategy *)
Definition searchStep (html platform : string) : M unit :=
  bind getResult (fun r =>
    when (negb (JS.truthyProp (r !! platform)))
         match Pattern.exec platform html with
         | Some m => setProp platform m
         | None => ret tt
         end).

(* ===================================================================== *)
(** ** Pages with zero matching signals *)
(* ===================================================================== *)

(** a text, in lower case, names the domain of one of the platforms *)
Definition mentionsPlatform (lower : string) : bool :=
  existsb (fun platform => JS.includes (platform +:+ ".com") lower) socialPlatforms.

(** every string inside a JSON value *)
Fixpoint jsonStrings (j : json) : list string :=
  match j with
  | JString s => [s]
  | JArray items => flat_map jsonStrings items
  | JObject props => flat_map (fun kv => jsonStrings kv.2) props
  | _ => []
  end.

(** a text that names no platform, in whatever case *)
Definition silentText (text : string) : Prop :=
  mentionsPlatform (JS.toLowerCase text) = false.

#[global] Instance silentText_dec (text : string) : Decision (silentText text).
Proof. unfold silentText. apply _. Defined.

(** no link of the list names a platform or the contact page, in its
    address or in its text *)
Definition silentAnchor (a : Anchor) : Prop :=
  forall href,
    a_href a = Ok (Some href) ->
    silentText href
    /\ JS.includes "/contact" (JS.toLowerCase href) = false
    /\ forall text, a_text a = Ok text ->
                    JS.includes "contact" (JS.toLowerCase text) = false.

(** what the queries for links and for header and footer answer *)
Definition silentAnchors (o : outcome (list Anchor)) : Prop :=
  forall links, o = Ok links -> Forall silentAnchor links.

Definition silentElement (o : outcome (option Element)) : Prop :=
  forall el, o = Ok (Some el) -> silentAnchors (e_anchors el).

(** a page with zero matching signals: no link, structured-data string,
    rel=me address, see-also entry or stretch of markup names a platform, no
    link names the contact page, and no twitter:site content is declared *)
Record signalFree (p : Page) : Prop := {
  sf_header : silentElement (p_header p);
  sf_footer : silentElement (p_footer p);
  sf_jsonLd : forall scripts script j,
      p_jsonLd p = Ok scripts -> script ∈ scripts -> s_parsed script = Ok j ->
      Forall silentText (jsonStrings j);
  sf_relMe : forall links link href,
      p_relMe p = Ok links -> link ∈ links -> l_href link = Ok (Some href) ->
      silentText href;
  sf_twitterSite : forall el content,
      p_twitterSite p = Ok (Some el) -> m_content el = Ok (Some content) ->
      JS.trim content = "";
  sf_ogSeeAlso : forall el content,
      p_ogSeeAlso p = Ok (Some el) -> m_content el = Ok (Some content) ->
      Forall silentText (JS.splitChar "," content);
  sf_anchors : silentAnchors (p_anchors p);
  sf_content : forall html, p_content p = Ok html -> silentText html
}.

(* ===================================================================== *)
(** ** Pages, browsers and options used as concrete inputs *)
(* ===================================================================== *)

Module Examples.

(** a page on which every query answers and finds nothing *)
Definition blankPage : Page :=
  {| p_header := Ok None; p_footer := Ok None; p_jsonLd := Ok [];
     p_relMe := Ok []; p_twitterSite := Ok None; p_ogSeeAlso := Ok None;
     p_anchors := Ok [];
     p_content := Ok "<html><head></head><body></body></html>" |}.

(** a browser that navigates and shows the same page at every attempt *)
Definition staticBrowser (p : Page) : Social.Browser :=
  {| Social.goto := fun _ _ => Ok tt; Social.rendered := fun _ => p |}.

Definition withMaxRetries (n : Z) (delay : option Z) : Social.Options :=
  {| Social.headless := None; Social.timeout := None;
     Social.maxRetries := Some n; Social.delayMs := delay |}.

(** a Facebook page without captcha on which the locators find nothing *)
Definition silentProfile : Facebook.Browser :=
  {| Facebook.goto := fun _ _ => Ok tt;
     Facebook.bodyText := Ok "Log in or sign up";
     Facebook.recaptchaCount := Ok 0%nat;
     Facebook.gathered := fun _ => Ok Facebook.emptyFields;
     Facebook.waitForTimeout := fun _ => Ok tt |}.

Definition fbMaxRetries (n : Z) (delay : option Z) : Facebook.Options :=
  {| Facebook.headless := None; Facebook.timeout := None;
     Facebook.maxRetries := Some n; Facebook.delayMs := delay |}.

End Examples.

Module Failing.

(** the header query throws; a rel=me link names the Facebook page *)
Definition brokenHeader : Page :=
  {| p_header := Throws "Execution context was destroyed";
     p_footer := Ok None; p_jsonLd := Ok [];
     p_relMe := Ok [ {| l_href := Ok (Some "https://facebook.com/acme") |} ];
     p_twitterSite := Ok None; p_ogSeeAlso := Ok None; p_anchors := Ok [];
     p_content := Ok "<html><head></head><body></body></html>" |}.

End Failing.

(** an anchor with its address and its text *)
Definition linkTo (url text : string) : Anchor :=
  {| a_href := Ok (Some url); a_text := Ok text |}.

(** a page whose header links to all five platforms and to the contact
    page *)
Definition fullHeader : Page :=
  {| p_header := Ok (Some {| e_anchors := Ok
       [ linkTo "https://facebook.com/acme" "Facebook";
         linkTo "https://instagram.com/acme" "Instagram";
         linkTo "https://twitter.com/acme" "Twitter";
         linkTo "https://youtube.com/acme" "YouTube";
         linkTo "https://linkedin.com/company/acme" "LinkedIn";
         linkTo "/contact" "Contact us" ] |});
     p_footer := Ok None; p_jsonLd := Ok []; p_relMe := Ok [];
     p_twitterSite := Ok None; p_ogSeeAlso := Ok None; p_anchors := Ok [];
     p_content := Ok "<html><head></head><body></body></html>" |}.

(** a page of a company that links to its own pages only *)
Definition plainPage : Page :=
  {| p_header := Ok (Some {| e_anchors := Ok
       [ linkTo "/about" "About us"; linkTo "https://example.com/news" "News" ] |});
     p_footer := Ok None;
     p_jsonLd := Ok [ {| s_parsed := Ok (JObject
       [ ("@type", JString "Organization"); ("name", JString "Acme");
         ("sameAs", JArray [ JString "https://example.org/acme" ]) ]) |} ];
     p_relMe := Ok [ {| l_href := Ok (Some "https://example.org/@acme") |} ];
     p_twitterSite := Ok None;
     p_ogSeeAlso := Ok (Some {| m_content := Ok (Some "https://example.org/a,https://example.org/b") |});
     p_anchors := Ok [ linkTo "/about" "About us"; linkTo "https://example.com/news" "News" ];
     p_content := Ok "<html><head></head><body><a href=/about>About us</a></body></html>" |}.

(** a page with nothing but its markup *)
Definition markupOnly (html : string) : Page :=
  {| p_header := Ok None; p_footer := Ok None; p_jsonLd := Ok [];
     p_relMe := Ok []; p_twitterSite := Ok None; p_ogSeeAlso := Ok None;
     p_anchors := Ok []; p_content := Ok html |}.

(** a record with one field resolved *)
Definition facebookKnown : state :=
  {| result := <["facebook" := "https://facebook.com/acme"]> initialResult;
     trace := [] |}.

(** a results page of the local services search that shows the block
    notice *)
Definition blockedSearch : LocalServices.Browser :=
  {| LocalServices.goto := Ok tt;
     LocalServices.bodyText :=
       Ok "Our systems have detected unusual traffic from your computer network.";
     LocalServices.recaptchaFrame := Ok false;
     LocalServices.scrollHeight := fun _ => Ok 0;
     LocalServices.evaluated := Ok ([], 0) |}.

(** a Facebook page that shows a recaptcha frame *)
Definition challengedProfile : Facebook.Browser :=
  {| Facebook.goto := fun _ _ => Ok tt;
     Facebook.bodyText := Ok "Security check";
     Facebook.recaptchaCount := Ok 1%nat;
     Facebook.gathered := fun _ => Ok Facebook.emptyFields;
     Facebook.waitForTimeout := fun _ => Ok tt |}.



(* ===================================================================== *)
(** ** What the theorems say of an invocation *)
(* ===================================================================== *)

(** the outcome of the Facebook scraper on a blocked page: the captcha
    record with the normalized URL, and no pass *)
Definition facebookBlocked (facebookUrl : string) (options : Facebook.Options)
           (fbBrowser : Facebook.Browser) : Prop :=
  exists r tr,
    Facebook.scrapeFacebookProfile facebookUrl options fbBrowser = Some (r, tr)
    /\ r = errorRecord "captcha" (Facebook.normalizeUrl facebookUrl)
    /\ r !! "error" = Some "captcha"
    /\ r !! "url" = Some (Facebook.normalizeUrl facebookUrl)
    /\ passes tr = 0%nat.

(** the outcome of the local services scraper on a blocked page: the
    captcha record alone, no scrolling and no scraping, whatever the fuel *)
Definition localServicesBlocked (lsBrowser : LocalServices.Browser) : Prop :=
  forall fuel,
    LocalServices.scrapeLocalServices lsBrowser fuel
    = Some (Ok (LocalServices.Object {[ "error" := "captcha" ]}), []).

(** what first-found-wins says of a field [F] that holds [v] in [s] *)
Definition firstFoundWins (runs : list (nat * Page)) (p : Page) (s : state)
           (F v : string) : Prop :=
  result (afterRuns runs s) !! F = Some v
  /\ result (pass p s).2 !! F = Some v
  /\ ((forall G, G ∈ fieldNames -> resolved (result s) G) ->
      result (pass p s).2 = result s
      /\ result (afterRuns runs s) = result s).

(** no property of the record holds a non-empty string *)
Definition unresolved (r : gmap string string) : Prop := forall k, ~ resolved r k.

(** What the retry bound says of one invocation of the extractor: at most
    [maxRetries] passes; one pass, whose record is returned, when the first
    pass resolves a field, whichever, so also when it resolves them all; a
    record without error
    property in any case, reached after all the passes when it has no
    field resolved. *)
Definition socialRetryBound (targetUrl : string) (options : Options)
           (browser : Browser) : Prop :=
  exists r tr,
    extractSocialLinks targetUrl options browser = Some (r, tr)
    /\ (passes tr <= Z.to_nat (c_maxRetries (mkConfig options)))%nat
    /\ (1 <= c_maxRetries (mkConfig options) ->
        (exists k,
            resolved (result (pass (rendered browser 1) (announced 1 initialState)).2) k) ->
        passes tr = 1%nat
        /\ r = result (pass (rendered browser 1) (announced 1 initialState)).2)
    /\ r !! "error" = None
    /\ (unresolved r -> passes tr = Z.to_nat (c_maxRetries (mkConfig options))).

(** no attempt on the Facebook page gathers a non-empty value *)
Definition nothingGathered (fbBrowser : Facebook.Browser) : Prop :=
  forall k f, Facebook.gathered fbBrowser k = Ok f ->
              unresolved (Facebook.profileObject f).

(** every wait of the Facebook scraper returns *)
Definition waitsReturn (fbBrowser : Facebook.Browser) : Prop :=
  forall k, Facebook.waitForTimeout fbBrowser k = Ok tt.

(** And of one invocation of the Facebook scraper: at most [maxRetries]
    attempts; one attempt when the first one gathers a non-empty value,
    whichever; all the attempts and the profile with every value empty when
    no attempt gathers anything and every wait returns. *)
Definition facebookRetryBound (facebookUrl : string) (fbOptions : Facebook.Options)
           (fbBrowser : Facebook.Browser) : Prop :=
  exists r tr,
    Facebook.scrapeFacebookProfile facebookUrl fbOptions fbBrowser = Some (r, tr)
    /\ (passes tr <= Z.to_nat (Facebook.c_maxRetries (Facebook.mkConfig fbOptions)))%nat
    /\ (forall f,
           1 <= Facebook.c_maxRetries (Facebook.mkConfig fbOptions) ->
           Facebook.gathered fbBrowser 1 = Ok f ->
           (exists k, resolved (Facebook.profileObject f) k) ->
           passes tr = 1%nat /\ r = Facebook.profileObject f)
    /\ (nothingGathered fbBrowser -> waitsReturn fbBrowser ->
        passes tr = Z.to_nat (Facebook.c_maxRetries (Facebook.mkConfig fbOptions))
        /\ r = Facebook.profileObject Facebook.emptyFields
        /\ r !! "error" = None).

(** Where a pass stops early, [s4] being the state after the first four
    strategies: these four were entered in a row; with a field resolved in
    [s4] the pass ends there; with none resolved the fifth strategy is
    entered, and after it the same test decides on the sixth: with a field
    resolved after the fifth the pass ends there, with none the sixth is
    entered. A strategy that throws ends the pass where it threw. *)
Definition earlyStop (p : Page) (s s4 : state) : Prop :=
  trace s4 = trace s ++ [Enter 1; Enter 2; Enter 3; Enter 4]
  /\ ((exists k, resolved (result s4) k) -> pass p s = (Ok tt, s4))
  /\ (unresolved (result s4) ->
      trace (strategy5 p s4).2 = trace s4 ++ [Enter 5]
      /\ (forall e, (strategy5 p s4).1 = Throws e ->
                    pass p s = (Throws e, (strategy5 p s4).2))
      /\ ((strategy5 p s4).1 = Ok tt ->
          ((exists k, resolved (result (strategy5 p s4).2) k) ->
           pass p s = (Ok tt, (strategy5 p s4).2))
          /\ (unresolved (result (strategy5 p s4).2) ->
              trace (pass p s).2
              = trace s ++ [Enter 1; Enter 2; Enter 3; Enter 4; Enter 5; Enter 6]))).

(** what the smallest budgets give in the extractor *)
Definition socialSmallBudgets (targetUrl : string) (h : option bool)
           (t d : option Z) (browser : Browser) : Prop :=
  (exists r tr,
      extractSocialLinks targetUrl
        {| headless := h; timeout := t; maxRetries := Some 1; delayMs := d |}
        browser = Some (r, tr)
      /\ passes tr = 1%nat /\ waits tr = [])
  /\ extractSocialLinks targetUrl
       {| headless := h; timeout := t; maxRetries := Some 0; delayMs := d |}
       browser = Some (initialResult, []).

(** and in the Facebook scraper *)
Definition facebookSmallBudgets (facebookUrl : string) (h : option bool)
           (t d : option Z) (fbBrowser : Facebook.Browser) : Prop :=
  (exists r tr,
      Facebook.scrapeFacebookProfile facebookUrl
        {| Facebook.headless := h; Facebook.timeout := t;
           Facebook.maxRetries := Some 1; Facebook.delayMs := d |}
        fbBrowser = Some (r, tr)
      /\ passes tr = 1%nat)
  /\ Facebook.scrapeFacebookProfile facebookUrl
       {| Facebook.headless := h; Facebook.timeout := t;
          Facebook.maxRetries := Some 0; Facebook.delayMs := d |}
       fbBrowser = Some (Facebook.profileObject Facebook.emptyFields, []).

(** the strategies [ks] of a pass, one after the other *)
Fixpoint runStrategies (ks : list nat) (p : Page) : M unit :=
  match ks with
  | [] => ret tt
  | k :: rest => bind (strategy k p) (fun _ => runStrategies rest p)
  end.

(** What containment of a throw means. In attempt [n + 1], begun in state
    [s], the strategies before the [k]-th answered and led to [s1], where
    the [k]-th threw [e] and left [s2]. Then the pass ends with that throw
    in [s2] and no later strategy is entered; the attempt catches and logs
    the error and keeps the record of [s2], in which what was resolved in
    [s1] is unchanged; whatever the fuel, the loop ends there when a
    field is resolved or the attempts are used up, and else, given fuel
    enough, it returns after a next attempt made at once; no
    script of the structured data throws; and the invocation returns no
    error record. *)
Definition failureContained
           (targetUrl : string) (options : Options) (browser : Browser)
           (n : Z) (s : state) (k : nat) (s1 s2 : state) (e : string) : Prop :=
  let config := mkConfig options in
  let caught := {| result := result s2; trace := trace s2 ++ [LogError (n + 1) e] |} in
  pass (rendered browser (n + 1)) (announced (n + 1) s) = (Throws e, s2)
  /\ (exists es, trace s2 = trace s ++ LogAttempt (n + 1) :: es
                 /\ forall j, (k < j)%nat -> entered j es = 0%nat)
  /\ attempt config browser (n + 1) s = (Ok false, caught)
  /\ (forall key v, result s1 !! key = Some v -> v <> "" -> result s2 !! key = Some v)
  /\ ((exists key, resolved (result s2) key) \/ c_maxRetries config <= n + 1 ->
      forall fuel, retryLoop config browser (S fuel) n s = Some (Ok tt, caught))
  /\ (unresolved (result s2) -> n + 1 < c_maxRetries config ->
      forall fuel, (Z.to_nat (c_maxRetries config - n) <= fuel)%nat ->
        exists s' es, retryLoop config browser fuel n s = Some (Ok tt, s')
                      /\ trace s' = trace caught ++ LogAttempt (n + 2) :: es)
  /\ (forall script s0, (scanScript script s0).1 = Ok tt)
  /\ (goto browser (normalizeUrl targetUrl) (c_timeout config) = Ok tt ->
      exists r tr,
        extractSocialLinks targetUrl options browser = Some (r, tr)
        /\ r !! "error" = None).

(** what happens to a mention in the markup only *)
Definition mentionResolved (html targetUrl : string) (options : Options) : Prop :=
  let p := markupOnly html in
  (exists s4 s5,
      strategies1to4 p initialState = (Ok tt, s4)
      /\ strategy5 p s4 = (Ok tt, s5)
      /\ result s5 !! "instagram" = Some ""
      /\ trace s5 = [Enter 1; Enter 2; Enter 3; Enter 4; Enter 5])
  /\ (exists m,
         Pattern.exec "instagram" html = Some m /\ m <> ""
         /\ result (pass p initialState).2 !! "instagram" = Some m
         /\ exists r tr,
             extractSocialLinks targetUrl options (Examples.staticBrowser p) = Some (r, tr)
             /\ passes tr = 1%nat
             /\ r !! "instagram" = Some m).

(** what a pass over [p] from the fresh record, and an invocation that
    finds the pages of [browser], give when there is no signal *)
Definition nothingFound (p : Page) (tr : list event)
           (targetUrl : string) (options : Options) (browser : Browser) : Prop :=
  (let r := result (pass p {| result := initialResult; trace := tr |}).2 in
   Forall (fun field => r !! field = Some "") fieldNames
   /\ hasSocialLinks r = false)
  /\ exists r tr',
      extractSocialLinks targetUrl options browser = Some (r, tr')
      /\ Forall (fun field => r !! field = Some "") fieldNames
      /\ hasSocialLinks r = false
      /\ passes tr' = Z.to_nat (c_maxRetries (mkConfig options)).






(** the loop of the Facebook scraper ended with a profile *)
Definition foundIn (o : outcome (option (gmap string string))) : bool :=
  match o with Ok (Some _) => true | _ => false end.



(** a page whose header links to the Facebook page and whose query for
    the structured data throws *)
Definition foundThenBroken : Page :=
  {| p_header := Ok (Some {| e_anchors := Ok
       [ linkTo "https://facebook.com/acme" "Facebook" ] |});
     p_footer := Ok None;
     p_jsonLd := Throws "Execution context was destroyed";
     p_relMe := Ok [ {| l_href := Ok (Some "https://instagram.com/acme") |} ];
     p_twitterSite := Ok None; p_ogSeeAlso := Ok None; p_anchors := Ok [];
     p_content := Ok "<html><head></head><body></body></html>" |}.

(** a Facebook page on which the name of the page is gathered *)
Definition namedProfile : Facebook.Browser :=
  {| Facebook.goto := fun _ _ => Ok tt;
     Facebook.bodyText := Ok "Acme Plumbing";
     Facebook.recaptchaCount := Ok 0%nat;
     Facebook.gathered := fun _ =>
       Ok {| Facebook.pageName := "Acme Plumbing"; Facebook.pageLikes := "";
             Facebook.pageFollowers := ""; Facebook.phone := "";
             Facebook.email := ""; Facebook.address := "";
             Facebook.website := ""; Facebook.category := "" |};
     Facebook.waitForTimeout := fun _ => Ok tt |}.

(** a Facebook page on which nothing is gathered and that is closed while
    the scraper waits *)
Definition closingProfile : Facebook.Browser :=
  {| Facebook.goto := fun _ _ => Ok tt;
     Facebook.bodyText := Ok "Log in or sign up";
     Facebook.recaptchaCount := Ok 0%nat;
     Facebook.gathered := fun _ => Ok Facebook.emptyFields;
     Facebook.waitForTimeout := fun _ =>
       Throws "Target page, context or browser has been closed" |}.

(* ===================================================================== *)
(** ** What a scan of links finds *)
(* ===================================================================== *)

(** the address of an anchor the scan looks at: it answered, and is not
    empty *)
Definition usableHref (a : Anchor) : option string :=
  match a_href a with
  | Ok (Some (String c h)) => Some (String c h)
  | _ => None
  end.

(** the first usable address of the list that names the platform *)
Fixpoint firstPlatformLink (platform : string) (links : list Anchor) : option string :=
  match links with
  | [] => None
  | a :: rest =>
      match usableHref a with
      | Some h =>
          if JS.includes (platform +:+ ".com") (JS.toLowerCase h) then Some h
          else firstPlatformLink platform rest
      | None => firstPlatformLink platform rest
      end
  end.

(** an anchor counts as a contact link by its address or by its text *)
Definition isContactLink (a : Anchor) (h : string) : bool :=
  JS.includes "/contact" (JS.toLowerCase h)
  || match a_text a with
     | Ok text => JS.includes "contact" (JS.toLowerCase text)
     | Throws _ => false
     end.

Fixpoint firstContactLink (links : list Anchor) : option string :=
  match links with
  | [] => None
  | a :: rest =>
      match usableHref a with
      | Some h => if isContactLink a h then Some h else firstContactLink rest
      | None => firstContactLink rest
      end
  end.

(** the body of the loop of [extractLinksFrom] *)
Definition scanAnchor (link : Anchor) : M unit :=
  bind (await (a_href link)) (fun href =>
    match href with
    | None | Some EmptyString => ret tt
    | Some href =>
        let hrefLower := JS.toLowerCase href in
        bind (matchPlatforms hrefLower href) (fun _ =>
          bind getResult (fun r =>
            if negb (JS.truthyProp (r !! "contact")) then
              if JS.includes "/contact" hrefLower then setProp "contact" href
              else
                bind (await (a_text link)) (fun text =>
                  when (JS.includes "contact" (JS.toLowerCase text))
                       (setProp "contact" href))
            else ret tt))
    end).

(** every anchor of the list answers both queries *)
Definition answering (a : Anchor) : Prop :=
  (exists h, a_href a = Ok h) /\ (exists t, a_text a = Ok t).

(** the value of property [k] after a scan of [links] from the result [r] *)
Definition scanned (links : list Anchor) (r : gmap string string) (k : string)
  : option string :=
  if JS.truthyProp (r !! k) then r !! k
  else if bool_decide (k ∈ socialPlatforms) then
         match firstPlatformLink k links with
         | Some h => Some h
         | None => r !! k
         end
       else if bool_decide (k = "contact") then
              match firstContactLink links with
              | Some h => Some h
              | None => r !! k
              end
            else r !! k.

(** the value of property [k] after the loop over the platforms *)
Definition matched (lower value : string) (r : gmap string string) (k : string)
  : option string :=
  if bool_decide (k ∈ socialPlatforms)
     && negb (JS.truthyProp (r !! k))
     && JS.includes (k +:+ ".com") lower
  then Some value
  else r !! k.

(** a page whose footer links to the contact page and to nothing else of
    interest *)
Definition contactOnly : Page :=
  {| p_header := Ok None;
     p_footer := Ok (Some {| e_anchors := Ok [ linkTo "/contact-us" "Get in touch" ] |});
     p_jsonLd := Ok []; p_relMe := Ok []; p_twitterSite := Ok None;
     p_ogSeeAlso := Ok None;
     p_anchors := Ok [ linkTo "/contact-us" "Get in touch" ];
     p_content := Ok "<html><body><footer><a href=/contact-us>Get in touch</a></footer></body></html>" |}.

(** a header with two links to Facebook pages and a contact page *)
Definition twoFacebookLinks : list Anchor :=
  [ linkTo "https://example.com/" "Home";
    linkTo "https://www.facebook.com/acme" "Facebook";
    linkTo "https://facebook.com/other" "Partner";
    linkTo "/pages/reach-us" "Contact" ].

(** The shape of a text the pattern for [platform] matches, read off the
    pattern from left to right: the optional scheme, the two slashes, the
    run before the domain, the domain in whatever case, the trailing
    run. *)
Definition matchShape (platform m : string) : Prop :=
  exists scheme body dom tail,
    m = scheme +:+ "//" +:+ body +:+ dom +:+ tail
    /\ JS.toLowerCase scheme ∈ [""; "http:"; "https:"]
    /\ allChars Pattern.isBodyChar body = true
    /\ JS.toLowerCase dom = JS.toLowerCase (platform +:+ ".com")
    /\ allChars Pattern.isTailChar tail = true.

(** the text the pattern matches from the domain on *)
Definition domainShape (platform m : string) : Prop :=
  exists dom tail,
    m = dom +:+ tail
    /\ JS.toLowerCase dom = JS.toLowerCase (platform +:+ ".com")
    /\ allChars Pattern.isTailChar tail = true.

(** the text the pattern matches from the run before the domain on *)
Definition bodyShape (platform m : string) : Prop :=
  exists body m',
    m = body +:+ m' /\ allChars Pattern.isBodyChar body = true /\ domainShape platform m'.

(** every resolved platform field other than twitter holds a value that
    names the domain of its platform, in whatever case *)
Definition namesOwnPlatform (r : gmap string string) : Prop :=
  forall k v,
    k ∈ socialPlatforms -> k <> "twitter" -> r !! k = Some v -> v <> "" ->
    JS.includes (k +:+ ".com") (JS.toLowerCase v) = true.

(** a page whose header links to the Facebook page and whose metadata
    declares a twitter handle *)
Definition handleAndLink : Page :=
  {| p_header := Ok (Some {| e_anchors := Ok
       [ linkTo "https://www.Facebook.com/acme" "Facebook" ] |});
     p_footer := Ok None; p_jsonLd := Ok []; p_relMe := Ok [];
     p_twitterSite := Ok (Some {| m_content := Ok (Some " @acme ") |});
     p_ogSeeAlso := Ok None; p_anchors := Ok [];
     p_content := Ok "<html><head></head><body></body></html>" |}.

(** the addresses of a sameAs array with a number among them *)
Definition mixedSameAs : list (string * json) :=
  [ ("@type", JString "Organization");
    ("sameAs", JArray [ JString "https://facebook.com/acme"; JNumber 7;
                        JString "https://instagram.com/acme" ]) ].

(** an anchor that is detached from the document when it is asked *)
Definition detachedAnchor : Anchor :=
  {| a_href := Throws "Element is not attached to the DOM"; a_text := Ok "Instagram" |}.

(** the anchors before it and after it *)
Definition beforeDetached : list Anchor :=
  [ linkTo "https://example.com/" "Home";
    linkTo "https://www.facebook.com/acme" "Facebook" ].

Definition afterDetached : list Anchor :=
  [ linkTo "https://instagram.com/acme" "Instagram" ].

(** the first character, if any, is no white space *)
Definition startsClean (s : string) : bool :=
  match s with
  | EmptyString => true
  | String c _ => negb (JS.isWhiteSpace c)
  end.

(** a piece between two runs of white space *)
Definition piece (p : string) : Prop :=
  p <> "" /\ allChars (fun c => negb (JS.isWhiteSpace c)) p = true.

(** no character of the text is white space *)
Definition noWhiteSpace (s : string) : bool :=
  allChars (fun c => negb (JS.isWhiteSpace c)) s.

(** a page on which the query for the header throws *)
Definition headerFails (p : Page) : Prop := exists e, p_header p = Throws e.


(** the height the scroll loop compares the [k]-th answer with: 0 at
    first, then the answer before *)
Definition heightBefore (lsBrowser : LocalServices.Browser) (k : nat) : Z :=
  match k with
  | O => 0
  | S j => match LocalServices.scrollHeight lsBrowser j with
           | Ok h => h
           | Throws _ => 0
           end
  end.

(** the [k]-th scroll answers a height other than the one before *)
Definition grewAt (lsBrowser : LocalServices.Browser) (k : nat) : Prop :=
  exists h, LocalServices.scrollHeight lsBrowser k = Ok h
            /\ h <> heightBefore lsBrowser k.

(** the page stops growing at scroll [n], and not before *)
Definition settlesAt (lsBrowser : LocalServices.Browser) (n : nat) : Prop :=
  (forall k, (k < n)%nat -> grewAt lsBrowser k)
  /\ LocalServices.scrollHeight lsBrowser n = Ok (heightBefore lsBrowser n).

(** no block notice and no recaptcha frame *)
Definition unblocked (lsBrowser : LocalServices.Browser) : Prop :=
  LocalServices.goto lsBrowser = Ok tt
  /\ (exists text, LocalServices.bodyText lsBrowser = Ok text
                   /\ JS.includes "unusual traffic" text = false
                   /\ JS.includes "not a robot" text = false)
  /\ LocalServices.recaptchaFrame lsBrowser = Ok false.

(** a results page that is one screen longer at every scroll *)
Definition endlessResults : LocalServices.Browser :=
  {| LocalServices.goto := Ok tt;
     LocalServices.bodyText := Ok "Electricians near Chicago";
     LocalServices.recaptchaFrame := Ok false;
     LocalServices.scrollHeight := fun k => Ok (800 * (Z.of_nat k + 1));
     LocalServices.evaluated := Ok ([], 0) |}.

(** a results page that grows twice and then keeps its height *)
Definition threeScreens : LocalServices.Browser :=
  {| LocalServices.goto := Ok tt;
     LocalServices.bodyText := Ok "Electricians near Chicago";
     LocalServices.recaptchaFrame := Ok false;
     LocalServices.scrollHeight := fun k => Ok (Z.min (800 * (Z.of_nat k + 1)) 1600);
     LocalServices.evaluated := Ok ([], 0) |}.

(* ===================================================================== *)
(** ** What the card and profile scripts pick *)
(* ===================================================================== *)

(** the first element of a list that passes a test *)
Fixpoint firstThat {A} (test : A -> bool) (xs : list A) : option A :=
  match xs with
  | [] => None
  | x :: rest => if test x then Some x else firstThat test rest
  end.

(** the list without that element *)
Fixpoint withoutFirstThat {A} (test : A -> bool) (xs : list A) : list A :=
  match xs with
  | [] => []
  | x :: rest => if test x then rest else x :: withoutFirstThat test rest
  end.

(** a detail text that tells the opening hours *)
Definition tellsHours (text : string) : bool :=
  JS.includes "open" (JS.toLowerCase text) || JS.includes "closed" (JS.toLowerCase text).

(** the trimmed detail texts of a card that do not tell the opening hours *)
Fixpoint keptTexts (spans : list string) : list string :=
  match spans with
  | [] => []
  | span :: rest =>
      if tellsHours (JS.trim span) then keptTexts rest
      else JS.trim span :: keptTexts rest
  end.

(** the cards without the marker *)
Fixpoint unmarked (cards : list Cards.Card) : list Cards.Card :=
  match cards with
  | [] => []
  | card :: rest => if Cards.marked card then unmarked rest else card :: unmarked rest
  end.

(** a text with an at sign and a dot *)
Definition looksLikeEmail (text : string) : bool :=
  JS.includes "@" text && JS.includes "." text.

(** a host name: a non-empty run of word characters, dots and hyphens, a
    dot, and two letters or more *)
Definition hostName (text : string) : Prop :=
  exists host tld,
    text = host +:+ "." +:+ tld
    /\ host <> ""
    /\ allChars Profile.isHostChar host = true
    /\ allChars Profile.isLetter tld = true
    /\ (2 <= String.length tld)%nat.

(** a card of a plumber with opening hours, two numbers and an address *)
Definition plumberTexts : list string :=
  [ " Open 24 hours "; "Plumber"; "+1 (312) 555-0100"; "312 555 0199";
    "12 Main St, Chicago" ].

(** a profile page whose second span cannot be read *)
Definition lostEmail : Profile.Page :=
  {| Profile.heading := Ok None; Profile.likesLink := Ok None;
     Profile.followersLink := Ok None;
     Profile.autoSpans :=
       Ok [Ok "info@acme.example"; Throws "Target closed"; Ok "acme.example"];
     Profile.contactDivs := Ok []; Profile.categoryStrong := Ok None;
     Profile.categoryXPath := Ok None |}.

(** a profile page whose heading is read and whose first span cannot be *)
Definition namedButFailing : Profile.Page :=
  {| Profile.heading := Ok (Some "Acme Plumbing"); Profile.likesLink := Ok None;
     Profile.followersLink := Ok None;
     Profile.autoSpans := Ok [Throws "Element is not attached to the DOM"];
     Profile.contactDivs := Ok []; Profile.categoryStrong := Ok None;
     Profile.categoryXPath := Ok None |}.

(** a profile page on which every query answers with the given spans and
    nothing else is found *)
Definition spansOnly (spans : list (outcome string)) : Profile.Page :=
  {| Profile.heading := Ok None; Profile.likesLink := Ok None;
     Profile.followersLink := Ok None; Profile.autoSpans := Ok spans;
     Profile.contactDivs := Ok []; Profile.categoryStrong := Ok None;
     Profile.categoryXPath := Ok None |}.

(** the trimmed span texts of the divs of the contact block that show the
    icon [icon], in document order *)
Fixpoint iconTexts (icon : string) (divs : list Profile.ContactDiv) : list string :=
  match divs with
  | [] => []
  | div :: rest =>
      match Profile.imgSrc div, Profile.spanText div with
      | Ok (Some src), Ok (Some text) =>
          if JS.includes icon (default "" src) then JS.trim text :: iconTexts icon rest
          else iconTexts icon rest
      | _, _ => iconTexts icon rest
      end
  end.

(** both queries of a div of the contact block answer *)
Definition answeringDiv (div : Profile.ContactDiv) : Prop :=
  (exists img, Profile.imgSrc div = Ok img)
  /\ (exists span, Profile.spanText div = Ok span).

(** a contact block: a div without image, a phone div with an empty
    text, a phone div with a number, an address div *)
Definition acmeContact : list Profile.ContactDiv :=
  [ {| Profile.imgSrc := Ok None; Profile.spanText := Ok (Some "About") |};
    {| Profile.imgSrc := Ok (Some (Some "https://static.example/Dc7-7AgwkwS.png"));
       Profile.spanText := Ok (Some "  ") |};
    {| Profile.imgSrc := Ok (Some (Some "https://static.example/Dc7-7AgwkwS.png"));
       Profile.spanText := Ok (Some " +1 312 555 0100 ") |};
    {| Profile.imgSrc := Ok (Some (Some "https://static.example/8k_Y-oVxbuU.png"));
       Profile.spanText := Ok (Some "12 Main St, Chicago") |} ].


(* ===================================================================== *)
(** ** Reasoning about computations *)
(* ===================================================================== *)

(** a closed decidable fact, by evaluation *)
Ltac by_evaluation := apply (bool_decide_unpack _); vm_compute; exact I.


Section Preserves.
Context (I : state -> Prop).

Lemma preserves_ret {A} (a : A) : preserves I (ret a).
Proof. intros s Hs. exact Hs. Qed.

Lemma preserves_await {A} (o : outcome A) : preserves I (await o).
Proof. intros s Hs. exact Hs. Qed.

Lemma preserves_getResult : preserves I getResult.
Proof. intros s Hs. exact Hs. Qed.

Lemma preserves_bind {A B} (m : M A) (k : A -> M B) :
  preserves I m -> (forall a, preserves I (k a)) -> preserves I (bind m k).
Proof.
  intros Hm Hk s Hs. unfold bind. specialize (Hm s Hs).
  destruct (m s) as [[a | e] s']; simpl in *.
  - apply Hk, Hm.
  - exact Hm.
Qed.

(** after [getResult] the continuation runs in the state it read *)
Lemma preserves_read {B} (k : gmap string string -> M B) :
  (forall s, I s -> I (k (result s) s).2) -> preserves I (bind getResult k).
Proof. intros Hk s Hs. unfold bind, getResult. apply Hk, Hs. Qed.

Lemma preserves_bind_at {A B} (m : M A) (k : A -> M B) s :
  I (m s).2 -> (forall a, preserves I (k a)) -> I (bind m k s).2.
Proof.
  intros Hm Hk. unfold bind.
  destruct (m s) as [[a | e] s']; simpl in *.
  - apply Hk, Hm.
  - exact Hm.
Qed.

Lemma preserves_tryCatch {A} (body : M A) (handler : string -> M A) :
  preserves I body -> (forall e, preserves I (handler e)) ->
  preserves I (tryCatch body handler).
Proof.
  intros Hb Hh s Hs. unfold tryCatch. specialize (Hb s Hs).
  destruct (body s) as [[a | e] s']; simpl in *.
  - exact Hb.
  - apply Hh, Hb.
Qed.

Lemma preserves_when (b : bool) (m : M unit) :
  preserves I m -> preserves I (when b m).
Proof. intros Hm. destruct b; [exact Hm | apply preserves_ret]. Qed.

Lemma preserves_forOf {A} (xs : list A) (body : A -> M unit) :
  (forall x, x ∈ xs -> preserves I (body x)) -> preserves I (forOf xs body).
Proof.
  induction xs as [| x xs IH]; intros Hb; simpl.
  - apply preserves_ret.
  - apply preserves_bind.
    + apply Hb. left.
    + intros _. apply IH. intros y Hy. apply Hb. right. exact Hy.
Qed.
End Preserves.

(** [bind] after a step that answered *)
Lemma bind_Ok {A B} (m : M A) (k : A -> M B) s a s' :
  m s = (Ok a, s') -> bind m k s = k a s'.
Proof. intros H. unfold bind. rewrite H. reflexivity. Qed.

Lemma bind_Throws {A B} (m : M A) (k : A -> M B) s e s' :
  m s = (Throws e, s') -> bind m k s = (Throws e, s').
Proof. intros H. unfold bind. rewrite H. reflexivity. Qed.

(* ===================================================================== *)
(** ** The result object of the extractor *)
(* ===================================================================== *)

Module SocialFacts.
Import Social.

#[local] Arguments JS.includes : simpl never.
#[local] Arguments JS.toLowerCase : simpl never.
#[local] Arguments JS.trim : simpl never.
#[local] Arguments JS.splitChar : simpl never.
#[local] Arguments Pattern.exec : simpl never.
#[local] Arguments String.append : simpl never.

Lemma truthy_true s : JS.truthy s = true <-> s <> "".
Proof. destruct s; simpl; split; congruence. Qed.

Lemma truthy_false s : JS.truthy s = false <-> s = "".
Proof. destruct s; simpl; split; congruence. Qed.

Lemma truthyProp_true r k : JS.truthyProp (r !! k) = true <-> resolved r k.
Proof.
  unfold resolved, JS.truthyProp. destruct (r !! k) as [v |]; split.
  - intros H. exists v. split; [reflexivity | apply truthy_true, H].
  - intros (v' & [= <-] & Hv). apply truthy_true, Hv.
  - discriminate.
  - intros (v' & [=] & _).
Qed.

Lemma hasSocialLinks_true r :
  hasSocialLinks r = true <-> exists k, resolved r k.
Proof.
  unfold hasSocialLinks. rewrite existsb_exists. split.
  - intros ([k v] & Hin & Hv). exists k, v. split.
    + apply elem_of_map_to_list, list_elem_of_In, Hin.
    + apply truthy_true, Hv.
  - intros (k & v & Hk & Hv). exists (k, v). split.
    + apply list_elem_of_In, elem_of_map_to_list, Hk.
    + apply truthy_true, Hv.
Qed.

Lemma hasSocialLinks_false r :
  hasSocialLinks r = false <-> forall k, ~ resolved r k.
Proof.
  rewrite <- not_true_iff_false, hasSocialLinks_true. split.
  - intros H k Hk. apply H. exists k. exact Hk.
  - intros H (k & Hk). exact (H k Hk).
Qed.

Section Stable.
Context (R : gmap string string -> Prop) (HR : stable R).

Lemma stable_emit e : preserves (onResult R) (emit e).
Proof. intros s Hs. exact Hs. Qed.

Lemma stable_write s k v :
  k ∈ fieldNames -> JS.truthyProp (result s !! k) = false ->
  onResult R s -> onResult R (setProp k v s).2.
Proof. intros Hk Hf Hs. unfold onResult. simpl. apply HR; assumption. Qed.

Lemma platform_field platform : platform ∈ socialPlatforms -> platform ∈ fieldNames.
Proof. intros H. right. exact H. Qed.

Lemma stable_matchPlatforms lower value :
  preserves (onResult R) (matchPlatforms lower value).
Proof.
  apply preserves_forOf. intros platform Hp.
  apply preserves_read. intros s Hs.
  destruct (JS.truthyProp (result s !! platform)) eqn:Ht; simpl; [exact Hs |].
  destruct (JS.includes _ lower); simpl; [| exact Hs].
  apply stable_write; [apply platform_field, Hp | exact Ht | exact Hs].
Qed.

Lemma contact_field : "contact" ∈ fieldNames.
Proof. left. Qed.

Lemma twitter_field : "twitter" ∈ fieldNames.
Proof. unfold fieldNames, socialPlatforms. set_solver. Qed.

Lemma stable_extractLinksFrom anchors :
  preserves (onResult R) (extractLinksFrom anchors).
Proof.
  apply preserves_bind; [apply preserves_await |]. intros links.
  apply preserves_forOf. intros link _.
  apply preserves_bind; [apply preserves_await |]. intros [[| c href] |];
    try apply preserves_ret.
  apply preserves_bind; [apply stable_matchPlatforms |]. intros _.
  apply preserves_read. intros s Hs.
  destruct (JS.truthyProp (result s !! "contact")) eqn:Ht; simpl; [exact Hs |].
  destruct (JS.includes "/contact" _).
  - apply stable_write; [apply contact_field | exact Ht | exact Hs].
  - unfold bind, await. destruct (a_text link) as [text | e]; simpl; [| exact Hs].
    destruct (JS.includes "contact" _); simpl; [| exact Hs].
    apply stable_write; [apply contact_field | exact Ht | exact Hs].
Qed.

Lemma stable_strategy1 p : preserves (onResult R) (strategy1 p).
Proof.
  apply preserves_bind; [apply stable_emit |]. intros _.
  apply preserves_bind; [apply preserves_await |]. intros header.
  apply preserves_bind; [apply preserves_await |]. intros footer.
  apply preserves_bind.
  - destruct header; [apply stable_extractLinksFrom | apply preserves_ret].
  - intros _. destruct footer; [apply stable_extractLinksFrom | apply preserves_ret].
Qed.

Lemma stable_scanScript script : preserves (onResult R) (scanScript script).
Proof.
  apply preserves_tryCatch; [| intros e; apply preserves_ret].
  apply preserves_bind; [apply preserves_await |]. intros jsonData.
  apply preserves_bind; [apply preserves_await |]. intros direct.
  apply preserves_bind.
  - destruct (_ && _); [| apply preserves_ret].
    destruct (firstItem jsonData); [apply preserves_await | apply preserves_ret].
  - intros sameAs. destruct (jsTruthy sameAs); [| apply preserves_ret].
    apply preserves_forOf. intros link _.
    destruct link; try apply preserves_await. apply stable_matchPlatforms.
Qed.

Lemma stable_strategy2 p : preserves (onResult R) (strategy2 p).
Proof.
  apply preserves_bind; [apply stable_emit |]. intros _.
  apply preserves_bind; [apply preserves_await |]. intros scripts.
  apply preserves_forOf. intros script _. apply stable_scanScript.
Qed.

Lemma stable_strategy3 p : preserves (onResult R) (strategy3 p).
Proof.
  apply preserves_bind; [apply stable_emit |]. intros _.
  apply preserves_bind; [apply preserves_await |]. intros links.
  apply preserves_forOf. intros link _.
  apply preserves_bind; [apply preserves_await |]. intros [[| c href] |];
    try apply preserves_ret.
  apply stable_matchPlatforms.
Qed.

Lemma stable_strategy4 p : preserves (onResult R) (strategy4 p).
Proof.
  apply preserves_bind; [apply stable_emit |]. intros _.
  apply preserves_bind; [apply preserves_await |]. intros twitterSite.
  apply preserves_read. intros s Hs.
  apply preserves_bind_at.
  - destruct twitterSite as [el |]; [| exact Hs].
    destruct (JS.truthyProp (result s !! "twitter")) eqn:Ht; simpl; [exact Hs |].
    unfold bind, await. destruct (m_content el) as [[[| c content] |] | e]; simpl;
      try exact Hs.
    apply stable_write; [apply twitter_field | exact Ht | exact Hs].
  - intros _.
    apply preserves_bind; [apply preserves_await |]. intros [el |];
      [| apply preserves_ret].
    apply preserves_bind; [apply preserves_await |]. intros [[| c content] |];
      try apply preserves_ret.
    apply preserves_forOf. intros link _. apply stable_matchPlatforms.
Qed.

Lemma stable_strategy5 p : preserves (onResult R) (strategy5 p).
Proof.
  apply preserves_bind; [apply preserves_getResult |]. intros r.
  apply preserves_when.
  apply preserves_bind; [apply stable_emit |]. intros _.
  apply stable_extractLinksFrom.
Qed.

Lemma stable_strategy6 p : preserves (onResult R) (strategy6 p).
Proof.
  apply preserves_bind; [apply preserves_getResult |]. intros r.
  apply preserves_when.
  apply preserves_bind; [apply stable_emit |]. intros _.
  apply preserves_bind; [apply preserves_await |]. intros html.
  apply preserves_forOf. intros platform Hp.
  apply preserves_read. intros s Hs.
  destruct (JS.truthyProp (result s !! platform)) eqn:Ht; simpl; [exact Hs |].
  destruct (Pattern.exec platform html) as [m |]; [| exact Hs].
  apply stable_write; [apply platform_field, Hp | exact Ht | exact Hs].
Qed.

Lemma stable_strategies1to4 p : preserves (onResult R) (strategies1to4 p).
Proof.
  apply preserves_bind; [apply stable_strategy1 |]. intros _.
  apply preserves_bind; [apply stable_strategy2 |]. intros _.
  apply preserves_bind; [apply stable_strategy3 |]. intros _.
  apply stable_strategy4.
Qed.

Lemma stable_pass p : preserves (onResult R) (pass p).
Proof.
  apply preserves_bind; [apply stable_strategies1to4 |]. intros _.
  apply preserves_bind; [apply stable_strategy5 |]. intros _.
  apply stable_strategy6.
Qed.

Lemma stable_attempt config browser n :
  preserves (onResult R) (attempt config browser n).
Proof.
  apply preserves_bind; [apply stable_emit |]. intros _.
  apply preserves_tryCatch.
  - apply preserves_bind; [apply stable_pass |]. intros _.
    apply preserves_bind; [apply preserves_getResult |]. intros r.
    apply preserves_bind; [apply stable_emit |]. intros _.
    destruct (_ || _); [apply preserves_ret |].
    apply preserves_bind; [apply stable_emit | intros _; apply preserves_ret].
  - intros e. apply preserves_bind; [apply stable_emit | intros _; apply preserves_ret].
Qed.

Lemma stable_retryLoop config browser fuel :
  forall n s o s',
    retryLoop config browser fuel n s = Some (o, s') ->
    onResult R s -> onResult R s'.
Proof.
  induction fuel as [| fuel IH]; intros n s o s' Hrun Hs; simpl in Hrun;
    destruct (_ && _); try discriminate; try (injection Hrun as <- <-; exact Hs).
  pose proof (stable_attempt config browser (n + 1) s Hs) as Ha.
  destruct (attempt config browser (n + 1) s) as [[[|] | e] s1]; simpl in Ha.
  - injection Hrun as <- <-. exact Ha.
  - eapply IH; eassumption.
  - injection Hrun as <- <-. exact Ha.
Qed.
End Stable.
End SocialFacts.

(* ===================================================================== *)
(** ** The event trace of the extractor *)
(* ===================================================================== *)

Lemma passes_app t1 t2 : passes (t1 ++ t2) = (passes t1 + passes t2)%nat.
Proof. unfold passes. rewrite filter_app, length_app. reflexivity. Qed.

Lemma waits_app t1 t2 : waits (t1 ++ t2) = (waits t1 ++ waits t2)%list.
Proof. unfold waits. apply omap_app. Qed.

Module SocialTrace.
Import Social SocialFacts.

Ltac quiet_step :=
  match goal with
  | |- preserves _ (bind _ _) => apply preserves_bind; [| intros ?]
  | |- preserves _ (ret _) => apply preserves_ret
  | |- preserves _ (await _) => apply preserves_await
  | |- preserves _ getResult => apply preserves_getResult
  | |- preserves _ (when _ _) => apply preserves_when
  | |- preserves _ (forOf _ _) => apply preserves_forOf; intros ? ?
  | |- preserves _ (tryCatch _ _) => apply preserves_tryCatch; [| intros ?]
  | |- preserves _ (setProp _ _) => intros ? ?; assumption
  | |- preserves _ (match ?x with _ => _ end) => destruct x
  end.

Section Trace.
Context (allowed : event -> Prop) (T : list event -> Prop).
Context (HT : closedUnder allowed T).

Lemma trace_emit e : allowed e -> preserves (onTrace T) (emit e).
Proof. intros He s Hs. unfold onTrace. simpl. apply HT; assumption. Qed.

Lemma trace_matchPlatforms lower value :
  preserves (onTrace T) (matchPlatforms lower value).
Proof. unfold matchPlatforms. repeat quiet_step. Qed.

Lemma trace_extractLinksFrom anchors :
  preserves (onTrace T) (extractLinksFrom anchors).
Proof.
  unfold extractLinksFrom. repeat quiet_step; apply trace_matchPlatforms.
Qed.

Lemma trace_scanScript script : preserves (onTrace T) (scanScript script).
Proof.
  unfold scanScript. repeat quiet_step; apply trace_matchPlatforms.
Qed.

Context (Henter : forall k, allowed (Enter k)).

Lemma trace_strategy1 p : preserves (onTrace T) (strategy1 p).
Proof.
  unfold strategy1. repeat quiet_step;
    first [apply trace_emit, Henter | apply trace_extractLinksFrom].
Qed.

Lemma trace_strategy2 p : preserves (onTrace T) (strategy2 p).
Proof.
  unfold strategy2. repeat quiet_step;
    first [apply trace_emit, Henter | apply trace_scanScript].
Qed.

Lemma trace_strategy3 p : preserves (onTrace T) (strategy3 p).
Proof.
  unfold strategy3. repeat quiet_step;
    first [apply trace_emit, Henter | apply trace_matchPlatforms].
Qed.

Lemma trace_strategy4 p : preserves (onTrace T) (strategy4 p).
Proof.
  unfold strategy4. repeat quiet_step;
    first [apply trace_emit, Henter | apply trace_matchPlatforms].
Qed.

Lemma trace_strategy5 p : preserves (onTrace T) (strategy5 p).
Proof.
  unfold strategy5. repeat quiet_step;
    first [apply trace_emit, Henter | apply trace_extractLinksFrom].
Qed.

Lemma trace_strategy6 p : preserves (onTrace T) (strategy6 p).
Proof.
  unfold strategy6. repeat quiet_step. apply trace_emit, Henter.
Qed.

Lemma trace_pass p : preserves (onTrace T) (pass p).
Proof.
  unfold pass, strategies1to4. repeat quiet_step;
    auto using trace_strategy1, trace_strategy2, trace_strategy3,
               trace_strategy4, trace_strategy5, trace_strategy6.
Qed.
End Trace.

Lemma tailEvent_loopEvent e : tailEvent e -> loopEvent e.
Proof. destruct e; simpl; tauto. Qed.

Lemma tailEvent_passes es : Forall tailEvent es -> passes es = 0%nat.
Proof.
  induction 1 as [| e es He _ IH]; [reflexivity |].
  change (e :: es) with ([e] ++ es). rewrite passes_app, IH.
  destruct e; simpl in He; try contradiction; reflexivity.
Qed.

Section Attempt.
Variable config : Config.
Variable browser : Browser.

(** an attempt never throws: its [catch] answers for its [try] *)
Lemma attempt_answers n s : exists b, (attempt config browser n s).1 = Ok b.
Proof.
  unfold attempt, bind, emit, tryCatch, getResult, ret.
  destruct (pass _ _) as [[[] | e] s1]; simpl.
  - destruct (_ || _); simpl; eauto.
  - eauto.
Qed.

(** a pass that throws: the error is logged, what was found before the
    throw stays, and the loop is not left *)
Lemma attempt_caught n s e s2 :
  pass (rendered browser n) (announced n s) = (Throws e, s2) ->
  attempt config browser n s
  = (Ok false, {| result := result s2; trace := trace s2 ++ [LogError n e] |}).
Proof.
  intros Hp. unfold attempt, bind, emit, tryCatch. simpl.
  fold (announced n s). rewrite Hp. reflexivity.
Qed.

(** a pass that does not throw: the result is logged; the loop is left
    when a link was found or the attempts are used up, else it waits *)
Lemma attempt_passed n s s2 :
  pass (rendered browser n) (announced n s) = (Ok tt, s2) ->
  attempt config browser n s
  = if hasSocialLinks (result s2) || (n >=? c_maxRetries config)
    then (Ok true, {| result := result s2;
                      trace := trace s2 ++ [LogResult (result s2)] |})
    else (Ok false, {| result := result s2;
                       trace := (trace s2 ++ [LogResult (result s2)])
                                ++ [WaitForTimeout 1000] |}).
Proof.
  intros Hp. unfold attempt, bind, emit, tryCatch, getResult. simpl.
  fold (announced n s). rewrite Hp. simpl.
  destruct (_ || _); reflexivity.
Qed.

Lemma attempt_result n s :
  result (attempt config browser n s).2
  = result (pass (rendered browser n) (announced n s)).2.
Proof.
  destruct (pass (rendered browser n) (announced n s)) as [[[] | e] s2] eqn:Hp.
  - rewrite (attempt_passed _ _ _ Hp). destruct (_ || _); reflexivity.
  - rewrite (attempt_caught _ _ _ _ Hp). reflexivity.
Qed.

Lemma attempt_break n s s' :
  attempt config browser n s = (Ok true, s') ->
  hasSocialLinks (result s') = true \/ c_maxRetries config <= n.
Proof.
  destruct (pass (rendered browser n) (announced n s)) as [[[] | e] s2] eqn:Hp.
  - rewrite (attempt_passed _ _ _ Hp).
    destruct (hasSocialLinks (result s2)) eqn:Hh; simpl.
    + intros [= <-]. left. exact Hh.
    + destruct (Z.geb_spec n (c_maxRetries config)); intros [= <-].
      right. lia.
  - rewrite (attempt_caught _ _ _ _ Hp). discriminate.
Qed.

Lemma attempt_emits n s :
  exists es, trace (attempt config browser n s).2
             = trace s ++ LogAttempt n :: es
             /\ Forall tailEvent es.
Proof.
  set (T := fun t => exists es, t = trace (announced n s) ++ es
                                /\ Forall tailEvent es).
  assert (HT : closedUnder tailEvent T).
  { intros t e He (es & -> & Hes). exists (es ++ [e]). split.
    - rewrite app_assoc. reflexivity.
    - apply Forall_app. split; [exact Hes | constructor; [exact He | constructor]]. }
  assert (H : onTrace T (attempt config browser n s).2).
  { unfold attempt, bind at 1. simpl. fold (announced n s).
    apply (preserves_tryCatch (onTrace T)).
    - repeat quiet_step;
        first [ apply (trace_pass tailEvent T HT); intros k; exact I
              | apply (trace_emit tailEvent T HT); exact I
              | apply (trace_emit tailEvent T HT); reflexivity ].
    - intros e. repeat quiet_step. apply (trace_emit tailEvent T HT). exact I.
    - exists []. split; [rewrite app_nil_r; reflexivity | constructor]. }
  destruct H as (es & Hes & Hall). exists es. split; [| exact Hall].
  rewrite Hes. simpl. rewrite <- app_assoc. reflexivity.
Qed.

Local Abbreviation N := (c_maxRetries config).

(** the loop: it never throws, adds only loop events, makes at most the
    remaining number of passes, and all of them if it ends with nothing
    found *)
Lemma retryLoop_spec fuel :
  forall n s o s',
    retryLoop config browser fuel n s = Some (o, s') ->
    o = Ok tt
    /\ exists es, trace s' = trace s ++ es
                  /\ Forall loopEvent es
                  /\ (passes es <= Z.to_nat (N - n))%nat
                  /\ (hasSocialLinks (result s') = false ->
                      passes es = Z.to_nat (N - n)).
Proof.
  induction fuel as [| fuel IH]; intros n s o s'; simpl;
    destruct (Z.ltb_spec n N) as [Hlt | Hge]; simpl;
    destruct (hasSocialLinks (result s)) eqn:Hh; simpl; intros Hrun;
    try discriminate;
    try (injection Hrun as <- <-; split; [reflexivity |];
         exists []; rewrite app_nil_r;
         split; [reflexivity |]; split; [constructor |];
         change (passes []) with 0%nat;
         split; [lia | intros Hf; first [lia | congruence]]).
  destruct (attempt_answers (n + 1) s) as [b Hb].
  destruct (attempt_emits (n + 1) s) as (es1 & Hes1 & Hall1).
  destruct (attempt config browser (n + 1) s) as [o1 s1] eqn:Ha.
  simpl in Hb, Hes1. subst o1.
  assert (Hp1 : passes (LogAttempt (n + 1) :: es1) = 1%nat).
  { change (LogAttempt (n + 1) :: es1) with ([LogAttempt (n + 1)] ++ es1).
    rewrite passes_app, (tailEvent_passes _ Hall1). reflexivity. }
  assert (Hl1 : Forall loopEvent (LogAttempt (n + 1) :: es1)).
  { constructor; [exact I |]. eapply Forall_impl; [exact Hall1 |].
    apply tailEvent_loopEvent. }
  destruct b.
  - injection Hrun as <- <-. split; [reflexivity |].
    exists (LogAttempt (n + 1) :: es1).
    split; [assumption |]. split; [assumption |]. split.
    + rewrite Hp1. lia.
    + intros Hf. rewrite Hp1.
      destruct (attempt_break _ _ _ Ha) as [Ht | Hmax]; [congruence | lia].
  - destruct (IH _ _ _ _ Hrun) as (-> & es2 & Hes2 & Hall2 & Hle & Hex).
    split; [reflexivity |].
    exists ((LogAttempt (n + 1) :: es1) ++ es2).
    split; [| split; [| split]].
    + rewrite Hes2, Hes1, <- app_assoc. reflexivity.
    + apply Forall_app. split; assumption.
    + rewrite passes_app, Hp1. lia.
    + intros Hf. rewrite passes_app, Hp1, (Hex Hf). lia.
Qed.

(** the fuel the invocation gives to the loop suffices *)
Lemma retryLoop_total fuel :
  forall n s,
    (Z.to_nat (N - n) <= fuel)%nat ->
    exists s', retryLoop config browser fuel n s = Some (Ok tt, s').
Proof.
  induction fuel as [| fuel IH]; intros n s Hfuel; simpl;
    destruct (Z.ltb_spec n N) as [Hlt | Hge]; simpl;
    destruct (hasSocialLinks (result s)) eqn:Hh; simpl; eauto; try lia.
  destruct (attempt_answers (n + 1) s) as [b Hb].
  destruct (attempt config browser (n + 1) s) as [o1 s1]. simpl in Hb. subst o1.
  destruct b; [eauto |]. apply IH. lia.
Qed.
End Attempt.
End SocialTrace.

(* ===================================================================== *)
(** ** The retry loop of the Facebook profile scraper *)
(* ===================================================================== *)

Module FacebookFacts.
Import Facebook.

(** the stop test of the attempt, read on the profile object *)
Lemma foundAny_resolved f :
  foundAny f = true <-> exists k, resolved (profileObject f) k.
Proof.
  assert (Hkey : forall k v,
             profileObject f !! k = Some v ->
             In v [pageName f; pageLikes f; pageFollowers f; phone f;
                   email f; address f; website f; category f]).
  { intros k v. unfold profileObject.
    repeat match goal with
           | |- <[?k' := _]> _ !! k = Some v -> _ =>
               destruct (decide (k = k')) as [-> | ?];
               [rewrite lookup_insert_eq; intros [= <-]; simpl; tauto
               | rewrite lookup_insert_ne by congruence]
           end.
    destruct (decide (k = "category")) as [-> | ?].
    - rewrite lookup_singleton_eq. intros [= <-]. simpl. tauto.
    - rewrite lookup_singleton_ne by congruence. discriminate. }
  unfold foundAny. rewrite existsb_exists. split.
  - intros (v & Hin & Hv). apply SocialFacts.truthy_true in Hv.
    simpl in Hin.
    destruct Hin as [<- | [<- | [<- | [<- | [<- | [<- | [<- | [<- | []]]]]]]]];
      [exists "pageName" | exists "pageLikes" | exists "pageFollowers" | exists "phone"
       | exists "email" | exists "address" | exists "website" | exists "category"];
      (eexists; split; [reflexivity | exact Hv]).
  - intros (k & v & Hk & Hv). exists v. split; [exact (Hkey k v Hk) |].
    apply SocialFacts.truthy_true, Hv.
Qed.

Lemma foundAny_unresolved f : foundAny f = false <-> unresolved (profileObject f).
Proof.
  rewrite <- not_true_iff_false, foundAny_resolved. unfold unresolved. split.
  - intros H k Hk. apply H. exists k. exact Hk.
  - intros H (k & Hk). exact (H k Hk).
Qed.

Section Loop.
Variable config : Config.
Variable browser : Browser.
Local Abbreviation N := (c_maxRetries config).

(** the events of one attempt: its line, and the error line of a query
    that threw *)
Lemma attempted_events n tr :
  exists mid, attempted browser n tr = tr ++ LogAttempt n :: mid
              /\ Forall fbLoopEvent mid /\ passes mid = 0%nat /\ waits mid = [].
Proof.
  unfold attempted. destruct (gathered browser n) as [f | e].
  - exists []. repeat split. constructor.
  - exists [LogError n e]. split; [reflexivity |].
    split; [repeat constructor | split; reflexivity].
Qed.

Lemma foundAt_gathered n info :
  foundAt browser n = Some info ->
  exists f, gathered browser n = Ok f /\ foundAny f = true /\ info = profileObject f.
Proof.
  unfold foundAt. destruct (gathered browser n) as [f | e]; [| discriminate].
  destruct (foundAny f) eqn:Hf; [| discriminate]. intros [= <-]. eauto.
Qed.

(** the loop: it adds only loop events, makes at most the remaining
    number of attempts, and all of them if it ends with nothing found; it
    throws only what a wait threw *)
Lemma fb_retryLoop_spec fuel :
  forall n tr o tr',
    retryLoop config browser fuel n None tr = Some (o, tr') ->
    exists es, tr' = tr ++ es
               /\ Forall fbLoopEvent es
               /\ (passes es <= Z.to_nat (N - n))%nat
               /\ (o = Ok None -> passes es = Z.to_nat (N - n))
               /\ (forall info, o = Ok (Some info) ->
                     exists k f, gathered browser k = Ok f
                                 /\ foundAny f = true /\ info = profileObject f)
               /\ (forall e, o = Throws e ->
                     exists k, waitForTimeout browser k = Throws e).
Proof.
  induction fuel as [| fuel IH]; intros n tr o tr'; simpl;
    destruct (Z.ltb_spec n N) as [Hlt | Hge]; simpl; intros Hrun;
    try discriminate;
    try (injection Hrun as <- <-; exists []; rewrite app_nil_r;
         change (passes []) with 0%nat;
         split; [reflexivity |]; split; [constructor |];
         split; [lia |]; split; [intros _; lia |];
         split; [intros info; discriminate | intros e; discriminate]).
  destruct (attempted_events (n + 1) tr) as (mid & Hmid & Hall & Hp & _).
  assert (Hblock : forall rest, passes (LogAttempt (n + 1) :: mid ++ rest)
                                = S (passes rest)).
  { intros rest. change (LogAttempt (n + 1) :: mid ++ rest)
      with ([LogAttempt (n + 1)] ++ mid ++ rest).
    rewrite !passes_app, Hp. reflexivity. }
  destruct (foundAt browser (n + 1)) as [info |] eqn:Hfound.
  - injection Hrun as <- <-. exists (LogAttempt (n + 1) :: mid).
    split; [exact Hmid |]. split; [constructor; [exact I | exact Hall] |].
    rewrite <- (app_nil_r mid), Hblock. change (passes []) with 0%nat.
    split; [lia |]. split; [discriminate |].
    split; [| intros e; discriminate].
    intros info' [= <-]. destruct (foundAt_gathered _ _ Hfound) as (f & Hg & Hf & ->).
    eauto.
  - destruct (waitForTimeout browser (n + 1)) as [[] | ew] eqn:Hw.
    + destruct (IH _ _ _ _ Hrun) as (es & -> & Halles & Hle & Hex & Hsome & Hthrow).
      exists (LogAttempt (n + 1) :: mid ++ WaitForTimeout 1000 :: es).
      split; [rewrite Hmid, <- !app_assoc; reflexivity |].
      split; [constructor; [exact I |]; apply Forall_app; split;
              [exact Hall | constructor; [reflexivity | exact Halles]] |].
      rewrite Hblock. change (WaitForTimeout 1000 :: es) with ([WaitForTimeout 1000] ++ es).
      rewrite passes_app. change (passes [WaitForTimeout 1000]) with 0%nat.
      split; [lia |]. split; [intros Hi; rewrite (Hex Hi); lia |].
      split; assumption.
    + injection Hrun as <- <-. exists (LogAttempt (n + 1) :: mid ++ [WaitForTimeout 1000]).
      split; [rewrite Hmid, <- !app_assoc; reflexivity |].
      split; [constructor; [exact I |]; apply Forall_app; split;
              [exact Hall | repeat constructor] |].
      rewrite Hblock. change (passes [WaitForTimeout 1000]) with 0%nat.
      split; [lia |]. split; [discriminate |]. split; [intros info; discriminate |].
      intros e [= <-]. eauto.
Qed.

Lemma fb_retryLoop_total fuel :
  forall n tr,
    (Z.to_nat (N - n) <= fuel)%nat ->
    exists o tr', retryLoop config browser fuel n None tr = Some (o, tr').
Proof.
  induction fuel as [| fuel IH]; intros n tr Hfuel; simpl;
    destruct (Z.ltb_spec n N) as [Hlt | Hge]; simpl; eauto; try lia.
  destruct (foundAt browser (n + 1)); [eauto |].
  destruct (waitForTimeout browser (n + 1)) as [[] | e]; [| eauto].
  apply IH. lia.
Qed.

(** a first attempt that finds something ends the loop *)
Lemma fb_retryLoop_first fuel f :
  1 <= N -> gathered browser 1 = Ok f -> foundAny f = true ->
  retryLoop config browser (S fuel) 0 None []
  = Some (Ok (Some (profileObject f)), [LogAttempt 1]).
Proof.
  intros HN Hg Hf. cbn [retryLoop].
  replace (0 <? N) with true by (symmetry; apply Z.ltb_lt; lia).
  change (0 + 1) with 1. unfold foundAt, attempted. rewrite Hg, Hf. reflexivity.
Qed.

(** the loop when no attempt finds anything and every wait returns *)
Lemma fb_retryLoop_none fuel :
  (forall k f, gathered browser k = Ok f -> foundAny f = false) ->
  (forall k, waitForTimeout browser k = Ok tt) ->
  forall n tr o tr',
    retryLoop config browser fuel n None tr = Some (o, tr') -> o = Ok None.
Proof.
  intros Hnone Hwaits. induction fuel as [| fuel IH]; intros n tr o tr'; simpl;
    destruct (Z.ltb_spec n N) as [Hlt | Hge]; simpl; intros Hrun;
    try discriminate; try (injection Hrun as <- <-; reflexivity).
  destruct (foundAt browser (n + 1)) as [info |] eqn:Hfound.
  - destruct (foundAt_gathered _ _ Hfound) as (f & Hg & Hf & _).
    rewrite (Hnone _ _ Hg) in Hf. discriminate.
  - rewrite Hwaits in Hrun. exact (IH _ _ _ _ Hrun).
Qed.
End Loop.

End FacebookFacts.

(* ===================================================================== *)
(** ** The invocation of the extractor as a whole *)
(* ===================================================================== *)

Module SocialRun.
Import Social SocialFacts SocialTrace.

Lemma initialResult_dom : dom initialResult = fieldSet.
Proof. by_evaluation. Qed.

Lemma fieldSet_names :
  fieldSet = {[ "facebook"; "instagram"; "twitter"; "youtube"; "linkedin"; "contact" ]}.
Proof. by_evaluation. Qed.

(** writing the empty string to the twitter field of the fresh record
    changes nothing *)
Lemma initialResult_twitter : <["twitter" := ""]> initialResult = initialResult.
Proof. by_evaluation. Qed.

Lemma initialResult_unresolved : hasSocialLinks initialResult = false.
Proof. vm_compute. reflexivity. Qed.

Lemma error_not_field : "error" ∉ fieldSet.
Proof.
  intros H. apply elem_of_list_to_set, list_elem_of_In in H.
  simpl in H. intuition discriminate.
Qed.

(** the set of property names is a stable property of the result *)
Lemma dom_stable : stable (fun r => dom r = fieldSet).
Proof.
  intros r k v Hk _ Hr. rewrite dom_insert_L, Hr.
  apply subseteq_union_1_L, singleton_subseteq_l, elem_of_list_to_set, Hk.
Qed.

(** so is the value of a resolved field, and of a name that is no field *)
Lemma lookup_stable k o :
  JS.truthyProp o = true \/ k ∉ fieldNames ->
  stable (fun r => r !! k = o).
Proof.
  intros Hk r k' v Hk' Hf Hr.
  rewrite lookup_insert_ne; [exact Hr |].
  intros ->. destruct Hk as [Ht | Hn]; [| exact (Hn Hk')].
  rewrite Hr in Hf. congruence.
Qed.



Section Run.
Variables (targetUrl : string) (options : Options) (browser : Browser).
Local Abbreviation config := (mkConfig options).
Local Abbreviation N := (c_maxRetries (mkConfig options)).
Local Abbreviation url := (normalizeUrl targetUrl).

(** after a navigation that succeeded the invocation returns the
    result object the loop ends with *)
Lemma run_navigated :
  goto browser url (c_timeout config) = Ok tt ->
  exists s',
    retryLoop config browser (Z.to_nat N) 0 initialState = Some (Ok tt, s')
    /\ extractSocialLinks targetUrl options browser = Some (result s', trace s').
Proof.
  intros Hgo.
  destruct (retryLoop_total config browser (Z.to_nat N) 0 initialState) as [s' Hs'];
    [rewrite Z.sub_0_r; lia |].
  exists s'. split; [exact Hs' |].
  unfold extractSocialLinks. rewrite Hgo, Hs'. reflexivity.
Qed.

Lemma run_failed e :
  goto browser url (c_timeout config) = Throws e ->
  extractSocialLinks targetUrl options browser = Some (errorRecord e url, []).
Proof. intros Hgo. unfold extractSocialLinks. rewrite Hgo. reflexivity. Qed.

(** a first pass that finds a link is the only pass *)
Lemma run_first_complete s' :
  1 <= N ->
  hasSocialLinks (result (pass (rendered browser 1) (announced 1 initialState)).2) = true ->
  retryLoop config browser (Z.to_nat N) 0 initialState = Some (Ok tt, s') ->
  passes (trace s') = 1%nat.
Proof.
  intros HN Hfound.
  destruct (Z.to_nat N) as [| fuel] eqn:Hfuel; [lia |].
  cbn [retryLoop]. change (result initialState) with initialResult.
  rewrite initialResult_unresolved.
  replace (0 <? N) with true by (symmetry; apply Z.ltb_lt; lia).
  change (0 + 1) with 1. cbn [andb negb].
  destruct (attempt_answers config browser 1 initialState) as [b Hb].
  destruct (attempt_emits config browser 1 initialState) as (es & Hes & Hall).
  pose proof (attempt_result config browser 1 initialState) as Hres.
  destruct (attempt config browser 1 initialState) as [o1 s1].
  simpl in Hb, Hes, Hres. subst o1.
  assert (Hp : passes (trace s1) = 1%nat).
  { rewrite Hes. change (passes (LogAttempt 1 :: es)) with (passes ([LogAttempt 1] ++ es)).
    rewrite passes_app, (tailEvent_passes _ Hall). reflexivity. }
  destruct b.
  - intros [= <-]. exact Hp.
  - destruct fuel as [| fuel']; cbn [retryLoop];
      rewrite Hres, Hfound, andb_false_r; intros [= <-]; exact Hp.
Qed.

(** and its record is the one returned *)
Lemma run_first_result s' :
  1 <= N ->
  hasSocialLinks (result (pass (rendered browser 1) (announced 1 initialState)).2) = true ->
  retryLoop config browser (Z.to_nat N) 0 initialState = Some (Ok tt, s') ->
  result s' = result (pass (rendered browser 1) (announced 1 initialState)).2.
Proof.
  intros HN Hfound.
  destruct (Z.to_nat N) as [| fuel] eqn:Hfuel; [lia |].
  cbn [retryLoop]. change (result initialState) with initialResult.
  rewrite initialResult_unresolved.
  replace (0 <? N) with true by (symmetry; apply Z.ltb_lt; lia).
  change (0 + 1) with 1. cbn [andb negb].
  destruct (attempt_answers config browser 1 initialState) as [b Hb].
  pose proof (attempt_result config browser 1 initialState) as Hres.
  destruct (attempt config browser 1 initialState) as [o1 s1].
  simpl in Hb, Hres. subst o1.
  destruct b.
  - intros [= <-]. exact Hres.
  - destruct fuel as [| fuel']; cbn [retryLoop];
      rewrite Hres, Hfound, andb_false_r; intros [= <-]; exact Hres.
Qed.
End Run.
End SocialRun.

(* ===================================================================== *)
(** ** The scrapers always return *)
(* ===================================================================== *)

Import Social SocialFacts SocialTrace SocialRun.

Lemma run_parts (run : option (gmap string string * list event)) r tr :
  run = Some (r, tr) -> returned run = r /\ logged run = tr.
Proof. intros ->. split; reflexivity. Qed.

Lemma extractSocialLinks_returns targetUrl options browser :
  exists r tr,
    extractSocialLinks targetUrl options browser = Some (r, tr)
    /\ Forall loopEvent tr
    /\ (passes tr <= Z.to_nat (c_maxRetries (mkConfig options)))%nat.
Proof.
  destruct (goto browser (normalizeUrl targetUrl) (c_timeout (mkConfig options)))
    as [[] | e] eqn:Hgo.
  - destruct (run_navigated targetUrl options browser Hgo) as (s' & Hloop & Hrun).
    destruct (retryLoop_spec _ _ _ _ _ _ _ Hloop) as (_ & es & Hes & Hall & Hle & _).
    simpl in Hes. subst es. rewrite Z.sub_0_r in Hle. eauto 6.
  - rewrite (run_failed targetUrl options browser e Hgo).
    exists (errorRecord e (normalizeUrl targetUrl)), [].
    split; [reflexivity |]. split; [constructor |]. change (passes []) with 0%nat. lia.
Qed.

Lemma scrapeFacebookProfile_returns facebookUrl options browser :
  exists r tr,
    Facebook.scrapeFacebookProfile facebookUrl options browser = Some (r, tr)
    /\ Forall (fun e => fbLoopEvent e \/ e = LogCaptcha) tr
    /\ (passes tr <= Z.to_nat (Facebook.c_maxRetries (Facebook.mkConfig options)))%nat.
Proof.
  unfold Facebook.scrapeFacebookProfile.
  destruct (Facebook.goto _ _ _) as [[] | e];
    [| eexists _, []; split; [reflexivity |]; split; [constructor |];
       change (passes []) with 0%nat; lia].
  destruct (Facebook.captchaCheck browser) as [[|] | e].
  - eexists _, [LogCaptcha]. split; [reflexivity |].
    split; [repeat constructor; right; reflexivity |].
    change (passes [LogCaptcha]) with 0%nat. lia.
  - destruct (FacebookFacts.fb_retryLoop_total (Facebook.mkConfig options) browser
                (Z.to_nat (Facebook.c_maxRetries (Facebook.mkConfig options))) 0 [])
      as (info & tr & Hloop); [rewrite Z.sub_0_r; lia |].
    rewrite Hloop.
    destruct (FacebookFacts.fb_retryLoop_spec _ _ _ _ _ _ _ Hloop)
      as (es & Hes & Hall & Hle & _).
    simpl in Hes. subst es. rewrite Z.sub_0_r in Hle.
    assert (Forall (fun e => fbLoopEvent e \/ e = LogCaptcha) tr)
      by (eapply Forall_impl; [exact Hall | intros; left; assumption]).
    destruct info as [[info |] | e]; eauto 6.
  - eexists _, []. split; [reflexivity |]. split; [constructor |].
    change (passes []) with 0%nat. lia.
Qed.



(* ===================================================================== *)
(** ** Result shape *)
(* ===================================================================== *)

(** C10. Whatever the pages answer or throw, the extractor returns an
    object. After a navigation that succeeded it has exactly the six
    properties facebook, instagram, twitter, youtube, linkedin and contact
    (each a string, by the type of the object) and no error property; the
    record with error and url is returned exactly when the navigation
    failed. *)
Theorem C10_result_shape (targetUrl : string) (options : Options)
        (browser : Browser) :
  exists r tr,
    extractSocialLinks targetUrl options browser = Some (r, tr)
    /\ match goto browser (normalizeUrl targetUrl) (c_timeout (mkConfig options)) with
       | Ok _ =>
           dom r = {[ "facebook"; "instagram"; "twitter"; "youtube";
                      "linkedin"; "contact" ]}
           /\ r !! "error" = None
       | Throws e => r = errorRecord e (normalizeUrl targetUrl)
       end.
Proof.
  destruct (goto browser (normalizeUrl targetUrl) (c_timeout (mkConfig options)))
    as [[] | e] eqn:Hgo.
  - destruct (run_navigated targetUrl options browser Hgo) as (s' & Hloop & Hrun).
    exists (result s'), (trace s'). split; [exact Hrun |].
    assert (Hdom : dom (result s') = fieldSet).
    { apply (stable_retryLoop _ dom_stable _ _ _ _ _ _ _ Hloop).
      exact initialResult_dom. }
    split.
    + rewrite Hdom. exact fieldSet_names.
    + apply not_elem_of_dom. rewrite Hdom. exact error_not_field.
  - exists (errorRecord e (normalizeUrl targetUrl)), [].
    split; [apply run_failed, Hgo | reflexivity].
Qed.

(* ===================================================================== *)
(** ** Retry bound *)
(* ===================================================================== *)

(** the strategies of a pass add only their ghost events to the trace *)
Lemma pass_emits p s :
  exists es, trace (pass p s).2 = trace s ++ es /\ Forall passEvent es.
Proof.
  set (T := fun t => exists es, t = trace s ++ es /\ Forall passEvent es).
  assert (HT : closedUnder passEvent T).
  { intros t e He (es & -> & Hes). exists (es ++ [e]). split.
    - rewrite app_assoc. reflexivity.
    - apply Forall_app. split; [exact Hes | constructor; [exact He | constructor]]. }
  apply (trace_pass passEvent T HT (fun _ => I) p s).
  exists []. split; [rewrite app_nil_r; reflexivity | constructor].
Qed.

Lemma passEvent_passes es : Forall passEvent es -> passes es = 0%nat.
Proof.
  induction 1 as [| e es He _ IH]; [reflexivity |].
  destruct e; simpl in He; try contradiction. exact IH.
Qed.

Lemma passEvent_waits es : Forall passEvent es -> waits es = [].
Proof.
  induction 1 as [| e es He _ IH]; [reflexivity |].
  destruct e; simpl in He; try contradiction. exact IH.
Qed.

Lemma emptyFields_unresolved : unresolved (Facebook.profileObject Facebook.emptyFields).
Proof. apply FacebookFacts.foundAny_unresolved. reflexivity. Qed.

(** C3, as the specification states it, fails for the Facebook scraper:
    with one attempt allowed, the attempt gathers nothing, the attempts are
    used up, and the wait that follows, which stands outside the [try] of
    the attempt, throws; the scraper returns the error record. *)
Lemma C3_rejected_wait_counterexample :
  Facebook.goto closingProfile (Facebook.normalizeUrl "facebook.com/acme")
    (Facebook.c_timeout (Facebook.mkConfig (Examples.fbMaxRetries 1 None))) = Ok tt
  /\ Facebook.captchaCheck closingProfile = Ok false
  /\ nothingGathered closingProfile
  /\ exists r tr,
      Facebook.scrapeFacebookProfile "facebook.com/acme" (Examples.fbMaxRetries 1 None)
                                     closingProfile = Some (r, tr)
      /\ tr = [LogAttempt 1; WaitForTimeout 1000]
      /\ passes tr = Z.to_nat (Facebook.c_maxRetries
                                 (Facebook.mkConfig (Examples.fbMaxRetries 1 None)))
      /\ r !! "error" = Some "Target page, context or browser has been closed"
      /\ r !! "pageName" = None.
Proof.
  split; [reflexivity |]. split; [reflexivity |]. split.
  - intros k f [= <-]. exact emptyFields_unresolved.
  - destruct (scrapeFacebookProfile_returns "facebook.com/acme" (Examples.fbMaxRetries 1 None)
                closingProfile) as (r & tr & Hrun & _).
    exists r, tr. split; [exact Hrun |].
    destruct (run_parts _ _ _ Hrun) as [<- <-].
    split; [| split; [| split]]; vm_compute; reflexivity.
Qed.

(** C3, amended. With [maxRetries = N] the extractor and the Facebook
    scraper make at most [N] passes, and exactly one, whose record they
    return, when the first pass resolves a field, whichever, so also when
    it resolves them all. The extractor returns a record without error
    property in any case, after all [N] passes when no field is resolved
    in it. The Facebook scraper, when no attempt gathers anything, makes
    all [N] attempts and returns the profile with every value empty,
    provided every wait returns. *)
Theorem C3_retry_bound
        (targetUrl : string) (options : Options) (browser : Browser)
        (facebookUrl : string) (fbOptions : Facebook.Options)
        (fbBrowser : Facebook.Browser) :
  goto browser (normalizeUrl targetUrl) (c_timeout (mkConfig options)) = Ok tt ->
  Facebook.goto fbBrowser (Facebook.normalizeUrl facebookUrl)
                (Facebook.c_timeout (Facebook.mkConfig fbOptions)) = Ok tt ->
  Facebook.captchaCheck fbBrowser = Ok false ->
  socialRetryBound targetUrl options browser
  /\ facebookRetryBound facebookUrl fbOptions fbBrowser.
Proof.
  intros Hgo Hfbgo Hcheck. split.
  - destruct (run_navigated targetUrl options browser Hgo) as (s' & Hloop & Hrun).
    exists (result s'), (trace s'). split; [exact Hrun |].
    destruct (retryLoop_spec _ _ _ _ _ _ _ Hloop) as (_ & es & Hes & _ & Hle & Hex).
    simpl in Hes. subst es. rewrite Z.sub_0_r in Hle, Hex.
    split; [exact Hle |]. split; [| split].
    + intros HN Hfound. apply hasSocialLinks_true in Hfound.
      split; [exact (run_first_complete _ _ _ HN Hfound Hloop)
             | exact (run_first_result _ _ _ HN Hfound Hloop)].
    + apply not_elem_of_dom.
      rewrite (stable_retryLoop _ dom_stable _ _ _ _ _ _ _ Hloop initialResult_dom).
      exact error_not_field.
    + intros Hnone. apply Hex, hasSocialLinks_false, Hnone.
  - unfold facebookRetryBound, Facebook.scrapeFacebookProfile. rewrite Hfbgo, Hcheck.
    set (fbN := Facebook.c_maxRetries (Facebook.mkConfig fbOptions)).
    destruct (FacebookFacts.fb_retryLoop_total (Facebook.mkConfig fbOptions) fbBrowser
                (Z.to_nat fbN) 0 []) as (o & tr & Hloop);
      [rewrite Z.sub_0_r; lia |].
    destruct (FacebookFacts.fb_retryLoop_spec _ _ _ _ _ _ _ Hloop)
      as (es & Hes & _ & Hle & Hex & _).
    simpl in Hes. subst es. fold fbN in Hle, Hex. rewrite Z.sub_0_r in Hle, Hex.
    assert (Hfirst : forall f, 1 <= fbN -> Facebook.gathered fbBrowser 1 = Ok f ->
                               (exists k, resolved (Facebook.profileObject f) k) ->
                               o = Ok (Some (Facebook.profileObject f))
                               /\ tr = [LogAttempt 1]).
    { intros f HN Hg Hf. apply FacebookFacts.foundAny_resolved in Hf.
      destruct (Z.to_nat fbN) as [| fuel] eqn:Hfuel; [lia |].
      rewrite (FacebookFacts.fb_retryLoop_first _ _ fuel f HN Hg Hf) in Hloop.
      injection Hloop as <- <-. split; reflexivity. }
    assert (Hnone : nothingGathered fbBrowser -> waitsReturn fbBrowser -> o = Ok None).
    { intros Hn Hw.
      refine (FacebookFacts.fb_retryLoop_none _ _ _ _ Hw _ _ _ _ Hloop).
      intros k f Hg. apply FacebookFacts.foundAny_unresolved, (Hn k f Hg). }
    rewrite Hloop.
    assert (Hshape : exists r,
               match o with
               | Ok (Some info) => Some (info, tr)
               | Ok None => Some (Facebook.profileObject Facebook.emptyFields, tr)
               | Throws e => Some (errorRecord e (Facebook.normalizeUrl facebookUrl), tr)
               end = Some (r, tr)
               /\ (forall info, o = Ok (Some info) -> r = info)
               /\ (o = Ok None -> r = Facebook.profileObject Facebook.emptyFields))
      by (destruct o as [[info |] | e]; eexists; (split; [reflexivity |]);
          split; congruence).
    destruct Hshape as (r & Hr & Hsome & Hempty).
    exists r, tr. split; [exact Hr |]. split; [exact Hle |]. split.
    + intros f HN Hg Hf. destruct (Hfirst f HN Hg Hf) as [Ho ->].
      split; [reflexivity | exact (Hsome _ Ho)].
    + intros Hn Hw. specialize (Hnone Hn Hw).
      rewrite (Hempty Hnone). split; [exact (Hex Hnone) |]. split; reflexivity.
Qed.

(** C3 at work: three attempts allowed; pages on which nothing is found
    take all three, a header with every link and a profile with its name
    take one. *)
Lemma C3_retry_bound_witness :
  (goto (Examples.staticBrowser Examples.blankPage) (normalizeUrl "example.com")
        (c_timeout (mkConfig (Examples.withMaxRetries 3 None))) = Ok tt
   /\ Facebook.goto Examples.silentProfile (Facebook.normalizeUrl "facebook.com/acme")
        (Facebook.c_timeout (Facebook.mkConfig (Examples.fbMaxRetries 3 None))) = Ok tt
   /\ Facebook.captchaCheck Examples.silentProfile = Ok false)
  /\ (socialRetryBound "example.com" (Examples.withMaxRetries 3 None)
                       (Examples.staticBrowser Examples.blankPage)
      /\ facebookRetryBound "facebook.com/acme" (Examples.fbMaxRetries 3 None)
                            Examples.silentProfile)
  /\ (passes (logged (extractSocialLinks "example.com" (Examples.withMaxRetries 3 None)
                        (Examples.staticBrowser Examples.blankPage))) = 3%nat
      /\ passes (logged (Facebook.scrapeFacebookProfile "facebook.com/acme"
                           (Examples.fbMaxRetries 3 None) Examples.silentProfile)) = 3%nat)
  /\ (passes (logged (extractSocialLinks "example.com" (Examples.withMaxRetries 3 None)
                        (Examples.staticBrowser fullHeader))) = 1%nat
      /\ passes (logged (Facebook.scrapeFacebookProfile "facebook.com/acme"
                           (Examples.fbMaxRetries 3 None) namedProfile)) = 1%nat).
Proof.
  split; [repeat split |]. split; [apply C3_retry_bound; reflexivity |]. split.
  - destruct (C3_retry_bound "example.com" (Examples.withMaxRetries 3 None)
                (Examples.staticBrowser Examples.blankPage) "facebook.com/acme"
                (Examples.fbMaxRetries 3 None) Examples.silentProfile
                eq_refl eq_refl eq_refl)
      as [(r & tr & Hrun & _ & _ & _ & Hall) (fr & ftr & Hfrun & _ & _ & Hfall)].
    destruct (run_parts _ _ _ Hrun) as [Hr Htr].
    rewrite Htr, Hfrun. cbn [logged]. split.
    + assert (Hnone : hasSocialLinks r = false)
        by (rewrite <- Hr; vm_compute; reflexivity).
      exact (Hall (proj1 (hasSocialLinks_false r) Hnone)).
    + refine (proj1 (Hfall _ _)).
      * intros k f [= <-]. exact emptyFields_unresolved.
      * intros k. reflexivity.
  - destruct (C3_retry_bound "example.com" (Examples.withMaxRetries 3 None)
                (Examples.staticBrowser fullHeader) "facebook.com/acme"
                (Examples.fbMaxRetries 3 None) namedProfile eq_refl eq_refl eq_refl)
      as [(r & tr & Hrun & _ & Hone & _) (fr & ftr & Hfrun & _ & Hfone & _)].
    rewrite Hrun, Hfrun. cbn [logged]. split.
    + refine (proj1 (Hone ltac:(vm_compute; discriminate) _)).
      exists "facebook", "https://facebook.com/acme".
      split; [vm_compute; reflexivity | discriminate].
    + refine (proj1 (Hfone _ ltac:(vm_compute; discriminate) eq_refl _)).
      exists "pageName", "Acme Plumbing". split; [reflexivity | discriminate].
Defined.

(* ===================================================================== *)
(** ** The smallest retry budgets *)
(* ===================================================================== *)

(** the loop of the extractor with a budget of one attempt *)
Lemma retryLoop_one config browser :
  c_maxRetries config = 1 ->
  exists s',
    retryLoop config browser 1 0 initialState = Some (Ok tt, s')
    /\ passes (trace s') = 1%nat /\ waits (trace s') = [].
Proof.
  intros HN. cbn [retryLoop]. rewrite HN.
  change (result initialState) with initialResult.
  rewrite initialResult_unresolved. change (0 + 1) with 1.
  change ((0 <? 1) && negb false) with true. cbv iota.
  destruct (pass (rendered browser 1) (announced 1 initialState)) as [[[] | e] s2] eqn:Hp;
    destruct (pass_emits (rendered browser 1) (announced 1 initialState)) as (es & Hes & Hall);
    rewrite Hp in Hes; cbn [snd] in Hes;
    change (trace (announced 1 initialState)) with [LogAttempt 1] in Hes.
  - rewrite (attempt_passed _ _ _ _ _ Hp), HN.
    change (1 >=? 1) with true. rewrite orb_true_r.
    eexists. split; [reflexivity |]. cbn [trace]. rewrite Hes.
    rewrite !passes_app, !waits_app, (passEvent_passes _ Hall), (passEvent_waits _ Hall).
    split; reflexivity.
  - rewrite (attempt_caught _ _ _ _ _ _ Hp).
    change (1 <? 1) with false. cbn [andb].
    eexists. split; [reflexivity |]. cbn [trace]. rewrite Hes.
    rewrite !passes_app, !waits_app, (passEvent_passes _ Hall), (passEvent_waits _ Hall).
    split; reflexivity.
Qed.

(** and with a budget of none *)
Lemma retryLoop_zero config browser :
  c_maxRetries config = 0 ->
  retryLoop config browser 0 0 initialState = Some (Ok tt, initialState).
Proof. intros HN. cbn [retryLoop]. rewrite HN. reflexivity. Qed.

Lemma fb_retryLoop_one config fbBrowser :
  Facebook.c_maxRetries config = 1 ->
  exists info tr,
    Facebook.retryLoop config fbBrowser 1 0 None [] = Some (info, tr)
    /\ passes tr = 1%nat.
Proof.
  intros HN. cbn [Facebook.retryLoop]. rewrite HN. change (0 + 1) with 1.
  replace (bool_decide (is_Some (@None (gmap string string)))) with false
    by (symmetry; apply bool_decide_eq_false; intros [x Hx]; discriminate).
  change ((0 <? 1) && negb false) with true. cbv iota.
  change ((1 <? 1) && negb false) with false. cbv iota.
  unfold Facebook.foundAt, Facebook.attempted.
  destruct (Facebook.gathered fbBrowser 1) as [f | e].
  - destruct (Facebook.foundAny f); [eexists _, _; split; reflexivity |].
    destruct (Facebook.waitForTimeout fbBrowser 1) as [[] | ew];
      eexists _, _; split; reflexivity.
  - destruct (Facebook.waitForTimeout fbBrowser 1) as [[] | ew];
      eexists _, _; split; reflexivity.
Qed.

(** C5, as the specification states it, fails: with [maxRetries] 0 neither
    script makes a pass. *)
Lemma C5_zero_counterexample :
  (exists r tr,
      extractSocialLinks "example.com" (Examples.withMaxRetries 0 None)
                         (Examples.staticBrowser Examples.blankPage) = Some (r, tr)
      /\ passes tr = 0%nat /\ passes tr <> 1%nat)
  /\ (exists r tr,
         Facebook.scrapeFacebookProfile "facebook.com/acme" (Examples.fbMaxRetries 0 None)
                                        Examples.silentProfile = Some (r, tr)
         /\ passes tr = 0%nat /\ passes tr <> 1%nat).
Proof.
  split.
  - destruct (extractSocialLinks_returns "example.com" (Examples.withMaxRetries 0 None)
                (Examples.staticBrowser Examples.blankPage)) as (r & tr & Hrun & _).
    exists r, tr. split; [exact Hrun |].
    destruct (run_parts _ _ _ Hrun) as [_ <-]. split; vm_compute; [reflexivity | discriminate].
  - destruct (scrapeFacebookProfile_returns "facebook.com/acme" (Examples.fbMaxRetries 0 None)
                Examples.silentProfile) as (r & tr & Hrun & _).
    exists r, tr. split; [exact Hrun |].
    destruct (run_parts _ _ _ Hrun) as [_ <-]. split; vm_compute; [reflexivity | discriminate].
Qed.

(** C5, amended. With [maxRetries] 1 both scripts make exactly one pass and
    no retry (the extractor does not even wait); with [maxRetries] 0 they
    make no pass and return the record with every field empty. *)
Theorem C5_small_budgets
        (targetUrl : string) (h : option bool) (t d : option Z) (browser : Browser)
        (facebookUrl : string) (fh : option bool) (ft fd : option Z)
        (fbBrowser : Facebook.Browser) :
  goto browser (normalizeUrl targetUrl) (default 30000 t) = Ok tt ->
  Facebook.goto fbBrowser (Facebook.normalizeUrl facebookUrl) (default 30000 ft) = Ok tt ->
  Facebook.captchaCheck fbBrowser = Ok false ->
  socialSmallBudgets targetUrl h t d browser
  /\ facebookSmallBudgets facebookUrl fh ft fd fbBrowser.
Proof.
  intros Hgo Hfbgo Hcheck. split; split.
  - set (config := mkConfig {| headless := h; timeout := t;
                               maxRetries := Some 1; delayMs := d |}).
    destruct (retryLoop_one config browser eq_refl) as (s' & Hloop & Hp & Hw).
    exists (result s'), (trace s'). split; [| split; assumption].
    unfold extractSocialLinks. fold config.
    change (c_timeout config) with (default 30000 t). rewrite Hgo.
    change (Z.to_nat (c_maxRetries config)) with 1%nat. rewrite Hloop. reflexivity.
  - set (config := mkConfig {| headless := h; timeout := t;
                               maxRetries := Some 0; delayMs := d |}).
    unfold extractSocialLinks. fold config.
    change (c_timeout config) with (default 30000 t). rewrite Hgo.
    change (Z.to_nat (c_maxRetries config)) with 0%nat.
    rewrite (retryLoop_zero config browser eq_refl). reflexivity.
  - set (config := Facebook.mkConfig
                     {| Facebook.headless := fh; Facebook.timeout := ft;
                        Facebook.maxRetries := Some 1; Facebook.delayMs := fd |}).
    destruct (fb_retryLoop_one config fbBrowser eq_refl) as (info & tr & Hloop & Hp).
    unfold Facebook.scrapeFacebookProfile. fold config.
    change (Facebook.c_timeout config) with (default 30000 ft). rewrite Hfbgo, Hcheck.
    change (Z.to_nat (Facebook.c_maxRetries config)) with 1%nat. rewrite Hloop.
    destruct info as [[info |] | e]; eexists _, tr; (split; [reflexivity | exact Hp]).
  - set (config := Facebook.mkConfig
                     {| Facebook.headless := fh; Facebook.timeout := ft;
                        Facebook.maxRetries := Some 0; Facebook.delayMs := fd |}).
    unfold Facebook.scrapeFacebookProfile. fold config.
    change (Facebook.c_timeout config) with (default 30000 ft). rewrite Hfbgo, Hcheck.
    change (Z.to_nat (Facebook.c_maxRetries config)) with 0%nat. reflexivity.
Qed.

(** C5 at work, on pages on which nothing is found. *)
Lemma C5_small_budgets_witness :
  (goto (Examples.staticBrowser Examples.blankPage) (normalizeUrl "example.com")
        (default 30000 None) = Ok tt
   /\ Facebook.goto Examples.silentProfile (Facebook.normalizeUrl "facebook.com/acme")
                    (default 30000 None) = Ok tt
   /\ Facebook.captchaCheck Examples.silentProfile = Ok false)
  /\ socialSmallBudgets "example.com" None None None
                        (Examples.staticBrowser Examples.blankPage)
  /\ facebookSmallBudgets "facebook.com/acme" None None None Examples.silentProfile.
Proof.
  split; [repeat split |].
  apply C5_small_budgets; reflexivity.
Defined.

(* ===================================================================== *)
(** ** The wait between passes *)
(* ===================================================================== *)


Module Blocks.



Section Loop.
Variable config : Config.
Variable browser : Browser.
Local Abbreviation N := (c_maxRetries config).


End Loop.


Section FacebookLoop.
Variable config : Facebook.Config.
Variable browser : Facebook.Browser.
Local Abbreviation N := (Facebook.c_maxRetries config).

End FacebookLoop.


End Blocks.



(* ===================================================================== *)
(** ** Which strategies of a pass run *)
(* ===================================================================== *)

Lemma bind_inv {A B} (m : M A) (k : A -> M B) s b s' :
  bind m k s = (Ok b, s') ->
  exists a s1, m s = (Ok a, s1) /\ k a s1 = (Ok b, s').
Proof.
  unfold bind. destruct (m s) as [[a | e] s1]; [eauto | discriminate].
Qed.

(** what follows the ghost event of a strategy leaves the trace alone *)
Lemma entered_trace k (rest : M unit) s :
  (forall T, preserves (onTrace T) rest) ->
  trace (bind (emit (Enter k)) (fun _ => rest) s).2 = trace s ++ [Enter k].
Proof.
  intros Hq. unfold bind, emit.
  symmetry. apply (Hq (eq (trace s ++ [Enter k]))). reflexivity.
Qed.

Lemma strategy1_trace p s : trace (strategy1 p s).2 = trace s ++ [Enter 1].
Proof.
  apply entered_trace. intros T.
  repeat quiet_step; apply trace_extractLinksFrom.
Qed.

Lemma strategy2_trace p s : trace (strategy2 p s).2 = trace s ++ [Enter 2].
Proof.
  apply entered_trace. intros T.
  repeat quiet_step; apply trace_scanScript.
Qed.

Lemma strategy3_trace p s : trace (strategy3 p s).2 = trace s ++ [Enter 3].
Proof.
  apply entered_trace. intros T.
  repeat quiet_step; apply trace_matchPlatforms.
Qed.

Lemma strategy4_trace p s : trace (strategy4 p s).2 = trace s ++ [Enter 4].
Proof.
  apply entered_trace. intros T.
  repeat quiet_step; apply trace_matchPlatforms.
Qed.

Lemma strategy5_trace p s :
  trace (strategy5 p s).2
  = trace s ++ (if hasSocialLinks (result s) then [] else [Enter 5]).
Proof.
  unfold strategy5. unfold bind at 1, getResult.
  destruct (hasSocialLinks (result s)); cbn [negb when].
  - rewrite app_nil_r. reflexivity.
  - apply entered_trace. intros T. apply trace_extractLinksFrom.
Qed.

Lemma strategy6_trace p s :
  trace (strategy6 p s).2
  = trace s ++ (if hasSocialLinks (result s) then [] else [Enter 6]).
Proof.
  unfold strategy6. unfold bind at 1. unfold getResult at 1.
  destruct (hasSocialLinks (result s)); cbn [negb when].
  - rewrite app_nil_r. reflexivity.
  - apply entered_trace. intros T. repeat quiet_step.
Qed.

(** C4, as the specification states it, fails: the first strategy resolves
    every field, and the second, third and fourth strategy of the pass
    still run. *)
Lemma C4_early_stop_counterexample :
  Forall (fun k => JS.truthyProp (result (strategy1 fullHeader initialState).2 !! k) = true)
         fieldNames
  /\ trace (pass fullHeader initialState).2 = [Enter 1; Enter 2; Enter 3; Enter 4].
Proof. split; [by_evaluation | vm_compute; reflexivity]. Qed.

(** C4, amended. Within one pass the first four strategies run one after
    the other without any test between them. The test whether some field is
    resolved is made twice, before the fifth and before the sixth strategy:
    once any field is resolved after the fourth strategy (so also once
    every field is) the pass ends there, and so it does after the fifth;
    while no field is resolved the fifth strategy and then the sixth are
    entered. A fifth strategy that throws ends the pass. *)
Theorem C4_early_stop (p : Page) (s s4 : state) :
  strategies1to4 p s = (Ok tt, s4) -> earlyStop p s s4.
Proof.
  intros H14.
  assert (T4 : trace s4 = trace s ++ [Enter 1; Enter 2; Enter 3; Enter 4]).
  { unfold strategies1to4 in H14.
    apply bind_inv in H14 as ([] & s1 & H1 & H14).
    apply bind_inv in H14 as ([] & s2 & H2 & H14).
    apply bind_inv in H14 as ([] & s3 & H3 & H4).
    pose proof (strategy1_trace p s) as T1. rewrite H1 in T1.
    pose proof (strategy2_trace p s1) as T2. rewrite H2 in T2.
    pose proof (strategy3_trace p s2) as T3. rewrite H3 in T3.
    pose proof (strategy4_trace p s3) as T4. rewrite H4 in T4.
    cbn [snd] in *. rewrite T4, T3, T2, T1, <- !app_assoc. reflexivity. }
  assert (Hskip6 : forall s5, (exists k, resolved (result s5) k) ->
                              strategy6 p s5 = (Ok tt, s5)).
  { intros s5 Hfound. apply hasSocialLinks_true in Hfound.
    unfold strategy6, bind, getResult. rewrite Hfound. reflexivity. }
  split; [exact T4 |]. split.
  - intros Hfound. unfold pass. rewrite (bind_Ok _ _ _ _ _ H14).
    assert (H5 : strategy5 p s4 = (Ok tt, s4)).
    { apply hasSocialLinks_true in Hfound.
      unfold strategy5, bind, getResult. rewrite Hfound. reflexivity. }
    rewrite (bind_Ok _ _ _ _ _ H5). apply Hskip6, Hfound.
  - intros Hnone. apply hasSocialLinks_false in Hnone.
    pose proof (strategy5_trace p s4) as T5. rewrite Hnone in T5.
    split; [exact T5 |].
    unfold pass. rewrite (bind_Ok _ _ _ _ _ H14).
    destruct (strategy5 p s4) as [[[] | e5] s5] eqn:H5; cbn [fst snd] in *.
    + split; [discriminate |]. intros _. rewrite (bind_Ok _ _ _ _ _ H5). split.
      * apply Hskip6.
      * intros Hnone5. apply hasSocialLinks_false in Hnone5.
        rewrite strategy6_trace, Hnone5, T5, T4, <- !app_assoc. reflexivity.
    + split; [| discriminate]. intros e [= <-]. apply (bind_Throws _ _ _ _ _ H5).
Qed.

(** C4 at work: a header that resolves every field, where the pass ends
    after the fourth strategy, and a page without signals, where the fifth
    and the sixth strategy are entered. *)
Lemma C4_early_stop_witness :
  (strategies1to4 fullHeader initialState
   = (Ok tt, {| result := result (strategy1 fullHeader initialState).2;
                trace := [Enter 1; Enter 2; Enter 3; Enter 4] |})
   /\ earlyStop fullHeader initialState
                {| result := result (strategy1 fullHeader initialState).2;
                   trace := [Enter 1; Enter 2; Enter 3; Enter 4] |})
  /\ (strategies1to4 Examples.blankPage initialState
      = (Ok tt, {| result := initialResult;
                   trace := [Enter 1; Enter 2; Enter 3; Enter 4] |})
      /\ earlyStop Examples.blankPage initialState
                   {| result := initialResult;
                      trace := [Enter 1; Enter 2; Enter 3; Enter 4] |}).
Proof.
  split; (split; [vm_compute; reflexivity |]);
    apply C4_early_stop; vm_compute; reflexivity.
Defined.

(* ===================================================================== *)
(** ** First found wins *)
(* ===================================================================== *)

Lemma stable_strategy R k p :
  stable R -> preserves (onResult R) (strategy k p).
Proof.
  intros HR. revert k.
  do 7 (intros [| k]; [simpl;
    auto using preserves_ret, stable_strategy1, stable_strategy2, stable_strategy3,
               stable_strategy4, stable_strategy5, stable_strategy6 | revert k]).
  intros k. simpl. apply preserves_ret.
Qed.

Lemma stable_afterRuns R runs :
  stable R -> forall s, R (result s) -> R (result (afterRuns runs s)).
Proof.
  intros HR. induction runs as [| [k p] runs IH]; intros s Hs; simpl; [exact Hs |].
  apply IH. apply (stable_strategy R k p HR s Hs).
Qed.

(** a step that keeps every stable property keeps a complete record as it
    is *)
Lemma complete_unchanged (r r' : gmap string string) :
  (forall G, G ∈ fieldNames -> resolved r G) ->
  (forall R, stable R -> R r -> R r') ->
  r' = r.
Proof.
  intros Hcomplete Hkeep. apply map_eq. intros i.
  apply (Hkeep (fun x => x !! i = r !! i)); [| reflexivity].
  apply lookup_stable.
  destruct (decide (i ∈ fieldNames)) as [Hi | Hi]; [left | right; exact Hi].
  apply truthyProp_true, Hcomplete, Hi.
Qed.

(** C2. Once a field holds a non-empty value, no sequence of strategy runs
    changes it, whatever pages the runs see and whether they answer or
    throw, and neither does a whole pass; a pass, or any sequence of
    strategy runs, over a record in which every field is resolved returns
    the same record. *)
Theorem C2_first_found_wins (runs : list (nat * Page)) (p : Page) (s : state)
        (F v : string) :
  result s !! F = Some v -> v <> "" -> firstFoundWins runs p s F v.
Proof.
  intros HF Hv.
  assert (HR : stable (fun r => r !! F = Some v)).
  { apply lookup_stable. left. apply truthy_true, Hv. }
  split; [| split].
  - apply (stable_afterRuns _ runs HR s HF).
  - apply (stable_pass _ HR p s HF).
  - intros Hcomplete. split.
    + apply (complete_unchanged _ _ Hcomplete). intros R HS Hs.
      apply (stable_pass R HS p s Hs).
    + apply (complete_unchanged _ _ Hcomplete). intros R HS Hs.
      apply (stable_afterRuns R runs HS s Hs).
Qed.

(** C2 at work: the Facebook link is known, later runs find another one. *)
Lemma C2_first_found_wins_witness :
  (result facebookKnown !! "facebook" = Some "https://facebook.com/acme"
   /\ "https://facebook.com/acme" <> "")
  /\ firstFoundWins [(3%nat, Failing.brokenHeader); (1%nat, fullHeader); (6%nat, fullHeader)]
                    fullHeader facebookKnown "facebook" "https://facebook.com/acme".
Proof.
  split; [split; [vm_compute; reflexivity | discriminate] |].
  apply C2_first_found_wins; [vm_compute; reflexivity | discriminate].
Defined.

(* ===================================================================== *)
(** ** A strategy that throws *)
(* ===================================================================== *)

(** C6, as the specification states it, fails: the first strategy throws,
    the pass is abandoned, and the link that the third strategy would have
    found on the same page is not looked for. *)
Lemma C6_abandoned_pass_counterexample :
  (exists r tr,
      extractSocialLinks "example.com" (Examples.withMaxRetries 1 None)
                         (Examples.staticBrowser Failing.brokenHeader) = Some (r, tr)
      /\ tr = [LogAttempt 1; Enter 1; LogError 1 "Execution context was destroyed"]
      /\ r !! "facebook" = Some "")
  /\ result (strategy3 Failing.brokenHeader initialState).2 !! "facebook"
     = Some "https://facebook.com/acme".
Proof.
  split; [| vm_compute; reflexivity].
  destruct (extractSocialLinks_returns "example.com" (Examples.withMaxRetries 1 None)
              (Examples.staticBrowser Failing.brokenHeader)) as (r & tr & Hrun & _).
  exists r, tr. split; [exact Hrun |].
  destruct (run_parts _ _ _ Hrun) as [<- <-]. split; vm_compute; reflexivity.
Qed.

(** a structured-data script never makes its strategy throw *)
Lemma scanScript_answers script s : (scanScript script s).1 = Ok tt.
Proof.
  unfold scanScript, tryCatch.
  match goal with |- (match ?m with _ => _ end).1 = _ => destruct m as [[[] | e] s'] end;
    reflexivity.
Qed.

(** a pass is its six strategies, one after the other *)
Lemma pass_runStrategies p s :
  pass p s = runStrategies [1; 2; 3; 4; 5; 6]%nat p s.
Proof.
  unfold pass, strategies1to4. cbn [runStrategies strategy]. unfold bind, ret.
  destruct (strategy1 p s) as [[[] | e1] s1]; [| reflexivity].
  destruct (strategy2 p s1) as [[[] | e2] s2]; [| reflexivity].
  destruct (strategy3 p s2) as [[[] | e3] s3]; [| reflexivity].
  destruct (strategy4 p s3) as [[[] | e4] s4]; [| reflexivity].
  destruct (strategy5 p s4) as [[[] | e5] s5]; [| reflexivity].
  destruct (strategy6 p s5) as [[[] | e6] s6]; reflexivity.
Qed.

Lemma runStrategies_app ks1 ks2 p :
  forall s, runStrategies (ks1 ++ ks2) p s
            = bind (runStrategies ks1 p) (fun _ => runStrategies ks2 p) s.
Proof.
  induction ks1 as [| k ks1 IH]; intros s; cbn [runStrategies app].
  - reflexivity.
  - specialize (IH (strategy k p s).2). unfold bind in *.
    destruct (strategy k p s) as [[[] | e] s1]; [exact IH | reflexivity].
Qed.

Lemma strategies_split k :
  (1 <= k <= 6)%nat ->
  [1; 2; 3; 4; 5; 6]%nat = (seq 1 (k - 1) ++ k :: seq (S k) (6 - k))%list.
Proof.
  intros Hk. do 7 (destruct k as [| k]; [first [lia | reflexivity] |]). lia.
Qed.

(** a strategy that throws ends the pass *)
Lemma pass_thrown p s k s1 s2 e :
  (1 <= k <= 6)%nat ->
  runStrategies (seq 1 (k - 1)) p s = (Ok tt, s1) ->
  strategy k p s1 = (Throws e, s2) ->
  pass p s = (Throws e, s2).
Proof.
  intros Hk Hbefore Hthrow.
  rewrite pass_runStrategies, (strategies_split k Hk), runStrategies_app.
  rewrite (bind_Ok _ _ _ _ _ Hbefore). cbn [runStrategies].
  apply (bind_Throws _ _ _ _ _ Hthrow).
Qed.

Lemma entered_app j t1 t2 : entered j (t1 ++ t2) = (entered j t1 + entered j t2)%nat.
Proof. unfold entered. rewrite filter_app, length_app. reflexivity. Qed.

Lemma entered_other j es :
  Forall (fun e => exists i, e = Enter i /\ i <> j) es -> entered j es = 0%nat.
Proof.
  induction 1 as [| e es (i & -> & Hi) _ IH]; [reflexivity |].
  change (Enter i :: es) with ([Enter i] ++ es). rewrite entered_app, IH.
  assert (Hf : isEnter j (Enter i) = false) by (apply Nat.eqb_neq, Hi).
  unfold entered. rewrite filter_cons_False by (rewrite Hf; exact id). reflexivity.
Qed.

(** what a strategy adds to the trace is its own ghost event *)
Lemma strategy_emits k p s :
  exists es, trace (strategy k p s).2 = trace s ++ es /\ Forall (eq (Enter k)) es.
Proof.
  assert (Hone : forall j, Forall (eq (Enter j)) [Enter j]) by (repeat constructor).
  assert (Hnil : exists es, trace s = trace s ++ es /\ Forall (eq (Enter k)) es)
    by (exists []; rewrite app_nil_r; split; [reflexivity | constructor]).
  destruct k as [| [| [| [| [| [| [| k]]]]]]]; cbn [strategy].
  - exact Hnil.
  - exists [Enter 1]. split; [apply strategy1_trace | apply Hone].
  - exists [Enter 2]. split; [apply strategy2_trace | apply Hone].
  - exists [Enter 3]. split; [apply strategy3_trace | apply Hone].
  - exists [Enter 4]. split; [apply strategy4_trace | apply Hone].
  - rewrite strategy5_trace. destruct (hasSocialLinks (result s)).
    + exists []. split; [reflexivity | constructor].
    + exists [Enter 5]. split; [reflexivity | apply Hone].
  - rewrite strategy6_trace. destruct (hasSocialLinks (result s)).
    + exists []. split; [reflexivity | constructor].
    + exists [Enter 6]. split; [reflexivity | apply Hone].
  - exact Hnil.
Qed.

Lemma runStrategies_emits ks p :
  forall s, exists es,
    trace (runStrategies ks p s).2 = trace s ++ es
    /\ Forall (fun e => exists i, e = Enter i /\ i ∈ ks) es.
Proof.
  induction ks as [| k ks IH]; intros s; cbn [runStrategies].
  - exists []. rewrite app_nil_r. split; [reflexivity | constructor].
  - destruct (strategy_emits k p s) as (es1 & Hes1 & Hall1).
    assert (Hall1' : Forall (fun e => exists i, e = Enter i /\ i ∈ k :: ks) es1).
    { eapply Forall_impl; [exact Hall1 |]. intros e <-. exists k.
      split; [reflexivity | apply elem_of_cons; left; reflexivity]. }
    unfold bind. destruct (strategy k p s) as [[[] | e] s1]; cbn [snd] in *.
    + destruct (IH s1) as (es2 & Hes2 & Hall2).
      exists (es1 ++ es2). split; [rewrite Hes2, Hes1, app_assoc; reflexivity |].
      apply Forall_app. split; [exact Hall1' |].
      eapply Forall_impl; [exact Hall2 |]. intros ev (i & -> & Hi). exists i.
      split; [reflexivity | apply elem_of_cons; right; exact Hi].
    + exists es1. split; assumption.
Qed.

(** the whole of it, for the strategy [k] of attempt [n + 1] *)
Lemma thrown_contained
      (targetUrl : string) (options : Options) (browser : Browser)
      (n : Z) (s : state) (k : nat) (s1 s2 : state) (e : string) :
  n < c_maxRetries (mkConfig options) ->
  unresolved (result s) ->
  (1 <= k <= 6)%nat ->
  runStrategies (seq 1 (k - 1)) (rendered browser (n + 1)) (announced (n + 1) s)
  = (Ok tt, s1) ->
  strategy k (rendered browser (n + 1)) s1 = (Throws e, s2) ->
  failureContained targetUrl options browser n s k s1 s2 e.
Proof.
  intros Hlt Hnone Hk Hbefore Hthrow.
  apply hasSocialLinks_false in Hnone.
  pose proof (pass_thrown _ _ _ _ _ _ Hk Hbefore Hthrow) as Hp.
  pose proof (attempt_caught (mkConfig options) browser _ _ _ _ Hp) as Hattempt.
  assert (Hstep : forall fuel,
             retryLoop (mkConfig options) browser (S fuel) n s
             = retryLoop (mkConfig options) browser fuel (n + 1)
                 {| result := result s2; trace := trace s2 ++ [LogError (n + 1) e] |}).
  { intros fuel. cbn [retryLoop]. rewrite Hnone.
    replace (n <? c_maxRetries (mkConfig options)) with true
      by (symmetry; apply Z.ltb_lt; exact Hlt).
    cbn [andb negb]. rewrite Hattempt. reflexivity. }
  split; [exact Hp |]. split; [| split; [exact Hattempt |]].
  { destruct (runStrategies_emits (seq 1 (k - 1)) (rendered browser (n + 1))
                (announced (n + 1) s)) as (es1 & Hes1 & Hall1).
    destruct (strategy_emits k (rendered browser (n + 1)) s1) as (es2 & Hes2 & Hall2).
    rewrite Hbefore in Hes1. rewrite Hthrow in Hes2. cbn [snd announced trace] in Hes1, Hes2.
    exists (es1 ++ es2). split.
    - rewrite Hes2, Hes1, <- !app_assoc. reflexivity.
    - intros j Hj. apply entered_other, Forall_app. split.
      + eapply Forall_impl; [exact Hall1 |]. intros ev (i & -> & Hi). exists i.
        split; [reflexivity |]. apply elem_of_seq in Hi. lia.
      + eapply Forall_impl; [exact Hall2 |]. intros ev <-. exists k.
        split; [reflexivity | lia]. }
  split; [| split; [| split; [| split]]].
  - intros key v Hv Hne.
    apply (stable_strategy (fun r => r !! key = Some v) k (rendered browser (n + 1))
             (lookup_stable key (Some v) (or_introl (proj2 (truthy_true v) Hne))) s1) in Hv.
    rewrite Hthrow in Hv. exact Hv.
  - intros Hend fuel. rewrite Hstep.
    assert (Hcond : (n + 1 <? c_maxRetries (mkConfig options))
                    && negb (hasSocialLinks (result s2)) = false).
    { destruct Hend as [Hfound | Hmax].
      - apply hasSocialLinks_true in Hfound. rewrite Hfound. apply andb_false_r.
      - replace (n + 1 <? c_maxRetries (mkConfig options)) with false
          by (symmetry; apply Z.ltb_ge; exact Hmax).
        reflexivity. }
    destruct fuel; cbn [retryLoop result]; rewrite Hcond; reflexivity.
  - intros Hnone2 Hmore fuel Hfuel. apply hasSocialLinks_false in Hnone2.
    destruct fuel as [| [| fuel]]; [lia | lia |].
    destruct (retryLoop_total (mkConfig options) browser (S (S fuel)) n s Hfuel)
      as (s' & Hrun).
    exists s'. rewrite Hrun. rewrite Hstep in Hrun. cbn [retryLoop result] in Hrun.
    rewrite Hnone2 in Hrun.
    replace (n + 1 <? c_maxRetries (mkConfig options)) with true in Hrun
      by (symmetry; apply Z.ltb_lt; exact Hmore).
    cbn [andb negb] in Hrun.
    destruct (attempt_emits (mkConfig options) browser (n + 1 + 1)
                {| result := result s2; trace := trace s2 ++ [LogError (n + 1) e] |})
      as (es1 & Hes1 & _).
    replace (n + 1 + 1) with (n + 2) in * by lia.
    destruct (attempt (mkConfig options) browser (n + 2) _) as [[[|] | e'] s''];
      cbn [snd] in Hes1.
    + injection Hrun as <-. exists es1. split; [reflexivity | exact Hes1].
    + destruct (retryLoop_spec _ _ _ _ _ _ _ Hrun) as (_ & es2 & Hes2 & _).
      exists (es1 ++ es2). split; [reflexivity |].
      rewrite Hes2, Hes1, <- app_assoc. reflexivity.
    + discriminate Hrun.
  - apply scanScript_answers.
  - intros Hgo.
    destruct (run_navigated targetUrl options browser Hgo) as (s' & Hloop & Hrun).
    exists (result s'), (trace s'). split; [exact Hrun |].
    apply not_elem_of_dom.
    rewrite (stable_retryLoop _ dom_stable _ _ _ _ _ _ _ Hloop initialResult_dom).
    exact error_not_field.
Qed.

(** C6, amended. When a strategy throws during a pass, the strategies
    after it are not run in that pass: the throw is caught by the [try] of
    the attempt and its message is logged; what was resolved before the
    throw is kept. If by then a field is resolved, or the attempts are used
    up, the loop ends and the record is returned; else the next attempt
    follows at once, without a wait. An error of a structured-data script is
    caught by the script's own [try]; after a navigation that succeeded the
    invocation returns no error record. *)
Theorem C6_failure_containment
        (targetUrl : string) (options : Options) (browser : Browser)
        (n : Z) (s : state) (k : nat) (s1 s2 : state) (e : string) :
  n < c_maxRetries (mkConfig options) ->
  unresolved (result s) ->
  (1 <= k <= 6)%nat ->
  runStrategies (seq 1 (k - 1)) (rendered browser (n + 1)) (announced (n + 1) s)
  = (Ok tt, s1) ->
  strategy k (rendered browser (n + 1)) s1 = (Throws e, s2) ->
  failureContained targetUrl options browser n s k s1 s2 e.
Proof. apply thrown_contained. Qed.

Lemma initialState_unresolved : unresolved (result initialState).
Proof.
  assert (H : hasSocialLinks (result initialState) = false) by (vm_compute; reflexivity).
  exact (proj1 (hasSocialLinks_false _) H).
Qed.

(** C6 at work. The header query of the first of two attempts throws: the
    second attempt follows. The query for the structured data throws after
    the header gave a link: the loop ends after that pass, of three
    allowed. *)
Lemma C6_failure_containment_witness :
  ((0 < c_maxRetries (mkConfig (Examples.withMaxRetries 2 None))
    /\ unresolved (result initialState)
    /\ (1 <= 1 <= 6)%nat
    /\ runStrategies (seq 1 (1 - 1))
         (rendered (Examples.staticBrowser Failing.brokenHeader) (0 + 1))
         (announced (0 + 1) initialState)
       = (Ok tt, announced 1 initialState)
    /\ strategy 1 (rendered (Examples.staticBrowser Failing.brokenHeader) (0 + 1))
         (announced 1 initialState)
       = (Throws "Execution context was destroyed",
          {| result := initialResult; trace := [LogAttempt 1; Enter 1] |}))
   /\ failureContained "example.com" (Examples.withMaxRetries 2 None)
        (Examples.staticBrowser Failing.brokenHeader) 0 initialState 1
        (announced 1 initialState)
        {| result := initialResult; trace := [LogAttempt 1; Enter 1] |}
        "Execution context was destroyed")
  /\ ((0 < c_maxRetries (mkConfig (Examples.withMaxRetries 3 None))
       /\ unresolved (result initialState)
       /\ (1 <= 2 <= 6)%nat
       /\ runStrategies (seq 1 (2 - 1))
            (rendered (Examples.staticBrowser foundThenBroken) (0 + 1))
            (announced (0 + 1) initialState)
          = (Ok tt, {| result := <["facebook" := "https://facebook.com/acme"]> initialResult;
                       trace := [LogAttempt 1; Enter 1] |})
       /\ strategy 2 (rendered (Examples.staticBrowser foundThenBroken) (0 + 1))
            {| result := <["facebook" := "https://facebook.com/acme"]> initialResult;
               trace := [LogAttempt 1; Enter 1] |}
          = (Throws "Execution context was destroyed",
             {| result := <["facebook" := "https://facebook.com/acme"]> initialResult;
                trace := [LogAttempt 1; Enter 1; Enter 2] |}))
      /\ failureContained "example.com" (Examples.withMaxRetries 3 None)
           (Examples.staticBrowser foundThenBroken) 0 initialState 2
           {| result := <["facebook" := "https://facebook.com/acme"]> initialResult;
              trace := [LogAttempt 1; Enter 1] |}
           {| result := <["facebook" := "https://facebook.com/acme"]> initialResult;
              trace := [LogAttempt 1; Enter 1; Enter 2] |}
           "Execution context was destroyed").
Proof.
  split.
  - assert (H4 : runStrategies (seq 1 (1 - 1))
                   (rendered (Examples.staticBrowser Failing.brokenHeader) (0 + 1))
                   (announced (0 + 1) initialState)
                 = (Ok tt, announced 1 initialState)) by (vm_compute; reflexivity).
    assert (H5 : strategy 1 (rendered (Examples.staticBrowser Failing.brokenHeader) (0 + 1))
                   (announced 1 initialState)
                 = (Throws "Execution context was destroyed",
                    {| result := initialResult; trace := [LogAttempt 1; Enter 1] |}))
      by (vm_compute; reflexivity).
    split; [split; [reflexivity | split; [exact initialState_unresolved |
                    split; [lia | split; [exact H4 | exact H5]]]] |].
    exact (C6_failure_containment "example.com" (Examples.withMaxRetries 2 None)
             (Examples.staticBrowser Failing.brokenHeader) 0 initialState 1 _ _ _
             eq_refl initialState_unresolved ltac:(lia) H4 H5).
  - assert (H4 : runStrategies (seq 1 (2 - 1))
                   (rendered (Examples.staticBrowser foundThenBroken) (0 + 1))
                   (announced (0 + 1) initialState)
                 = (Ok tt, {| result := <["facebook" := "https://facebook.com/acme"]>
                                          initialResult;
                              trace := [LogAttempt 1; Enter 1] |}))
      by (vm_compute; reflexivity).
    assert (H5 : strategy 2 (rendered (Examples.staticBrowser foundThenBroken) (0 + 1))
                   {| result := <["facebook" := "https://facebook.com/acme"]> initialResult;
                      trace := [LogAttempt 1; Enter 1] |}
                 = (Throws "Execution context was destroyed",
                    {| result := <["facebook" := "https://facebook.com/acme"]> initialResult;
                       trace := [LogAttempt 1; Enter 1; Enter 2] |}))
      by (vm_compute; reflexivity).
    split; [split; [reflexivity | split; [exact initialState_unresolved |
                    split; [lia | split; [exact H4 | exact H5]]]] |].
    exact (C6_failure_containment "example.com" (Examples.withMaxRetries 3 None)
             (Examples.staticBrowser foundThenBroken) 0 initialState 2 _ _ _
             eq_refl initialState_unresolved ltac:(lia) H4 H5).
Defined.

(* ===================================================================== *)
(** ** The captcha check *)
(* ===================================================================== *)

(** C1, as the specification states it, fails for the local services
    scraper: its captcha record has the error property and no url
    property. *)
Lemma C1_captcha_url_counterexample :
  exists o,
    LocalServices.scrapeLocalServices blockedSearch 1
    = Some (Ok (LocalServices.Object o), [])
    /\ o !! "error" = Some "captcha"
    /\ o !! "url" = None.
Proof.
  exists {[ "error" := "captcha" ]}.
  split; [reflexivity |]. split; vm_compute; reflexivity.
Qed.

(** C1, amended. When the body text has one of the two phrases or a
    recaptcha frame is on the page, neither scraper makes a pass; the
    Facebook scraper returns the record with error captcha and the
    normalized URL, the local services scraper the record with error
    captcha only. *)
Theorem C1_captcha_short_circuit
        (facebookUrl : string) (options : Facebook.Options)
        (fbBrowser : Facebook.Browser) (text : string)
        (lsBrowser : LocalServices.Browser) (lsText : string) (frame : bool) :
  Facebook.goto fbBrowser (Facebook.normalizeUrl facebookUrl)
                (Facebook.c_timeout (Facebook.mkConfig options)) = Ok tt ->
  Facebook.bodyText fbBrowser = Ok text ->
  (JS.includes "unusual traffic" text || JS.includes "not a robot" text = true
   \/ exists n, Facebook.recaptchaCount fbBrowser = Ok n /\ (0 < n)%nat) ->
  LocalServices.goto lsBrowser = Ok tt ->
  LocalServices.bodyText lsBrowser = Ok lsText ->
  LocalServices.recaptchaFrame lsBrowser = Ok frame ->
  JS.includes "unusual traffic" lsText || JS.includes "not a robot" lsText || frame = true ->
  facebookBlocked facebookUrl options fbBrowser /\ localServicesBlocked lsBrowser.
Proof.
  intros Hgo Htext Hguard Hlsgo Hlstext Hframe Hlsguard. split.
  - assert (Hcheck : Facebook.captchaCheck fbBrowser = Ok true).
    { unfold Facebook.captchaCheck. rewrite Htext.
      destruct (_ || _) eqn:Hphrase; [reflexivity |].
      destruct Hguard as [Hp | (n & Hn & Hpos)]; [discriminate |].
      rewrite Hn. f_equal. apply Nat.ltb_lt, Hpos. }
    exists (errorRecord "captcha" (Facebook.normalizeUrl facebookUrl)), [LogCaptcha].
    split; [| repeat split].
    unfold Facebook.scrapeFacebookProfile. rewrite Hgo, Hcheck. reflexivity.
  - intros fuel. unfold LocalServices.scrapeLocalServices.
    rewrite Hlsgo, Hlstext, Hframe, Hlsguard. reflexivity.
Qed.

(** C1 at work: a recaptcha frame on the Facebook page, the block notice
    on the search page. *)
Lemma C1_captcha_short_circuit_witness :
  (Facebook.goto challengedProfile (Facebook.normalizeUrl " facebook.com/acme ")
                 (Facebook.c_timeout (Facebook.mkConfig Facebook.noOptions)) = Ok tt
   /\ Facebook.bodyText challengedProfile = Ok "Security check"
   /\ (JS.includes "unusual traffic" "Security check"
       || JS.includes "not a robot" "Security check" = true
       \/ exists n, Facebook.recaptchaCount challengedProfile = Ok n /\ (0 < n)%nat)
   /\ LocalServices.goto blockedSearch = Ok tt
   /\ LocalServices.bodyText blockedSearch
      = Ok "Our systems have detected unusual traffic from your computer network."
   /\ LocalServices.recaptchaFrame blockedSearch = Ok false
   /\ JS.includes "unusual traffic"
        "Our systems have detected unusual traffic from your computer network."
      || JS.includes "not a robot"
           "Our systems have detected unusual traffic from your computer network."
      || false = true)
  /\ facebookBlocked " facebook.com/acme " Facebook.noOptions challengedProfile
  /\ localServicesBlocked blockedSearch.
Proof.
  assert (Hframes : exists n, Facebook.recaptchaCount challengedProfile = Ok n /\ (0 < n)%nat)
    by (exists 1%nat; split; [reflexivity | lia]).
  split.
  - repeat split; try reflexivity. right. exact Hframes.
  - apply (C1_captcha_short_circuit " facebook.com/acme " Facebook.noOptions
             challengedProfile "Security check" blockedSearch
             "Our systems have detected unusual traffic from your computer network."
             false); try reflexivity.
    right. exact Hframes.
Defined.

(* ===================================================================== *)
(** ** What the pattern can match *)
(* ===================================================================== *)

Module PatternFacts.
Import Pattern.

Lemma includes_cons needle c hay :
  JS.includes needle hay = true -> JS.includes needle (String c hay) = true.
Proof. intros H. cbn [JS.includes]. rewrite H. apply orb_true_r. Qed.

Lemma prefix_includes needle hay :
  String.prefix needle hay = true -> JS.includes needle hay = true.
Proof. intros H. destruct hay; cbn [JS.includes]; rewrite H; reflexivity. Qed.

Lemma prefix_cons a s1 s2 :
  String.prefix (String a s1) (String a s2) = String.prefix s1 s2.
Proof. cbn [String.prefix]. destruct (ascii_dec a a); [reflexivity | congruence]. Qed.

(** a literal that was eaten is, in lower case, a prefix of the text in
    lower case *)
Lemma eatLiteral_prefix lit :
  forall s rest,
    eatLiteral lit s = Some rest ->
    String.prefix (JS.toLowerCase lit) (JS.toLowerCase s) = true.
Proof.
  induction lit as [| a lit IH]; intros s rest H.
  - destruct s; reflexivity.
  - destruct s as [| b s]; [discriminate |]. cbn [eatLiteral] in H.
    destruct (Ascii.eqb (JS.lowerChar a) (JS.lowerChar b)) eqn:Hab; [| discriminate].
    apply Ascii.eqb_eq in Hab. cbn [JS.toLowerCase]. rewrite Hab, prefix_cons.
    exact (IH _ _ H).
Qed.

(** what is found after an eaten literal is found in the whole text *)
Lemma eatLiteral_includes needle lit :
  forall s rest,
    eatLiteral lit s = Some rest ->
    JS.includes needle (JS.toLowerCase rest) = true ->
    JS.includes needle (JS.toLowerCase s) = true.
Proof.
  induction lit as [| a lit IH]; intros s rest H Hin.
  - injection H as <-. exact Hin.
  - destruct s as [| b s]; [discriminate |]. cbn [eatLiteral] in H.
    destruct (Ascii.eqb (JS.lowerChar a) (JS.lowerChar b)); [| discriminate].
    cbn [JS.toLowerCase]. apply includes_cons. exact (IH _ _ H Hin).
Qed.

Section Platform.
Variable platform : string.
Local Abbreviation domain := (JS.toLowerCase (platform +:+ ".com")).

Lemma matchDomain_includes s n :
  matchDomain platform s = Some n -> JS.includes domain (JS.toLowerCase s) = true.
Proof.
  unfold matchDomain.
  destruct (eatLiteral (platform +:+ ".com") s) as [rest |] eqn:He; [| discriminate].
  intros _. apply prefix_includes. exact (eatLiteral_prefix _ _ _ He).
Qed.

Lemma matchBody_includes s :
  forall n, matchBody platform s = Some n ->
            JS.includes domain (JS.toLowerCase s) = true.
Proof.
  induction s as [| c s IH]; intros n H.
  - exact (matchDomain_includes _ _ H).
  - cbn [matchBody] in H. destruct (isBodyChar c).
    + destruct (matchBody platform s) as [k |].
      * cbn [JS.toLowerCase]. apply includes_cons. exact (IH _ eq_refl).
      * exact (matchDomain_includes _ _ H).
    + exact (matchDomain_includes _ _ H).
Qed.

Lemma matchSlashes_includes s n :
  matchSlashes platform s = Some n -> JS.includes domain (JS.toLowerCase s) = true.
Proof.
  unfold matchSlashes. destruct (eatLiteral "//" s) as [rest |] eqn:He; [| discriminate].
  destruct (matchBody platform rest) as [k |] eqn:Hb; [| discriminate].
  intros _. apply (eatLiteral_includes _ _ _ _ He). exact (matchBody_includes _ _ Hb).
Qed.

Lemma matchAt_includes s n :
  matchAt platform s = Some n -> JS.includes domain (JS.toLowerCase s) = true.
Proof.
  unfold matchAt.
  destruct (eatLiteral "http" s) as [r1 |] eqn:H1;
    [| intros H; exact (matchSlashes_includes _ _ H)].
  assert (Hcolon : forall r r3 k, eatLiteral ":" r = Some r3 ->
                                  matchSlashes platform r3 = Some k ->
                                  JS.includes domain (JS.toLowerCase r) = true).
  { intros r r3 k Hc Hm. apply (eatLiteral_includes _ _ _ _ Hc).
    exact (matchSlashes_includes _ _ Hm). }
  destruct (eatLiteral "s" r1) as [r2 |] eqn:H2.
  - destruct (eatLiteral ":" r2) as [r3 |] eqn:H3.
    + destruct (matchSlashes platform r3) as [k |] eqn:Hm; cbn [fmap option_fmap option_map].
      * intros _. apply (eatLiteral_includes _ _ _ _ H1), (eatLiteral_includes _ _ _ _ H2).
        exact (Hcolon _ _ _ H3 Hm).
      * destruct (eatLiteral ":" r1) as [r3' |] eqn:H3';
          [| intros H; exact (matchSlashes_includes _ _ H)].
        destruct (matchSlashes platform r3') as [k |] eqn:Hm';
          cbn [fmap option_fmap option_map];
          [| intros H; exact (matchSlashes_includes _ _ H)].
        intros _. apply (eatLiteral_includes _ _ _ _ H1). exact (Hcolon _ _ _ H3' Hm').
    + destruct (eatLiteral ":" r1) as [r3' |] eqn:H3';
        [| intros H; exact (matchSlashes_includes _ _ H)].
      destruct (matchSlashes platform r3') as [k |] eqn:Hm';
        cbn [fmap option_fmap option_map];
        [| intros H; exact (matchSlashes_includes _ _ H)].
      intros _. apply (eatLiteral_includes _ _ _ _ H1). exact (Hcolon _ _ _ H3' Hm').
  - destruct (eatLiteral ":" r1) as [r3' |] eqn:H3';
      [| intros H; exact (matchSlashes_includes _ _ H)].
    destruct (matchSlashes platform r3') as [k |] eqn:Hm';
      cbn [fmap option_fmap option_map];
      [| intros H; exact (matchSlashes_includes _ _ H)].
    intros _. apply (eatLiteral_includes _ _ _ _ H1). exact (Hcolon _ _ _ H3' Hm').
Qed.

(** the pattern matches only in a text that has the domain of the platform,
    in whatever case *)
Lemma exec_includes html :
  forall m, exec platform html = Some m ->
            JS.includes domain (JS.toLowerCase html) = true.
Proof.
  induction html as [| c html IH]; intros m H; cbn [exec] in H.
  - destruct (matchAt platform "") as [n |] eqn:Hm; [| discriminate].
    exact (matchAt_includes _ _ Hm).
  - destruct (matchAt platform (String c html)) as [n |] eqn:Hm.
    + exact (matchAt_includes _ _ Hm).
    + cbn [JS.toLowerCase]. apply includes_cons. exact (IH _ H).
Qed.
End Platform.
End PatternFacts.

(* ===================================================================== *)
(** ** Pages without signals *)
(* ===================================================================== *)

Module Silent.

#[local] Arguments JS.includes : simpl never.
#[local] Arguments JS.toLowerCase : simpl never.
#[local] Arguments JS.trim : simpl never.
#[local] Arguments JS.splitChar : simpl never.
#[local] Arguments Pattern.exec : simpl never.
#[local] Arguments String.append : simpl never.

Lemma silent_platform lower platform :
  mentionsPlatform lower = false -> platform ∈ socialPlatforms ->
  JS.includes (platform +:+ ".com") lower = false.
Proof.
  intros Hm Hp. apply not_true_iff_false. intros Hin.
  apply not_true_iff_false in Hm. apply Hm.
  apply existsb_exists. exists platform. split; [apply list_elem_of_In, Hp | exact Hin].
Qed.

(** on a text that names no platform the loop over the platforms writes
    nothing *)
Lemma matchPlatforms_silent I lower value :
  mentionsPlatform lower = false -> preserves I (matchPlatforms lower value).
Proof.
  intros Hm. apply preserves_forOf. intros platform Hp.
  apply preserves_read. intros s Hs.
  rewrite (silent_platform _ _ Hm Hp), andb_false_r. exact Hs.
Qed.

(** the continuation of an awaited query runs on what the query answered *)
Lemma preserves_awaited {A B} I (o : outcome A) (k : A -> M B) :
  (forall a, o = Ok a -> preserves I (k a)) -> preserves I (bind (await o) k).
Proof.
  intros Hk s Hs. unfold bind, await. destruct o as [a | e]; [| exact Hs].
  apply (Hk a eq_refl s Hs).
Qed.

Lemma preserves_returned {A B} I (a : A) (k : A -> M B) :
  preserves I (k a) -> preserves I (bind (ret a) k).
Proof. intros Hk s Hs. unfold bind, ret. apply Hk, Hs. Qed.

Lemma extractLinksFrom_silent I anchors :
  silentAnchors anchors -> preserves I (extractLinksFrom anchors).
Proof.
  intros Hq. unfold extractLinksFrom.
  apply preserves_awaited. intros links Hl.
  apply preserves_forOf. intros link Hin.
  pose proof (proj1 (Forall_forall _ _) (Hq links Hl) link Hin) as Hlink.
  apply preserves_awaited. intros [[| c h] |] Hh; try apply preserves_ret.
  destruct (Hlink _ Hh) as (Hp & Hc & Ht).
  apply preserves_bind; [apply matchPlatforms_silent, Hp |]. intros _.
  apply preserves_read. intros s Hs.
  destruct (negb _); [| exact Hs]. cbv zeta. rewrite Hc.
  unfold bind, await. destruct (a_text link) as [text | e]; [| exact Hs].
  rewrite (Ht text eq_refl). exact Hs.
Qed.

Lemma silentElement_scan I o :
  silentElement o ->
  forall el, o = Ok el ->
    preserves I match el with
                | Some h => extractLinksFrom (e_anchors h)
                | None => ret tt
                end.
Proof.
  intros Hq [h |] Ho; [| apply preserves_ret].
  apply extractLinksFrom_silent, (Hq h Ho).
Qed.

Section Page.
Variable p : Page.
Hypothesis Hp : signalFree p.

Lemma strategy1_silent I (HI : forall e, preserves I (emit e)) :
  preserves I (strategy1 p).
Proof.
  unfold strategy1. apply preserves_bind; [apply HI |]. intros _.
  apply preserves_awaited. intros header Hh.
  apply preserves_awaited. intros footer Hf.
  apply preserves_bind.
  - exact (silentElement_scan I _ (sf_header p Hp) header Hh).
  - intros _. exact (silentElement_scan I _ (sf_footer p Hp) footer Hf).
Qed.

(** the strings of a [sameAs] property are strings of the value that has
    it *)
Lemma lookupProp_strings key props v str :
  lookupProp key props = Some v -> str ∈ jsonStrings v ->
  str ∈ jsonStrings (JObject props).
Proof.
  intros Hl Hs. cbn [jsonStrings]. apply list_elem_of_In, in_flat_map.
  induction props as [| [k w] props IH]; [discriminate |].
  cbn [lookupProp] in Hl. destruct (lookupProp key props) as [v' |].
  - destruct (IH Hl) as (kv & Hin & Hstr). exists kv. split; [right; exact Hin | exact Hstr].
  - destruct (String.eqb k key); [| discriminate]. injection Hl as ->.
    exists (k, v). split; [left; reflexivity | apply list_elem_of_In, Hs].
Qed.

Lemma propSameAs_strings v w str :
  propSameAs v = Ok (Some w) -> str ∈ jsonStrings w -> str ∈ jsonStrings v.
Proof.
  destruct v; try discriminate. intros [= Hl]. exact (lookupProp_strings _ _ _ _ Hl).
Qed.

Lemma firstItem_strings v item str :
  firstItem v = Some item -> str ∈ jsonStrings item -> str ∈ jsonStrings v.
Proof.
  destruct v as [| | | | [| x items] |]; try discriminate. intros [= ->] Hs.
  cbn [jsonStrings flat_map]. apply elem_of_app. left. exact Hs.
Qed.

(** the links that a script hands to the loop over the platforms *)
Lemma links_strings (sameAs : option json) link l :
  link ∈ match sameAs with
         | Some (JArray items) => items
         | Some v => [v]
         | None => []
         end ->
  link = JString l ->
  exists w, sameAs = Some w /\ l ∈ jsonStrings w.
Proof.
  intros Hin ->. destruct sameAs as [w |]; [| inversion Hin].
  exists w. split; [reflexivity |].
  destruct w; try (apply list_elem_of_singleton in Hin; try discriminate).
  - injection Hin as ->. left.
  - cbn [jsonStrings]. apply list_elem_of_In, in_flat_map.
    exists (JString l). split; [apply list_elem_of_In, Hin | left; reflexivity].
Qed.

Lemma scanScript_silent I script :
  (forall j, s_parsed script = Ok j -> Forall silentText (jsonStrings j)) ->
  preserves I (scanScript script).
Proof.
  intros Hq. unfold scanScript.
  apply preserves_tryCatch; [| intros e; apply preserves_ret].
  apply preserves_awaited. intros jsonData Hj.
  pose proof (proj1 (Forall_forall _ _) (Hq _ Hj)) as Hsilent.
  apply preserves_awaited. intros direct Hd.
  assert (Hlinks : forall sameAs : option json,
             (forall w str, sameAs = Some w -> str ∈ jsonStrings w ->
                            str ∈ jsonStrings jsonData) ->
             preserves I
               (if jsTruthy sameAs
                then forOf match sameAs with
                           | Some (JArray items) => items
                           | Some v => [v]
                           | None => []
                           end
                       (fun link => match link with
                                    | JString l => matchPlatforms (JS.toLowerCase l) l
                                    | _ => await (Throws "link.toLowerCase is not a function")
                                    end)
                else ret tt)).
  { intros sameAs Hsub. destruct (jsTruthy sameAs); [| apply preserves_ret].
    apply preserves_forOf. intros link Hin.
    destruct link as [| | | l | |]; try apply preserves_await.
    destruct (links_strings sameAs _ l Hin eq_refl) as (w & Hw & Hl).
    apply matchPlatforms_silent, Hsilent, (Hsub w l Hw Hl). }
  destruct (negb (jsTruthy direct) && isArray jsonData && jsTruthy (firstItem jsonData)).
  - destruct (firstItem jsonData) as [item |] eqn:Hitem.
    + apply preserves_awaited. intros sameAs Hs. apply Hlinks.
      intros w str -> Hstr.
      exact (firstItem_strings _ _ _ Hitem (propSameAs_strings _ _ _ Hs Hstr)).
    + apply preserves_returned, Hlinks. intros w str -> Hstr.
      exact (propSameAs_strings _ _ _ Hd Hstr).
  - apply preserves_returned, Hlinks. intros w str -> Hstr.
    exact (propSameAs_strings _ _ _ Hd Hstr).
Qed.

Lemma strategy2_silent I (HI : forall e, preserves I (emit e)) :
  preserves I (strategy2 p).
Proof.
  unfold strategy2. apply preserves_bind; [apply HI |]. intros _.
  apply preserves_awaited. intros scripts Hs.
  apply preserves_forOf. intros script Hin.
  apply scanScript_silent. intros j Hj. exact (sf_jsonLd p Hp _ _ _ Hs Hin Hj).
Qed.

Lemma strategy3_silent I (HI : forall e, preserves I (emit e)) :
  preserves I (strategy3 p).
Proof.
  unfold strategy3. apply preserves_bind; [apply HI |]. intros _.
  apply preserves_awaited. intros links Hl.
  apply preserves_forOf. intros link Hin.
  apply preserves_awaited. intros [[| c h] |] Hh; try apply preserves_ret.
  apply matchPlatforms_silent. exact (sf_relMe p Hp _ _ _ Hl Hin Hh).
Qed.

(** the fourth strategy may write the empty string to the twitter field of
    the fresh record, which leaves the record as it is *)
Lemma strategy4_silent :
  preserves (fun s => result s = initialResult) (strategy4 p).
Proof.
  unfold strategy4. apply preserves_bind; [intros s Hs; exact Hs |]. intros _.
  apply preserves_awaited. intros twitterSite Ht.
  apply preserves_read. intros s Hs. apply preserves_bind_at.
  - destruct twitterSite as [el |]; [| exact Hs].
    destruct (negb _); [| exact Hs].
    unfold bind, await. destruct (m_content el) as [[[| c content] |] | e] eqn:Hc;
      try exact Hs.
    cbn [setProp snd result]. rewrite (sf_twitterSite p Hp _ _ Ht Hc), Hs.
    exact initialResult_twitter.
  - intros _. apply preserves_awaited. intros [el |] Ho; [| apply preserves_ret].
    apply preserves_awaited. intros [[| c content] |] Hc; try apply preserves_ret.
    apply preserves_forOf. intros link Hin.
    apply matchPlatforms_silent.
    exact (proj1 (Forall_forall _ _) (sf_ogSeeAlso p Hp _ _ Ho Hc) link Hin).
Qed.

Lemma strategy5_silent I (HI : forall e, preserves I (emit e)) :
  preserves I (strategy5 p).
Proof.
  unfold strategy5. apply preserves_bind; [apply preserves_getResult |]. intros r.
  apply preserves_when. apply preserves_bind; [apply HI |]. intros _.
  apply extractLinksFrom_silent, (sf_anchors p Hp).
Qed.

Lemma platform_lowercase platform :
  platform ∈ socialPlatforms ->
  JS.toLowerCase (platform +:+ ".com") = platform +:+ ".com".
Proof.
  intros H. apply list_elem_of_In in H. simpl in H.
  repeat (destruct H as [<- | H]; [reflexivity |]). contradiction.
Qed.

Lemma strategy6_silent I (HI : forall e, preserves I (emit e)) :
  preserves I (strategy6 p).
Proof.
  unfold strategy6. apply preserves_bind; [apply preserves_getResult |]. intros r.
  apply preserves_when. apply preserves_bind; [apply HI |]. intros _.
  apply preserves_awaited. intros html Hh.
  apply preserves_forOf. intros platform Hin.
  apply preserves_read. intros s Hs. destruct (negb _); [| exact Hs].
  cbn [when]. destruct (Pattern.exec platform html) as [m |] eqn:Hm; [| exact Hs].
  apply PatternFacts.exec_includes in Hm. rewrite (platform_lowercase _ Hin) in Hm.
  rewrite (silent_platform _ _ (sf_content p Hp _ Hh) Hin) in Hm. discriminate.
Qed.

(** a pass over a page without signals leaves the fresh record as it is *)
Lemma pass_silent : preserves (fun s => result s = initialResult) (pass p).
Proof.
  assert (HI : forall e, preserves (fun s => result s = initialResult) (emit e))
    by (intros e s Hs; exact Hs).
  apply preserves_bind; [| intros _; apply preserves_bind; [| intros _]].
  - apply preserves_bind; [apply strategy1_silent, HI | intros _].
    apply preserves_bind; [apply strategy2_silent, HI | intros _].
    apply preserves_bind; [apply strategy3_silent, HI | intros _].
    apply strategy4_silent.
  - apply strategy5_silent, HI.
  - apply strategy6_silent, HI.
Qed.
End Page.
End Silent.

(** the whole loop over pages without signals leaves the fresh record as it
    is *)
Lemma retryLoop_silent config browser :
  (forall n, signalFree (rendered browser n)) ->
  forall fuel n s o s',
    retryLoop config browser fuel n s = Some (o, s') ->
    result s = initialResult -> result s' = initialResult.
Proof.
  intros Hpages. induction fuel as [| fuel IH]; intros n s o s'; cbn [retryLoop];
    destruct (_ && _); try discriminate; try (intros [= <- <-] Hs; exact Hs).
  intros Hrun Hs.
  assert (Ha : result (attempt config browser (n + 1) s).2 = initialResult).
  { rewrite attempt_result.
    apply (Silent.pass_silent _ (Hpages (n + 1)) (announced (n + 1) s)). exact Hs. }
  destruct (attempt config browser (n + 1) s) as [[[|] | e] s1]; cbn [snd] in Ha.
  - injection Hrun as <- <-. exact Ha.
  - exact (IH _ _ _ _ Hrun Ha).
  - injection Hrun as <- <-. exact Ha.
Qed.

Lemma initialResult_fields :
  Forall (fun field => initialResult !! field = Some "") fieldNames.
Proof. by_evaluation. Qed.

(** C9. A pass over a page with zero matching signals leaves every field of
    the record at the empty string and the completeness predicate false; so
    does a whole invocation whose pages all lack signals, after using up
    its attempts. *)
Theorem C9_no_signal (p : Page) (tr : list event)
        (targetUrl : string) (options : Options) (browser : Browser) :
  signalFree p ->
  (forall n, signalFree (rendered browser n)) ->
  goto browser (normalizeUrl targetUrl) (c_timeout (mkConfig options)) = Ok tt ->
  nothingFound p tr targetUrl options browser.
Proof.
  intros Hp Hpages Hgo. split.
  - cbv zeta.
    rewrite (Silent.pass_silent p Hp {| result := initialResult; trace := tr |} eq_refl).
    split; [exact initialResult_fields | exact initialResult_unresolved].
  - destruct (run_navigated targetUrl options browser Hgo) as (s' & Hloop & Hrun).
    exists (result s'), (trace s'). split; [exact Hrun |].
    pose proof (retryLoop_silent _ _ Hpages _ _ _ _ _ Hloop eq_refl) as Hres.
    destruct (retryLoop_spec _ _ _ _ _ _ _ Hloop) as (_ & es & Hes & _ & _ & Hex).
    simpl in Hes. subst es. rewrite Z.sub_0_r in Hex. rewrite Hres in *.
    split; [exact initialResult_fields |].
    split; [exact initialResult_unresolved | exact (Hex initialResult_unresolved)].
Qed.

Lemma plainPage_signalFree : signalFree plainPage.
Proof.
  assert (Hlinks : Forall silentAnchor
            [ linkTo "/about" "About us"; linkTo "https://example.com/news" "News" ]).
  { constructor; [| constructor; [| constructor]];
      intros href [= <-];
      (split; [vm_compute; reflexivity |]); (split; [vm_compute; reflexivity |]);
      intros text [= <-]; vm_compute; reflexivity. }
  constructor.
  - intros el [= <-] links [= <-]. exact Hlinks.
  - intros el [=].
  - intros scripts script j [= <-] Hin Hj.
    apply list_elem_of_singleton in Hin. subst script. injection Hj as <-.
    by_evaluation.
  - intros links link href [= <-] Hin Hh.
    apply list_elem_of_singleton in Hin. subst link. injection Hh as <-.
    vm_compute. reflexivity.
  - intros el content [=].
  - intros el content [= <-] [= <-]. by_evaluation.
  - intros links [= <-]. exact Hlinks.
  - intros html [= <-]. vm_compute. reflexivity.
Qed.

(** C9 at work: a page with links, structured data and metadata that name
    no platform. *)
Lemma C9_no_signal_witness :
  (signalFree plainPage
   /\ (forall n, signalFree (rendered (Examples.staticBrowser plainPage) n))
   /\ goto (Examples.staticBrowser plainPage) (normalizeUrl "example.com")
           (c_timeout (mkConfig noOptions)) = Ok tt)
  /\ nothingFound plainPage [] "example.com" noOptions (Examples.staticBrowser plainPage).
Proof.
  split.
  - split; [exact plainPage_signalFree |].
    split; [intros n; exact plainPage_signalFree | reflexivity].
  - apply C9_no_signal;
      [exact plainPage_signalFree | intros n; exact plainPage_signalFree | reflexivity].
Defined.

(* ===================================================================== *)
(** ** A mention in the markup only *)
(* ===================================================================== *)

Module PatternFinds.
Import Pattern.

Lemma eatLiteral_append a b :
  forall s,
    eatLiteral (a +:+ b) s
    = match eatLiteral a s with
      | Some rest => eatLiteral b rest
      | None => None
      end.
Proof.
  induction a as [| c a IH]; intros s; [reflexivity |].
  destruct s as [| d s]; [reflexivity |].
  change (String c a +:+ b) with (String c (a +:+ b)). cbn [eatLiteral].
  destruct (Ascii.eqb (JS.lowerChar c) (JS.lowerChar d)); [apply IH | reflexivity].
Qed.

Lemma prefix_eatLiteral lit :
  forall s, String.prefix lit s = true -> exists rest, eatLiteral lit s = Some rest.
Proof.
  induction lit as [| c lit IH]; intros s H; [destruct s; eauto |].
  destruct s as [| d s]; [discriminate |]. cbn [String.prefix] in H.
  destruct (ascii_dec c d) as [<- | ?]; [| discriminate].
  cbn [eatLiteral]. rewrite Ascii.eqb_refl. exact (IH _ H).
Qed.

Lemma prefix_append a b :
  forall s, String.prefix (a +:+ b) s = true -> String.prefix a s = true.
Proof.
  induction a as [| c a IH]; intros s H; [destruct s; reflexivity |].
  destruct s as [| d s]; [discriminate |].
  change (String c a +:+ b) with (String c (a +:+ b)) in H. cbn [String.prefix] in *.
  destruct (ascii_dec c d); [exact (IH _ H) | discriminate].
Qed.

Lemma includes_append a b :
  forall hay, JS.includes (a +:+ b) hay = true -> JS.includes a hay = true.
Proof.
  induction hay as [| c hay IH]; cbn [JS.includes]; intros H;
    apply orb_true_iff in H as [H | H]; try discriminate;
    try (rewrite (prefix_append _ _ _ H); reflexivity).
  rewrite (IH H). apply orb_true_r.
Qed.

Section Platform.
Variable platform : string.

(** where the domain stands, the run before it can end *)
Lemma matchBody_domain s n :
  matchDomain platform s = Some n -> exists n', matchBody platform s = Some n'.
Proof.
  intros H. destruct s as [| c s]; cbn [matchBody]; [eauto |].
  destruct (isBodyChar c); [| eauto].
  destruct (matchBody platform s); eauto.
Qed.

Lemma matchSlashes_found s :
  String.prefix ("//" +:+ platform +:+ ".com") s = true ->
  exists n, matchSlashes platform s = Some (2 + n)%nat.
Proof.
  intros H. destruct (prefix_eatLiteral _ _ H) as [rest He].
  rewrite eatLiteral_append in He. unfold matchSlashes.
  destruct (eatLiteral "//" s) as [r1 |]; [| discriminate].
  assert (Hd : exists n, matchDomain platform r1 = Some n)
    by (unfold matchDomain; rewrite He; eauto).
  destruct Hd as [n Hd]. destruct (matchBody_domain _ _ Hd) as [n' Hb].
  rewrite Hb. eauto.
Qed.

Lemma matchSlashes_length s n : matchSlashes platform s = Some n -> (2 <= n)%nat.
Proof.
  unfold matchSlashes. destruct (eatLiteral "//" s); [| discriminate].
  destruct (matchBody platform _); [| discriminate]. intros [= <-]. lia.
Qed.

Lemma matchAt_found s n :
  matchSlashes platform s = Some n ->
  exists n', matchAt platform s = Some n' /\ (2 <= n')%nat.
Proof.
  intros H. pose proof (matchSlashes_length _ _ H) as Hn. unfold matchAt.
  repeat match goal with
         | |- context [match eatLiteral ?l ?r with _ => _ end] =>
             destruct (eatLiteral l r)
         | |- context [(?f <$> matchSlashes platform ?r)] =>
             destruct (matchSlashes platform r) eqn:?; cbn [fmap option_fmap option_map]
         end;
    rewrite ?H; eexists; (split; [reflexivity | lia]).
Qed.

Lemma substring_nonempty n c s : String.substring 0 (S n) (String c s) <> "".
Proof. discriminate. Qed.

(** a text that has the two slashes and the domain has a match *)
Lemma exec_found html :
  JS.includes ("//" +:+ platform +:+ ".com") html = true ->
  exists m, exec platform html = Some m /\ m <> "".
Proof.
  induction html as [| c html IH]; cbn [JS.includes exec]; intros H.
  - rewrite orb_false_r in H.
    destruct (matchSlashes_found _ H) as [n Hs]. unfold matchSlashes in Hs. discriminate.
  - destruct (matchAt platform (String c html)) as [n |] eqn:Hm.
    + assert (Hn : (2 <= n)%nat).
      { revert Hm. unfold matchAt.
        repeat match goal with
               | |- context [match eatLiteral ?l ?r with _ => _ end] =>
                   destruct (eatLiteral l r)
               | |- context [(?f <$> matchSlashes platform ?r)] =>
                   destruct (matchSlashes platform r) eqn:?;
                   cbn [fmap option_fmap option_map]
               end;
          try discriminate; try (intros [= <-]; lia);
          intros Hs; exact (matchSlashes_length _ _ Hs). }
      destruct n as [| n]; [lia |]. eexists. split; [reflexivity | discriminate].
    + apply orb_true_iff in H as [H | H]; [| exact (IH H)].
      destruct (matchSlashes_found _ H) as [n Hs].
      destruct (matchAt_found _ _ Hs) as (n' & Hn' & _). congruence.
Qed.
End Platform.
End PatternFinds.

(** C8, as the specification states it, fails: the mention
    instagram.com/acme in running text has no two slashes before it, the
    pattern of the sixth strategy does not match, and the field stays empty
    through all attempts. *)
Lemma C8_bare_mention_counterexample :
  let html := "<html><head></head><body><p>Follow us on instagram.com/acme</p></body></html>" in
  JS.includes "instagram.com/acme" html = true
  /\ exists r tr,
      extractSocialLinks "example.com" noOptions (Examples.staticBrowser (markupOnly html))
      = Some (r, tr)
      /\ passes tr = 30%nat
      /\ entered 6 tr = 30%nat
      /\ r !! "instagram" = Some "".
Proof.
  cbv zeta. split; [vm_compute; reflexivity |].
  match goal with
  | |- exists r tr, extractSocialLinks ?u ?o ?b = _ /\ _ =>
      destruct (extractSocialLinks_returns u o b) as (r & tr & Hrun & _)
  end.
  exists r, tr. split; [exact Hrun |].
  destruct (run_parts _ _ _ Hrun) as [<- <-].
  split; [| split]; vm_compute; reflexivity.
Qed.

(** the first five strategies find nothing on such a page *)
Lemma markupOnly_fresh_four html tr :
  strategies1to4 (markupOnly html) {| result := initialResult; trace := tr |}
  = (Ok tt, {| result := initialResult;
               trace := (((tr ++ [Enter 1]) ++ [Enter 2]) ++ [Enter 3]) ++ [Enter 4] |}).
Proof. reflexivity. Qed.

Lemma markupOnly_fresh_fifth html tr :
  strategy5 (markupOnly html) {| result := initialResult; trace := tr |}
  = (Ok tt, {| result := initialResult; trace := tr ++ [Enter 5] |}).
Proof.
  unfold strategy5. unfold bind at 1, getResult. cbn [result].
  rewrite initialResult_unresolved. reflexivity.
Qed.

Lemma strategy6_fresh html tr :
  strategy6 (markupOnly html) {| result := initialResult; trace := tr |}
  = forOf socialPlatforms (searchStep html)
          {| result := initialResult; trace := tr ++ [Enter 6] |}.
Proof.
  unfold strategy6. unfold bind at 1, getResult. cbn [result].
  rewrite initialResult_unresolved. reflexivity.
Qed.

Lemma stable_searchStep R html platform :
  stable R -> platform ∈ socialPlatforms ->
  preserves (onResult R) (searchStep html platform).
Proof.
  intros HR Hp. apply preserves_read. intros s Hs.
  destruct (JS.truthyProp (result s !! platform)) eqn:Ht; [exact Hs |].
  cbn [negb when]. destruct (Pattern.exec platform html); [| exact Hs].
  apply (stable_write R HR); [right; exact Hp | exact Ht | exact Hs].
Qed.

(** the search of the markup resolves the instagram field of the fresh
    record when the pattern for instagram matches *)
Lemma search_instagram html m tr :
  Pattern.exec "instagram" html = Some m -> m <> "" ->
  result (forOf socialPlatforms (searchStep html)
                {| result := initialResult; trace := tr |}).2 !! "instagram" = Some m.
Proof.
  intros Hm Hne. unfold socialPlatforms. cbn [forOf].
  set (rest := forOf ["twitter"; "youtube"; "linkedin"] (searchStep html)).
  assert (Hrest : preserves (onResult (fun r => r !! "instagram" = Some m)) rest).
  { apply preserves_forOf. intros platform Hp.
    apply stable_searchStep.
    - apply lookup_stable. left. apply truthy_true, Hne.
    - unfold socialPlatforms. do 2 right. exact Hp. }
  assert (Hinsta : forall s, result s !! "instagram" = Some "" ->
                             result (bind (searchStep html "instagram") (fun _ => rest) s).2
                             !! "instagram" = Some m).
  { intros s Hs. unfold searchStep at 1. unfold bind, getResult. rewrite Hs, Hm.
    cbn [JS.truthyProp JS.truthy negb when setProp]. apply Hrest.
    unfold onResult. cbn [result]. apply lookup_insert_eq. }
  unfold bind at 1, searchStep at 1. unfold bind at 1, getResult. cbn [result].
  change (JS.truthyProp (initialResult !! "facebook")) with false. cbn [negb when].
  destruct (Pattern.exec "facebook" html) as [m' |]; cbn [setProp ret]; apply Hinsta;
    cbn [result]; [rewrite lookup_insert_ne by discriminate |]; reflexivity.
Qed.

(** a stable property that holds after the first pass holds of what the
    invocation returns *)
Lemma run_after_first R config browser s' :
  stable R -> 1 <= c_maxRetries config ->
  R (result (pass (rendered browser 1) (announced 1 initialState)).2) ->
  retryLoop config browser (Z.to_nat (c_maxRetries config)) 0 initialState = Some (Ok tt, s') ->
  R (result s').
Proof.
  intros HR HN Hfirst.
  destruct (Z.to_nat (c_maxRetries config)) as [| fuel] eqn:Hfuel; [lia |].
  cbn [retryLoop]. change (result initialState) with initialResult.
  rewrite initialResult_unresolved.
  replace (0 <? c_maxRetries config) with true by (symmetry; apply Z.ltb_lt; lia).
  change (0 + 1) with 1. cbn [andb negb].
  pose proof (attempt_result config browser 1 initialState) as Hres.
  destruct (attempt config browser 1 initialState) as [[[|] | e] s1]; cbn [snd] in Hres;
    rewrite <- Hres in Hfirst.
  - intros [= <-]. exact Hfirst.
  - intros Hloop. exact (stable_retryLoop R HR _ _ _ _ _ _ _ Hloop Hfirst).
  - discriminate.
Qed.

(** C8, amended. On a page whose markup mentions the profile as an address
    with its two slashes, //instagram.com/acme with or without http: or
    https: before them, and that has no link and no metadata, the instagram
    field is still empty after strategies 1 to 5 and is resolved by the
    pattern search of strategy 6 in the first pass, to the text the pattern
    matched. *)
Theorem C8_markup_mention (html targetUrl : string) (options : Options) :
  JS.includes "//instagram.com/acme" html = true ->
  1 <= c_maxRetries (mkConfig options) ->
  mentionResolved html targetUrl options.
Proof.
  intros Hin HN.
  destruct (PatternFinds.exec_found "instagram" html
              (PatternFinds.includes_append "//instagram.com" "/acme" html Hin))
    as (m & Hm & Hne).
  assert (Hpass : forall tr,
             result (pass (markupOnly html) {| result := initialResult; trace := tr |}).2
             !! "instagram" = Some m).
  { intros tr. unfold pass.
    rewrite (bind_Ok _ _ _ _ _ (markupOnly_fresh_four html tr)).
    rewrite (bind_Ok _ _ _ _ _ (markupOnly_fresh_fifth html _)).
    rewrite strategy6_fresh. exact (search_instagram html m _ Hm Hne). }
  split.
  - exists {| result := initialResult; trace := [Enter 1; Enter 2; Enter 3; Enter 4] |},
           {| result := initialResult;
              trace := [Enter 1; Enter 2; Enter 3; Enter 4; Enter 5] |}.
    split; [exact (markupOnly_fresh_four html []) |].
    split; [exact (markupOnly_fresh_fifth html _) |].
    split; [vm_compute; reflexivity | reflexivity].
  - exists m. split; [exact Hm |]. split; [exact Hne |].
    split; [exact (Hpass []) |].
    destruct (run_navigated targetUrl options (Examples.staticBrowser (markupOnly html)) eq_refl)
      as (s' & Hloop & Hrun).
    exists (result s'), (trace s'). split; [exact Hrun |]. split.
    + apply (run_first_complete options (Examples.staticBrowser (markupOnly html)) s' HN);
        [| exact Hloop].
      apply hasSocialLinks_true. exists "instagram", m.
      split; [exact (Hpass _) | exact Hne].
    + apply (run_after_first (fun r => r !! "instagram" = Some m) (mkConfig options)
               (Examples.staticBrowser (markupOnly html)) s');
        [apply lookup_stable; left; apply truthy_true, Hne | exact HN
         | exact (Hpass _) | exact Hloop].
Qed.

(** C8 at work: the address of the profile in running text. *)
Lemma C8_markup_mention_witness :
  (JS.includes "//instagram.com/acme"
     "<html><head></head><body><p>Follow us on https://instagram.com/acme</p></body></html>"
   = true
   /\ 1 <= c_maxRetries (mkConfig noOptions))
  /\ mentionResolved
       "<html><head></head><body><p>Follow us on https://instagram.com/acme</p></body></html>"
       "example.com" noOptions.
Proof.
  split; [split; [vm_compute; reflexivity | vm_compute; discriminate] |].
  apply C8_markup_mention; [vm_compute; reflexivity | vm_compute; discriminate].
Defined.

(* ===================================================================== *)
(** ** Supplement: the stop test and the scans of links *)
(* ===================================================================== *)

(** X1. The stop test of the loop, [hasSocialLinks], holds exactly when
    some property of the result object holds a non-empty string, the
    contact property included. *)
Theorem hasSocialLinks_iff_some_value (r : gmap string string) :
  hasSocialLinks r = true <-> exists k v, r !! k = Some v /\ v <> "".
Proof.
  rewrite hasSocialLinks_true. unfold resolved. reflexivity.
Qed.

(** the loop over a list of distinct property names that writes [value]
    where [cond] holds and nothing is there yet *)
Lemma forOf_keys (cond : string -> bool) (value : string) (keys : list string) :
  NoDup keys ->
  forall s,
    let run := forOf keys (fun k =>
                 bind getResult (fun r =>
                   when (negb (JS.truthyProp (r !! k)) && cond k) (setProp k value))) s in
    run.1 = Ok tt
    /\ trace run.2 = trace s
    /\ forall k, result run.2 !! k
                 = if bool_decide (k ∈ keys) && negb (JS.truthyProp (result s !! k)) && cond k
                   then Some value else result s !! k.
Proof.
  induction 1 as [| x keys Hx _ IH]; intros s; cbn [forOf].
  - repeat split.
  - set (b := negb (JS.truthyProp (result s !! x)) && cond x).
    assert (Hstep : exists s1,
               bind getResult (fun r =>
                 when (negb (JS.truthyProp (r !! x)) && cond x) (setProp x value)) s
               = (Ok tt, s1)
               /\ trace s1 = trace s
               /\ forall k, result s1 !! k
                            = if bool_decide (k = x) && b then Some value else result s !! k).
    { unfold bind, getResult. fold b.
      destruct b; cbn [when]; eexists; (split; [reflexivity |]); (split; [reflexivity |]);
        intros k; cbn [result].
      - rewrite andb_true_r. case_bool_decide as Hk.
        + subst k. apply lookup_insert_eq.
        + apply lookup_insert_ne. congruence.
      - rewrite andb_false_r. reflexivity. }
    destruct Hstep as (s1 & Hstep & Htr & Hres).
    rewrite (bind_Ok _ _ _ _ _ Hstep).
    destruct (IH s1) as (Hok & Htr' & Hres'). cbv zeta in Hok, Htr', Hres'.
    split; [exact Hok |]. split; [rewrite Htr'; exact Htr |].
    intros k. rewrite Hres', Hres.
    destruct (decide (k = x)) as [-> | Hne].
    + rewrite (bool_decide_eq_false_2 _ Hx), (bool_decide_eq_true_2 (x = x) eq_refl).
      rewrite (bool_decide_eq_true_2 (x ∈ x :: keys)) by left.
      cbn [andb]. reflexivity.
    + rewrite (bool_decide_eq_false_2 (k = x) Hne). cbn [andb].
      rewrite (bool_decide_ext (k ∈ x :: keys) (k ∈ keys)); [reflexivity |].
      rewrite elem_of_cons. tauto.
Qed.

Lemma socialPlatforms_NoDup : NoDup socialPlatforms.
Proof. by_evaluation. Qed.

Lemma matchPlatforms_matched (lower value : string) (s : state) :
  (matchPlatforms lower value s).1 = Ok tt
  /\ trace (matchPlatforms lower value s).2 = trace s
  /\ forall k, result (matchPlatforms lower value s).2 !! k
               = matched lower value (result s) k.
Proof.
  exact (forOf_keys (fun k => JS.includes (k +:+ ".com") lower) value
                    socialPlatforms socialPlatforms_NoDup s).
Qed.

(** X2. The loop over the platforms never throws and leaves the trace
    alone; it writes [value] to exactly those platform fields that are
    still empty and whose domain occurs in [lower], and touches no other
    property. *)
Theorem matchPlatforms_effect (lower value : string) (s : state) :
  (matchPlatforms lower value s).1 = Ok tt
  /\ trace (matchPlatforms lower value s).2 = trace s
  /\ forall k, result (matchPlatforms lower value s).2 !! k
               = matched lower value (result s) k.
Proof. apply matchPlatforms_matched. Qed.

Lemma contact_no_platform : "contact" ∉ socialPlatforms.
Proof. by_evaluation. Qed.

Lemma usableHref_truthy a h : usableHref a = Some h -> JS.truthyProp (Some h) = true.
Proof.
  unfold usableHref. destruct (a_href a) as [[[| c h'] |] | e]; try discriminate.
  intros [= <-]. reflexivity.
Qed.

(** one more anchor in front of the list *)
Lemma scanned_cons a rest (r r1 : gmap string string) k :
  r1 !! k = scanned [a] r k -> scanned rest r1 k = scanned (a :: rest) r k.
Proof.
  intros H1. unfold scanned in *. rewrite H1. clear H1.
  destruct (JS.truthyProp (r !! k)) eqn:Hk; [rewrite Hk; reflexivity |].
  cbn [firstPlatformLink firstContactLink].
  destruct (usableHref a) as [h |] eqn:Hh.
  - pose proof (usableHref_truthy _ _ Hh) as Ht.
    case_bool_decide as Hplat.
    + destruct (JS.includes (k +:+ ".com") (JS.toLowerCase h)); [rewrite Ht; reflexivity |].
      rewrite Hk. reflexivity.
    + case_bool_decide as Hcontact; [| rewrite Hk; reflexivity].
      destruct (isContactLink a h); [rewrite Ht; reflexivity | rewrite Hk; reflexivity].
  - repeat case_bool_decide; rewrite Hk; reflexivity.
Qed.

Lemma await_Ok {A} (o : outcome A) a s : o = Ok a -> await o s = (Ok a, s).
Proof. intros ->. reflexivity. Qed.

Lemma extractLinksFrom_forOf links :
  extractLinksFrom (Ok links) = forOf links scanAnchor.
Proof. reflexivity. Qed.

(** the scan of one anchor that answers *)
Lemma scan_one a s :
  answering a ->
  exists s1,
    scanAnchor a s = (Ok tt, s1)
    /\ trace s1 = trace s
    /\ forall k, result s1 !! k = scanned [a] (result s) k.
Proof.
  intros [[h Hh] [t Ht]]. unfold scanAnchor, scanned.
  cbn [firstPlatformLink firstContactLink]. unfold usableHref, isContactLink.
  rewrite (bind_Ok _ _ _ _ _ (await_Ok _ _ s Hh)), Hh, Ht.
  assert (Hnone : forall k,
             result s !! k
             = if JS.truthyProp (result s !! k) then result s !! k
               else if bool_decide (k ∈ socialPlatforms) then result s !! k
                    else if bool_decide (k = "contact") then result s !! k
                         else result s !! k)
    by (intros k; repeat (destruct (_ : bool)); reflexivity).
  destruct h as [[| c h] |];
    try (exists s; split; [reflexivity |]; split; [reflexivity | exact Hnone]).
  cbv zeta.
  destruct (matchPlatforms_matched (JS.toLowerCase (String c h)) (String c h) s)
    as (Hok & Htr & Hres).
  destruct (matchPlatforms (JS.toLowerCase (String c h)) (String c h) s) as [o sm] eqn:Hm.
  cbn [fst snd] in Hok, Htr, Hres. subst o.
  rewrite (bind_Ok _ _ _ _ _ Hm). unfold bind at 1, getResult.
  assert (Hcontact : result sm !! "contact" = result s !! "contact").
  { rewrite Hres. unfold matched.
    rewrite (bool_decide_eq_false_2 _ contact_no_platform). reflexivity. }
  rewrite Hcontact.
  set (wanted := JS.includes "/contact" (JS.toLowerCase (String c h))
                 || JS.includes "contact" (JS.toLowerCase t)).
  assert (Hstep : exists s1,
             (if negb (JS.truthyProp (result s !! "contact")) then
                if JS.includes "/contact" (JS.toLowerCase (String c h))
                then setProp "contact" (String c h)
                else bind (await (Ok t)) (fun text =>
                       when (JS.includes "contact" (JS.toLowerCase text))
                            (setProp "contact" (String c h)))
              else ret tt) sm = (Ok tt, s1)
             /\ trace s1 = trace sm
             /\ forall k, result s1 !! k
                          = if bool_decide (k = "contact")
                               && negb (JS.truthyProp (result s !! "contact")) && wanted
                            then Some (String c h) else result sm !! k).
  { unfold wanted.
    destruct (JS.truthyProp (result s !! "contact")); cbn [negb].
    - eexists. repeat split. intros k. rewrite andb_false_r. reflexivity.
    - destruct (JS.includes "/contact" _); cbn [orb].
      + eexists. repeat split. intros k. cbn [result]. rewrite !andb_true_r.
        case_bool_decide as Hk;
          [subst k; apply lookup_insert_eq | apply lookup_insert_ne; congruence].
      + rewrite (bind_Ok _ _ _ _ _ (await_Ok (Ok t) t sm eq_refl)).
        destruct (JS.includes "contact" _); cbn [when].
        * eexists. repeat split. intros k. cbn [result]. rewrite !andb_true_r.
          case_bool_decide as Hk;
            [subst k; apply lookup_insert_eq | apply lookup_insert_ne; congruence].
        * eexists. repeat split. intros k. rewrite andb_false_r. reflexivity. }
  destruct Hstep as (s1 & Hrun & Htr1 & Hres1).
  exists s1. split; [exact Hrun |]. split; [congruence |].
  intros k. rewrite Hres1, Hres. unfold matched, wanted.
  destruct (decide (k = "contact")) as [-> | Hk].
  - rewrite (bool_decide_eq_true_2 ("contact" = "contact") eq_refl).
      rewrite (bool_decide_eq_false_2 _ contact_no_platform). cbn [andb].
      destruct (JS.truthyProp (result s !! "contact")); cbn [negb]; [reflexivity |].
      destruct (_ || _); reflexivity.
  - rewrite (bool_decide_eq_false_2 _ Hk). cbn [andb].
    destruct (JS.truthyProp (result s !! k)); cbn [negb];
      [rewrite andb_false_r; reflexivity |].
    rewrite andb_true_r. case_bool_decide; cbn [andb]; [| reflexivity].
    destruct (JS.includes (k +:+ ".com") _); reflexivity.
Qed.

(** X3. A scan of a list of anchors that all answer never throws and
    leaves the trace alone. A platform field that was empty gets the
    address of the first anchor, in document order, whose address names the
    domain of the platform; the contact field gets the address of the first
    anchor whose address has /contact or whose text has contact; a field
    that held a value, and every other property, is left as it was. *)
Theorem extractLinksFrom_first_match (links : list Anchor) (s : state) :
  Forall answering links ->
  (extractLinksFrom (Ok links) s).1 = Ok tt
  /\ trace (extractLinksFrom (Ok links) s).2 = trace s
  /\ forall k, result (extractLinksFrom (Ok links) s).2 !! k
               = scanned links (result s) k.
Proof.
  rewrite extractLinksFrom_forOf. intros Hall. revert s.
  induction Hall as [| a rest Ha _ IH]; intros s; cbn [forOf].
  - split; [reflexivity |]. split; [reflexivity |]. intros k. unfold scanned.
    cbn [firstPlatformLink firstContactLink].
    repeat (destruct (_ : bool)); reflexivity.
  - destruct (scan_one a s Ha) as (s1 & Hrun & Htr & Hres).
    rewrite (bind_Ok _ _ _ _ _ Hrun).
    destruct (IH s1) as (Hok & Htr' & Hres').
    split; [exact Hok |]. split; [rewrite Htr'; exact Htr |].
    intros k. rewrite Hres'. apply scanned_cons, Hres.
Qed.

(** X3 at work: the first Facebook link and the link named Contact. *)
Lemma extractLinksFrom_first_match_witness :
  Forall answering twoFacebookLinks
  /\ ((extractLinksFrom (Ok twoFacebookLinks) initialState).1 = Ok tt
      /\ trace (extractLinksFrom (Ok twoFacebookLinks) initialState).2 = trace initialState
      /\ forall k, result (extractLinksFrom (Ok twoFacebookLinks) initialState).2 !! k
                   = scanned twoFacebookLinks (result initialState) k).
Proof.
  assert (H : Forall answering twoFacebookLinks)
    by (repeat (constructor; [split; eexists; reflexivity |]); constructor).
  split; [exact H | exact (extractLinksFrom_first_match twoFacebookLinks initialState H)].
Defined.

(** X4. A first pass that finds a contact link and nothing else ends the
    invocation: one pass, no retry, the contact link returned. Social
    links that the page would show at a later attempt are not looked
    for. *)
Theorem contact_link_stops (targetUrl : string) (options : Options)
        (browser : Browser) (v : string) :
  goto browser (normalizeUrl targetUrl) (c_timeout (mkConfig options)) = Ok tt ->
  1 <= c_maxRetries (mkConfig options) ->
  result (pass (rendered browser 1) (announced 1 initialState)).2 !! "contact" = Some v ->
  v <> "" ->
  exists r tr,
    extractSocialLinks targetUrl options browser = Some (r, tr)
    /\ passes tr = 1%nat
    /\ r !! "contact" = Some v.
Proof.
  intros Hgo HN Hcontact Hv.
  destruct (run_navigated targetUrl options browser Hgo) as (s' & Hloop & Hrun).
  exists (result s'), (trace s'). split; [exact Hrun |]. split.
  - apply (run_first_complete options browser s' HN); [| exact Hloop].
    apply hasSocialLinks_true. exists "contact", v. split; assumption.
  - apply (run_after_first (fun r => r !! "contact" = Some v) (mkConfig options) browser s');
      [apply lookup_stable; left; apply truthy_true, Hv | exact HN
       | exact Hcontact | exact Hloop].
Qed.

(** X4 at work: the footer has a contact link only; the page is asked
    once although thirty attempts are allowed. *)
Lemma contact_link_stops_witness :
  (goto (Examples.staticBrowser contactOnly) (normalizeUrl "example.com")
        (c_timeout (mkConfig noOptions)) = Ok tt
   /\ 1 <= c_maxRetries (mkConfig noOptions)
   /\ result (pass (rendered (Examples.staticBrowser contactOnly) 1)
                   (announced 1 initialState)).2 !! "contact" = Some "/contact-us"
   /\ "/contact-us" <> "")
  /\ exists r tr,
      extractSocialLinks "example.com" noOptions (Examples.staticBrowser contactOnly)
      = Some (r, tr)
      /\ passes tr = 1%nat
      /\ r !! "contact" = Some "/contact-us".
Proof.
  assert (HN : 1 <= c_maxRetries (mkConfig noOptions)) by (vm_compute; discriminate).
  assert (Hc : result (pass (rendered (Examples.staticBrowser contactOnly) 1)
                            (announced 1 initialState)).2 !! "contact"
               = Some "/contact-us") by (vm_compute; reflexivity).
  split.
  - split; [reflexivity |]. split; [exact HN |]. split; [exact Hc | discriminate].
  - apply contact_link_stops; [reflexivity | exact HN | exact Hc | discriminate].
Defined.

(* ===================================================================== *)
(** ** Supplement: strings *)
(* ===================================================================== *)

Module StringFacts.

#[local] Arguments String.append : simpl nomatch.

Lemma append_assoc (a b c : string) : (a +:+ b) +:+ c = a +:+ (b +:+ c).
Proof. induction a as [| x a IH]; cbn [String.append]; [| rewrite IH]; reflexivity. Qed.

Lemma append_nil_r (a : string) : a +:+ "" = a.
Proof. induction a as [| x a IH]; cbn [String.append]; [| rewrite IH]; reflexivity. Qed.

Lemma length_append (a b : string) :
  String.length (a +:+ b) = (String.length a + String.length b)%nat.
Proof. induction a as [| x a IH]; cbn [String.append String.length]; [| rewrite IH]; reflexivity. Qed.

Lemma toLowerCase_append (a b : string) :
  JS.toLowerCase (a +:+ b) = JS.toLowerCase a +:+ JS.toLowerCase b.
Proof.
  induction a as [| x a IH]; cbn [String.append JS.toLowerCase]; [| rewrite IH]; reflexivity.
Qed.

Lemma toLowerCase_length (a : string) : String.length (JS.toLowerCase a) = String.length a.
Proof. induction a as [| x a IH]; cbn [JS.toLowerCase String.length]; [| rewrite IH]; reflexivity. Qed.

Lemma lowerChar_idem (c : ascii) : JS.lowerChar (JS.lowerChar c) = JS.lowerChar c.
Proof. destruct c as [[] [] [] [] [] [] [] []]; reflexivity. Qed.

Lemma toLowerCase_idem (a : string) : JS.toLowerCase (JS.toLowerCase a) = JS.toLowerCase a.
Proof.
  induction a as [| x a IH]; cbn [JS.toLowerCase]; [| rewrite IH, lowerChar_idem]; reflexivity.
Qed.

Lemma substring_append (m rest : string) :
  String.substring 0 (String.length m) (m +:+ rest) = m.
Proof.
  induction m as [| x m IH]; cbn [String.append String.length String.substring].
  - destruct rest; reflexivity.
  - rewrite IH. reflexivity.
Qed.

Lemma allChars_append cls (a b : string) :
  allChars cls (a +:+ b) = allChars cls a && allChars cls b.
Proof.
  induction a as [| x a IH]; cbn [String.append allChars]; [reflexivity |].
  rewrite IH. apply andb_assoc.
Qed.

Lemma prefix_refl_append (a b : string) : String.prefix a (a +:+ b) = true.
Proof.
  induction a as [| x a IH]; cbn [String.append String.prefix]; [destruct b; reflexivity |].
  destruct (ascii_dec x x); [exact IH | congruence].
Qed.

Lemma includes_here (needle rest : string) : JS.includes needle (needle +:+ rest) = true.
Proof.
  destruct (needle +:+ rest) eqn:E; cbn [JS.includes]; rewrite <- E, prefix_refl_append;
    reflexivity.
Qed.

Lemma includes_after (needle a b : string) :
  JS.includes needle b = true -> JS.includes needle (a +:+ b) = true.
Proof.
  intros H. induction a as [| x a IH]; cbn [String.append]; [exact H |].
  cbn [JS.includes]. rewrite IH. apply orb_true_r.
Qed.

End StringFacts.

(* ===================================================================== *)
(** ** Supplement: what the pattern matches *)
(* ===================================================================== *)

Module PatternShape.
Import Pattern StringFacts.

#[local] Arguments String.append : simpl nomatch.

Lemma lowerChar_slash (c : ascii) : JS.lowerChar c = "/"%char -> c = "/"%char.
Proof. destruct c as [[] [] [] [] [] [] [] []]; intros H; try reflexivity; discriminate H. Qed.

(** an eaten literal is a prefix that equals the literal up to case *)
Lemma eatLiteral_split lit :
  forall s rest,
    eatLiteral lit s = Some rest ->
    exists l, s = l +:+ rest
              /\ JS.toLowerCase l = JS.toLowerCase lit
              /\ String.length l = String.length lit.
Proof.
  induction lit as [| a lit IH]; intros s rest H.
  - injection H as <-. exists "". repeat split.
  - destruct s as [| b s]; [discriminate |]. cbn [eatLiteral] in H.
    destruct (Ascii.eqb (JS.lowerChar a) (JS.lowerChar b)) eqn:Hab; [| discriminate].
    apply Ascii.eqb_eq in Hab. destruct (IH _ _ H) as (l & -> & Hl & Hn).
    exists (String b l). cbn [String.append JS.toLowerCase String.length].
    rewrite Hl, Hab, Hn. repeat split.
Qed.

Lemma eatLiteral_slashes s rest : eatLiteral "//" s = Some rest -> s = "//" +:+ rest.
Proof.
  destruct s as [| a [| b s]]; cbn [eatLiteral]; try discriminate.
  - destruct (Ascii.eqb _ _); discriminate.
  - destruct (Ascii.eqb (JS.lowerChar "/") (JS.lowerChar a)) eqn:Ha; [| discriminate].
    destruct (Ascii.eqb (JS.lowerChar "/") (JS.lowerChar b)) eqn:Hb; [| discriminate].
    apply Ascii.eqb_eq in Ha, Hb. symmetry in Ha, Hb.
    apply lowerChar_slash in Ha, Hb. subst. intros [= <-]. reflexivity.
Qed.

(** a greedy run is a prefix inside the class *)
Lemma spanLength_split cls s :
  exists t rest, s = t +:+ rest /\ allChars cls t = true
                 /\ String.length t = spanLength cls s.
Proof.
  induction s as [| c s (t & rest & Hs & Ht & Hn)]; [exists "", ""; repeat split |].
  cbn [spanLength]. destruct (cls c) eqn:Hc.
  - exists (String c t), rest. cbn [String.append allChars String.length].
    rewrite <- Hs, Hc, Ht, Hn. repeat split.
  - exists "", (String c s). repeat split.
Qed.

Section Platform.
Variable platform : string.

Local Abbreviation domainShape := (domainShape platform).
Local Abbreviation bodyShape := (bodyShape platform).

Lemma matchDomain_split s n :
  matchDomain platform s = Some n ->
  exists m rest, s = m +:+ rest /\ String.length m = n /\ domainShape m.
Proof.
  unfold matchDomain.
  destruct (eatLiteral (platform +:+ ".com") s) as [r |] eqn:He; [| discriminate].
  intros [= <-]. destruct (eatLiteral_split _ _ _ He) as (d & -> & Hd & Hn).
  destruct (spanLength_split isTailChar r) as (t & rest & -> & Ht & Hlen).
  exists (d +:+ t), rest. split; [symmetry; apply append_assoc |]. split.
  - rewrite length_append, Hn, Hlen. reflexivity.
  - exists d, t. repeat split; assumption.
Qed.

Lemma domain_body m : domainShape m -> bodyShape m.
Proof. intros H. exists "", m. repeat split. exact H. Qed.

Lemma matchBody_split s :
  forall n, matchBody platform s = Some n ->
            exists m rest, s = m +:+ rest /\ String.length m = n /\ bodyShape m.
Proof.
  assert (Hdom : forall s n, matchDomain platform s = Some n ->
                             exists m rest, s = m +:+ rest /\ String.length m = n
                                            /\ bodyShape m).
  { intros s' n H. destruct (matchDomain_split _ _ H) as (m & rest & -> & Hn & Hm).
    exists m, rest. repeat split; [exact Hn | apply domain_body, Hm]. }
  induction s as [| c s IH]; intros n H; [exact (Hdom _ _ H) |].
  cbn [matchBody] in H. destruct (isBodyChar c) eqn:Hc; [| exact (Hdom _ _ H)].
  destruct (matchBody platform s) as [k |]; [| exact (Hdom _ _ H)].
  injection H as <-. destruct (IH _ eq_refl) as (m & rest & -> & Hn & b & m' & -> & Hb & Hm').
  exists (String c (b +:+ m')), rest. split; [reflexivity |]. split.
  - cbn [String.length]. rewrite Hn. reflexivity.
  - exists (String c b), m'. cbn [String.append allChars]. rewrite Hc, Hb.
    repeat split. exact Hm'.
Qed.

Lemma matchSlashes_split s n :
  matchSlashes platform s = Some n ->
  exists m rest, s = ("//" +:+ m) +:+ rest /\ String.length ("//" +:+ m) = n /\ bodyShape m.
Proof.
  unfold matchSlashes. destruct (eatLiteral "//" s) as [r |] eqn:He; [| discriminate].
  apply eatLiteral_slashes in He as ->.
  destruct (matchBody platform r) as [k |] eqn:Hb; [| discriminate].
  cbn [fmap option_fmap option_map]. intros [= <-].
  destruct (matchBody_split _ _ Hb) as (m & rest & -> & Hn & Hm).
  exists m, rest. split; [reflexivity |]. split; [| exact Hm].
  cbn [String.append String.length]. rewrite Hn. reflexivity.
Qed.

(** the three ways the optional scheme can go *)
Lemma matchAt_cases s n :
  matchAt platform s = Some n ->
  matchSlashes platform s = Some n
  \/ (exists r1 r3 k, eatLiteral "http" s = Some r1 /\ eatLiteral ":" r1 = Some r3
                      /\ matchSlashes platform r3 = Some k /\ n = (5 + k)%nat)
  \/ (exists r1 r2 r3 k, eatLiteral "http" s = Some r1 /\ eatLiteral "s" r1 = Some r2
                         /\ eatLiteral ":" r2 = Some r3
                         /\ matchSlashes platform r3 = Some k /\ n = (6 + k)%nat).
Proof.
  unfold matchAt.
  destruct (eatLiteral "http" s) as [r1 |]; [| intros H; left; exact H].
  assert (Hno_s :
    match eatLiteral ":" r1 with
    | Some r3 => (fun n => 5 + n)%nat <$> matchSlashes platform r3
    | None => None
    end = Some n \/ matchSlashes platform s = Some n ->
    matchSlashes platform s = Some n
    \/ (exists r1' r3 k, Some r1 = Some r1' /\ eatLiteral ":" r1' = Some r3
                         /\ matchSlashes platform r3 = Some k /\ n = (5 + k)%nat)
    \/ (exists r1' r2 r3 k, Some r1 = Some r1' /\ eatLiteral "s" r1' = Some r2
                            /\ eatLiteral ":" r2 = Some r3
                            /\ matchSlashes platform r3 = Some k /\ n = (6 + k)%nat)).
  { intros [H | H]; [| left; exact H].
    destruct (eatLiteral ":" r1) as [r3 |] eqn:H3; [| discriminate].
    destruct (matchSlashes platform r3) as [k |] eqn:Hk; [| discriminate].
    injection H as <-. right. left. exists r1, r3, k.
    split; [reflexivity |]. split; [exact H3 |]. split; [exact Hk | reflexivity]. }
  destruct (eatLiteral "s" r1) as [r2 |] eqn:H2.
  - destruct (eatLiteral ":" r2) as [r3 |] eqn:H3.
    + destruct (matchSlashes platform r3) as [k |] eqn:Hk;
        cbn [fmap option_fmap option_map].
      * intros [= <-]. right. right. exists r1, r2, r3, k.
        split; [reflexivity |]. split; [exact H2 |]. split; [exact H3 |].
        split; [exact Hk | reflexivity].
      * intros H. apply Hno_s.
        destruct (match eatLiteral ":" r1 with Some _ => _ | None => _ end);
          [left | right]; exact H.
    + intros H. apply Hno_s.
      destruct (match eatLiteral ":" r1 with Some _ => _ | None => _ end);
        [left | right]; exact H.
  - intros H. apply Hno_s.
    destruct (match eatLiteral ":" r1 with Some _ => _ | None => _ end);
      [left | right]; exact H.
Qed.

Lemma matchAt_split s n :
  matchAt platform s = Some n ->
  exists m rest, s = m +:+ rest /\ String.length m = n /\ matchShape platform m.
Proof.
  assert (Hshape : forall scheme m,
             JS.toLowerCase scheme ∈ [""; "http:"; "https:"] -> bodyShape m ->
             matchShape platform (scheme +:+ "//" +:+ m)).
  { intros scheme m Hs (body & m' & -> & Hb & dom & tail & -> & Hd & Ht).
    exists scheme, body, dom, tail. repeat split; assumption. }
  intros H. destruct (matchAt_cases _ _ H)
    as [Hs | [(r1 & r3 & k & H1 & H3 & Hs & ->)
             | (r1 & r2 & r3 & k & H1 & H2 & H3 & Hs & ->)]].
  - destruct (matchSlashes_split _ _ Hs) as (m & rest & -> & Hn & Hm).
    exists ("//" +:+ m), rest. split; [reflexivity |]. split; [exact Hn |].
    apply (Hshape "" m); [left | exact Hm].
  - destruct (matchSlashes_split _ _ Hs) as (m & rest & -> & Hn & Hm).
    destruct (eatLiteral_split _ _ _ H3) as (l3 & -> & Hl3 & Hn3).
    destruct (eatLiteral_split _ _ _ H1) as (l1 & -> & Hl1 & Hn1).
    exists ((l1 +:+ l3) +:+ "//" +:+ m), rest. split; [| split].
    + rewrite !append_assoc. reflexivity.
    + rewrite length_append, length_append, Hn1, Hn3, Hn. reflexivity.
    + apply Hshape; [| exact Hm]. rewrite toLowerCase_append, Hl1, Hl3. right. left.
  - destruct (matchSlashes_split _ _ Hs) as (m & rest & -> & Hn & Hm).
    destruct (eatLiteral_split _ _ _ H3) as (l3 & -> & Hl3 & Hn3).
    destruct (eatLiteral_split _ _ _ H2) as (l2 & -> & Hl2 & Hn2).
    destruct (eatLiteral_split _ _ _ H1) as (l1 & -> & Hl1 & Hn1).
    exists ((l1 +:+ l2 +:+ l3) +:+ "//" +:+ m), rest. split; [| split].
    + rewrite !append_assoc. reflexivity.
    + rewrite length_append, (length_append l1), (length_append l2), Hn1, Hn2, Hn3, Hn.
      reflexivity.
    + apply Hshape; [| exact Hm]. rewrite !toLowerCase_append, Hl1, Hl2, Hl3.
      right. right. left.
Qed.

(** what a match at the start of a text takes from it *)
Lemma matchAt_sound s n :
  matchAt platform s = Some n ->
  (exists post, s = String.substring 0 n s +:+ post)
  /\ matchShape platform (String.substring 0 n s).
Proof.
  intros H. destruct (matchAt_split _ _ H) as (m & rest & -> & <- & Hs).
  rewrite substring_append. split; [exists rest; reflexivity | exact Hs].
Qed.

Lemma exec_shape html :
  forall m, exec platform html = Some m ->
            (exists pre post, html = pre +:+ m +:+ post) /\ matchShape platform m.
Proof.
  induction html as [| c html IH]; intros m H; cbn [exec] in H.
  - destruct (matchAt platform "") as [n |] eqn:Hm; [| discriminate].
    injection H as <-. destruct (matchAt_sound _ _ Hm) as ((post & E) & Hs).
    split; [exists "", post; exact E | exact Hs].
  - destruct (matchAt platform (String c html)) as [n |] eqn:Hm.
    + injection H as <-. destruct (matchAt_sound _ _ Hm) as ((post & E) & Hs).
      split; [exists "", post; exact E | exact Hs].
    + destruct (IH _ H) as ((pre & post & ->) & Hs).
      split; [exists (String c pre), post; reflexivity | exact Hs].
Qed.

(** a text that equals the literal up to case is eaten *)
Lemma eatLiteral_lower lit :
  forall l rest,
    JS.toLowerCase l = JS.toLowerCase lit -> eatLiteral lit (l +:+ rest) = Some rest.
Proof.
  induction lit as [| a lit IH]; intros [| b l] rest H; try discriminate H; [reflexivity |].
  cbn [JS.toLowerCase] in H. injection H as Hb Hl.
  cbn [String.append eatLiteral]. rewrite Hb, Ascii.eqb_refl. exact (IH _ _ Hl).
Qed.

Lemma matchDomain_shape m rest :
  domainShape m -> exists n, matchDomain platform (m +:+ rest) = Some n.
Proof.
  intros (dom & tail & -> & Hd & _). unfold matchDomain.
  rewrite append_assoc, (eatLiteral_lower _ _ _ Hd). eauto.
Qed.

Lemma matchBody_shape m rest :
  bodyShape m -> exists n, matchBody platform (m +:+ rest) = Some n.
Proof.
  intros (body & m' & -> & Hb & Hm'). rewrite append_assoc.
  destruct (matchDomain_shape m' rest Hm') as [n Hn].
  induction body as [| c body IH]; cbn [String.append].
  - destruct (m' +:+ rest) as [| c s]; cbn [matchBody]; [eauto |].
    destruct (isBodyChar c); [| eauto]. destruct (matchBody platform s); eauto.
  - cbn [allChars] in Hb. apply andb_true_iff in Hb as [Hc Hb].
    destruct (IH Hb) as [k Hk]. cbn [matchBody]. rewrite Hc, Hk. eauto.
Qed.

Lemma matchSlashes_shape m rest :
  bodyShape m -> exists n, matchSlashes platform ("//" +:+ m +:+ rest) = Some n.
Proof.
  intros Hm. destruct (matchBody_shape m rest Hm) as [n Hn].
  unfold matchSlashes. change ("//" +:+ m +:+ rest) with (String "/" (String "/" (m +:+ rest))).
  cbn [eatLiteral]. rewrite Ascii.eqb_refl, Hn. cbn [fmap option_fmap option_map]. eauto.
Qed.

(** the pattern matches at the start of a text that starts with a text of
    its shape *)
Lemma matchAt_shape m rest :
  matchShape platform m -> exists n, matchAt platform (m +:+ rest) = Some n.
Proof.
  intros (scheme & body & dom & tail & -> & Hs & Hb & Hd & Ht).
  assert (Hm : bodyShape (body +:+ dom +:+ tail)).
  { exists body, (dom +:+ tail). repeat split; [exact Hb |]. exists dom, tail.
    repeat split; assumption. }
  destruct (matchSlashes_shape _ rest Hm) as [k Hk].
  assert (E : (scheme +:+ "//" +:+ body +:+ dom +:+ tail) +:+ rest
              = scheme +:+ ("//" +:+ (body +:+ dom +:+ tail) +:+ rest))
    by (rewrite !append_assoc; reflexivity).
  rewrite E. set (x := "//" +:+ (body +:+ dom +:+ tail) +:+ rest) in *.
  apply elem_of_cons in Hs as [Hs | Hs]; [| apply elem_of_cons in Hs as [Hs | Hs]].
  - destruct scheme; [| discriminate Hs]. cbn [String.append].
    destruct (PatternFinds.matchAt_found _ _ _ Hk) as (n' & Hn' & _). eauto.
  - pose proof (eatLiteral_lower "http:" scheme x Hs) as He.
    change "http:" with ("http" +:+ ":") in He.
    rewrite PatternFinds.eatLiteral_append in He. unfold matchAt.
    destruct (eatLiteral "http" (scheme +:+ x)) as [r1 |]; [| discriminate].
    rewrite He, Hk. cbn [fmap option_fmap option_map].
    destruct (match eatLiteral "s" r1 with Some _ => _ | None => _ end); eauto.
  - apply list_elem_of_singleton in Hs.
    pose proof (eatLiteral_lower "https:" scheme x Hs) as He.
    change "https:" with ("http" +:+ "s" +:+ ":") in He.
    rewrite PatternFinds.eatLiteral_append in He. unfold matchAt.
    destruct (eatLiteral "http" (scheme +:+ x)) as [r1 |]; [| discriminate].
    rewrite PatternFinds.eatLiteral_append in He.
    destruct (eatLiteral "s" r1) as [r2 |]; [| discriminate].
    rewrite He, Hk. cbn [fmap option_fmap option_map]. eauto.
Qed.

Lemma exec_finds pre m post :
  matchShape platform m -> exists m', exec platform (pre +:+ m +:+ post) = Some m'.
Proof.
  intros Hm. destruct (matchAt_shape m post Hm) as [n Hn].
  induction pre as [| c pre IH]; cbn [String.append].
  - destruct (m +:+ post) as [| c s]; cbn [exec]; rewrite Hn; eauto.
  - cbn [exec]. destruct (matchAt platform (String c (pre +:+ m +:+ post))); eauto.
Qed.

End Platform.
End PatternShape.

(** X5. Soundness of the last-resort pattern. What [exec] answers is a
    stretch of the markup, and it has the shape of the pattern: an optional
    http: or https:, two slashes, characters other than the two quotes and
    the closing angle bracket, the domain of the platform in whatever case,
    and a run of word characters and . / ? = & % - . *)
Theorem exec_sound (platform html m : string) :
  Pattern.exec platform html = Some m ->
  (exists pre post, html = pre +:+ m +:+ post) /\ matchShape platform m.
Proof. apply PatternShape.exec_shape. Qed.

(** X5 at work: the address in an attribute of an anchor. *)
Lemma exec_sound_witness :
  Pattern.exec "facebook" "<a href='https://www.Facebook.com/acme?ref=1'>us</a>"
  = Some "https://www.Facebook.com/acme?ref=1"
  /\ (exists pre post,
        "<a href='https://www.Facebook.com/acme?ref=1'>us</a>"
        = pre +:+ "https://www.Facebook.com/acme?ref=1" +:+ post)
  /\ matchShape "facebook" "https://www.Facebook.com/acme?ref=1".
Proof.
  assert (H : Pattern.exec "facebook" "<a href='https://www.Facebook.com/acme?ref=1'>us</a>"
              = Some "https://www.Facebook.com/acme?ref=1") by (vm_compute; reflexivity).
  split; [exact H |]. exact (exec_sound _ _ _ H).
Defined.

(** X6. Completeness of the last-resort pattern. [exec] finds a match
    exactly in the markup that has, somewhere, a stretch of the shape of
    the pattern; the match it answers need not be that stretch. *)
Theorem exec_finds_iff (platform html : string) :
  (exists m, Pattern.exec platform html = Some m)
  <-> exists pre m post, html = pre +:+ m +:+ post /\ matchShape platform m.
Proof.
  split.
  - intros (m & H). destruct (PatternShape.exec_shape _ _ _ H) as ((pre & post & E) & Hs).
    exists pre, m, post. split; assumption.
  - intros (pre & m & post & -> & Hs). exact (PatternShape.exec_finds _ pre m post Hs).
Qed.

(* ===================================================================== *)
(** ** Supplement: the values name their platform *)
(* ===================================================================== *)

Module TrimFacts.
Import StringFacts.

Lemma lowerChar_ws (c : ascii) : JS.isWhiteSpace (JS.lowerChar c) = JS.isWhiteSpace c.
Proof. destruct c as [[] [] [] [] [] [] [] []]; reflexivity. Qed.

Lemma toLowerCase_trimStart s :
  JS.toLowerCase (JS.trimStart s) = JS.trimStart (JS.toLowerCase s).
Proof.
  induction s as [| c s IH]; [reflexivity |].
  cbn [JS.trimStart JS.toLowerCase]. rewrite lowerChar_ws.
  destruct (JS.isWhiteSpace c); [exact IH | reflexivity].
Qed.

Lemma toLowerCase_trimEnd s :
  JS.toLowerCase (JS.trimEnd s) = JS.trimEnd (JS.toLowerCase s).
Proof.
  induction s as [| c s IH]; [reflexivity |].
  cbn [JS.trimEnd JS.toLowerCase]. rewrite <- IH, lowerChar_ws.
  destruct (JS.trimEnd s) as [| d t]; cbn [JS.toLowerCase]; [| reflexivity].
  destruct (JS.isWhiteSpace c); reflexivity.
Qed.

Lemma toLowerCase_trim s : JS.toLowerCase (JS.trim s) = JS.trim (JS.toLowerCase s).
Proof. unfold JS.trim. rewrite toLowerCase_trimEnd, toLowerCase_trimStart. reflexivity. Qed.

Lemma includes_empty c needle : JS.includes (String c needle) "" = false.
Proof. reflexivity. Qed.

Lemma includes_trimStart c needle s :
  JS.isWhiteSpace c = false ->
  JS.includes (String c needle) s = true ->
  JS.includes (String c needle) (JS.trimStart s) = true.
Proof.
  intros Hc. induction s as [| d s IH]; intros H; [exact H |].
  cbn [JS.trimStart]. destruct (JS.isWhiteSpace d) eqn:Hd; [| exact H].
  apply IH. cbn [JS.includes String.prefix] in H.
  destruct (ascii_dec c d) as [-> | _]; [congruence |]. exact H.
Qed.

Lemma prefix_trimEnd needle :
  forall s,
    needle <> "" ->
    allChars (fun c => negb (JS.isWhiteSpace c)) needle = true ->
    String.prefix needle s = true ->
    String.prefix needle (JS.trimEnd s) = true.
Proof.
  induction needle as [| a needle IH]; intros s Hne Hall H; [congruence |].
  destruct s as [| c s]; [discriminate H |].
  cbn [String.prefix] in H. destruct (ascii_dec a c) as [<- | _]; [| discriminate H].
  cbn [allChars] in Hall. apply andb_true_iff in Hall as [Ha Hall].
  apply negb_true_iff in Ha. cbn [JS.trimEnd].
  destruct needle as [| b needle].
  - destruct (JS.trimEnd s); [rewrite Ha |]; apply PatternFacts.prefix_cons.
  - assert (Hp : String.prefix (String b needle) (JS.trimEnd s) = true)
      by (apply IH; [discriminate | exact Hall | exact H]).
    destruct (JS.trimEnd s) as [| d t]; [discriminate Hp |].
    rewrite PatternFacts.prefix_cons. exact Hp.
Qed.

Lemma includes_trimEnd needle s :
  needle <> "" ->
  allChars (fun c => negb (JS.isWhiteSpace c)) needle = true ->
  JS.includes needle s = true ->
  JS.includes needle (JS.trimEnd s) = true.
Proof.
  intros Hne Hall. induction s as [| c s IH]; intros H.
  - destruct needle; [congruence | discriminate H].
  - cbn [JS.includes] in H. apply orb_true_iff in H as [H | H].
    + apply PatternFacts.prefix_includes, prefix_trimEnd; assumption.
    + specialize (IH H). cbn [JS.trimEnd].
      destruct (JS.trimEnd s) as [| d t].
      * destruct needle; [congruence | discriminate IH].
      * apply PatternFacts.includes_cons, IH.
Qed.

(** a needle without white space that is in a text is in the trimmed
    text *)
Lemma includes_trim needle s :
  needle <> "" ->
  allChars (fun c => negb (JS.isWhiteSpace c)) needle = true ->
  JS.includes needle s = true ->
  JS.includes needle (JS.trim s) = true.
Proof.
  intros Hne Hall H. unfold JS.trim. apply includes_trimEnd; [assumption .. |].
  destruct needle as [| c needle]; [congruence |].
  cbn [allChars] in Hall. apply andb_true_iff in Hall as [Hc _].
  apply negb_true_iff in Hc. apply includes_trimStart; assumption.
Qed.

End TrimFacts.

Module Provenance.
Import Social SocialFacts StringFacts.

#[local] Arguments JS.includes : simpl never.
#[local] Arguments JS.toLowerCase : simpl never.
#[local] Arguments JS.trim : simpl never.
#[local] Arguments JS.splitChar : simpl never.
#[local] Arguments Pattern.exec : simpl never.

(** the domains of the platforms are in lower case and have no white
    space *)
Lemma domain_plain k :
  k ∈ socialPlatforms ->
  JS.toLowerCase (k +:+ ".com") = k +:+ ".com"
  /\ k +:+ ".com" <> ""
  /\ allChars (fun c => negb (JS.isWhiteSpace c)) (k +:+ ".com") = true.
Proof.
  intros Hk. apply list_elem_of_In in Hk. simpl in Hk.
  destruct Hk as [<- | [<- | [<- | [<- | [<- | []]]]]];
    (split; [reflexivity | split; [discriminate | reflexivity]]).
Qed.

Lemma platform_not_error k e url : k ∈ socialPlatforms -> errorRecord e url !! k = None.
Proof.
  intros Hk. apply list_elem_of_In in Hk. simpl in Hk. unfold errorRecord.
  destruct Hk as [<- | [<- | [<- | [<- | [<- | []]]]]];
    (rewrite lookup_insert_ne by discriminate; apply lookup_singleton_ne; discriminate).
Qed.

Lemma named_initial : namesOwnPlatform initialResult.
Proof.
  intros k v _ _ Hv Hne. exfalso.
  apply (proj1 (hasSocialLinks_false _) initialResult_unresolved k).
  exists v. split; assumption.
Qed.

Lemma named_errorRecord e url : namesOwnPlatform (errorRecord e url).
Proof. intros k v Hk _ Hv. rewrite (platform_not_error _ _ _ Hk) in Hv. discriminate. Qed.

(** a write keeps the property when, to a platform field other than
    twitter, it writes a value that names the platform *)
Lemma named_write s k v :
  (k ∈ socialPlatforms -> k <> "twitter" ->
   JS.includes (k +:+ ".com") (JS.toLowerCase v) = true) ->
  onResult namesOwnPlatform s -> onResult namesOwnPlatform (setProp k v s).2.
Proof.
  intros Hv Hs k' v' Hk' Ht Hlook Hne. cbn [setProp snd result] in Hlook.
  destruct (decide (k = k')) as [<- | Hkk].
  - rewrite lookup_insert_eq in Hlook. injection Hlook as <-. exact (Hv Hk' Ht).
  - rewrite lookup_insert_ne in Hlook by exact Hkk. exact (Hs k' v' Hk' Ht Hlook Hne).
Qed.

Lemma named_emit e : preserves (onResult namesOwnPlatform) (emit e).
Proof. intros s Hs. exact Hs. Qed.

Lemma named_matchPlatforms lower value :
  (forall k, k ∈ socialPlatforms -> JS.includes (k +:+ ".com") lower = true ->
             JS.includes (k +:+ ".com") (JS.toLowerCase value) = true) ->
  preserves (onResult namesOwnPlatform) (matchPlatforms lower value).
Proof.
  intros Hv. apply preserves_forOf. intros platform Hp.
  apply preserves_read. intros s Hs.
  destruct (JS.truthyProp (result s !! platform)); cbn [negb andb when]; [exact Hs |].
  destruct (JS.includes (platform +:+ ".com") lower) eqn:Hin; cbn [when]; [| exact Hs].
  apply named_write; [| exact Hs]. intros _ _. exact (Hv _ Hp Hin).
Qed.

Lemma named_matchOwn value :
  preserves (onResult namesOwnPlatform) (matchPlatforms (JS.toLowerCase value) value).
Proof. apply named_matchPlatforms. intros k _ H. exact H. Qed.

Lemma named_contact s v :
  onResult namesOwnPlatform s -> onResult namesOwnPlatform (setProp "contact" v s).2.
Proof.
  apply named_write. intros H. exfalso. revert H. by_evaluation.
Qed.

Lemma named_extractLinksFrom anchors :
  preserves (onResult namesOwnPlatform) (extractLinksFrom anchors).
Proof.
  apply preserves_bind; [apply preserves_await |]. intros links.
  apply preserves_forOf. intros link _.
  apply preserves_bind; [apply preserves_await |]. intros [[| c href] |];
    try apply preserves_ret.
  apply preserves_bind; [apply named_matchOwn |]. intros _.
  apply preserves_read. intros s Hs.
  destruct (JS.truthyProp (result s !! "contact")); cbn [negb]; [exact Hs |].
  destruct (JS.includes "/contact" _); [apply named_contact, Hs |].
  unfold bind, await. destruct (a_text link) as [text | e]; cbn [fst snd]; [| exact Hs].
  destruct (JS.includes "contact" _); cbn [when]; [apply named_contact, Hs | exact Hs].
Qed.

Lemma named_strategy1 p : preserves (onResult namesOwnPlatform) (strategy1 p).
Proof.
  apply preserves_bind; [apply named_emit |]. intros _.
  apply preserves_bind; [apply preserves_await |]. intros header.
  apply preserves_bind; [apply preserves_await |]. intros footer.
  apply preserves_bind.
  - destruct header; [apply named_extractLinksFrom | apply preserves_ret].
  - intros _. destruct footer; [apply named_extractLinksFrom | apply preserves_ret].
Qed.

Lemma named_scanScript script : preserves (onResult namesOwnPlatform) (scanScript script).
Proof.
  apply preserves_tryCatch; [| intros e; apply preserves_ret].
  apply preserves_bind; [apply preserves_await |]. intros jsonData.
  apply preserves_bind; [apply preserves_await |]. intros direct.
  apply preserves_bind.
  - destruct (_ && _); [| apply preserves_ret].
    destruct (firstItem jsonData); [apply preserves_await | apply preserves_ret].
  - intros sameAs. destruct (jsTruthy sameAs); [| apply preserves_ret].
    apply preserves_forOf. intros link _.
    destruct link; try apply preserves_await. apply named_matchOwn.
Qed.

Lemma named_strategy2 p : preserves (onResult namesOwnPlatform) (strategy2 p).
Proof.
  apply preserves_bind; [apply named_emit |]. intros _.
  apply preserves_bind; [apply preserves_await |]. intros scripts.
  apply preserves_forOf. intros script _. apply named_scanScript.
Qed.

Lemma named_strategy3 p : preserves (onResult namesOwnPlatform) (strategy3 p).
Proof.
  apply preserves_bind; [apply named_emit |]. intros _.
  apply preserves_bind; [apply preserves_await |]. intros links.
  apply preserves_forOf. intros link _.
  apply preserves_bind; [apply preserves_await |]. intros [[| c href] |];
    try apply preserves_ret.
  apply named_matchOwn.
Qed.

Lemma named_strategy4 p : preserves (onResult namesOwnPlatform) (strategy4 p).
Proof.
  apply preserves_bind; [apply named_emit |]. intros _.
  apply preserves_bind; [apply preserves_await |]. intros twitterSite.
  apply preserves_read. intros s Hs.
  apply preserves_bind_at.
  - destruct twitterSite as [el |]; [| exact Hs].
    destruct (JS.truthyProp (result s !! "twitter")); cbn [negb]; [exact Hs |].
    unfold bind, await. destruct (m_content el) as [[[| c content] |] | e]; cbn [fst snd];
      try exact Hs.
    apply named_write; [| exact Hs]. intros _ Ht. congruence.
  - intros _.
    apply preserves_bind; [apply preserves_await |]. intros [el |];
      [| apply preserves_ret].
    apply preserves_bind; [apply preserves_await |]. intros [[| c content] |];
      try apply preserves_ret.
    apply preserves_forOf. intros link _. apply named_matchPlatforms.
    intros k Hk Hin. destruct (domain_plain k Hk) as (_ & Hne & Hall).
    rewrite TrimFacts.toLowerCase_trim. apply TrimFacts.includes_trim; assumption.
Qed.

Lemma named_strategy5 p : preserves (onResult namesOwnPlatform) (strategy5 p).
Proof.
  apply preserves_bind; [apply preserves_getResult |]. intros r.
  apply preserves_when.
  apply preserves_bind; [apply named_emit |]. intros _.
  apply named_extractLinksFrom.
Qed.

(** a text of the shape of the pattern names the domain *)
Lemma shape_names k m :
  k ∈ socialPlatforms -> matchShape k m ->
  JS.includes (k +:+ ".com") (JS.toLowerCase m) = true.
Proof.
  intros Hk (scheme & body & dom & tail & -> & _ & _ & Hd & _).
  destruct (domain_plain k Hk) as (Hlow & _ & _).
  rewrite !toLowerCase_append, Hd, Hlow.
  do 3 apply includes_after. apply includes_here.
Qed.

Lemma named_strategy6 p : preserves (onResult namesOwnPlatform) (strategy6 p).
Proof.
  apply preserves_bind; [apply preserves_getResult |]. intros r.
  apply preserves_when.
  apply preserves_bind; [apply named_emit |]. intros _.
  apply preserves_bind; [apply preserves_await |]. intros html.
  apply preserves_forOf. intros platform Hp.
  apply preserves_read. intros s Hs.
  destruct (JS.truthyProp (result s !! platform)); cbn [negb when]; [exact Hs |].
  destruct (Pattern.exec platform html) as [m |] eqn:Hm; [| exact Hs].
  apply named_write; [| exact Hs]. intros _ _.
  apply shape_names; [exact Hp |]. exact (proj2 (PatternShape.exec_shape _ _ _ Hm)).
Qed.

Lemma named_pass p : preserves (onResult namesOwnPlatform) (pass p).
Proof.
  apply preserves_bind.
  - apply preserves_bind; [apply named_strategy1 |]. intros _.
    apply preserves_bind; [apply named_strategy2 |]. intros _.
    apply preserves_bind; [apply named_strategy3 |]. intros _.
    apply named_strategy4.
  - intros _. apply preserves_bind; [apply named_strategy5 |]. intros _.
    apply named_strategy6.
Qed.

Lemma named_attempt config browser n :
  preserves (onResult namesOwnPlatform) (attempt config browser n).
Proof.
  apply preserves_bind; [apply named_emit |]. intros _.
  apply preserves_tryCatch.
  - apply preserves_bind; [apply named_pass |]. intros _.
    apply preserves_bind; [apply preserves_getResult |]. intros r.
    apply preserves_bind; [apply named_emit |]. intros _.
    destruct (_ || _); [apply preserves_ret |].
    apply preserves_bind; [apply named_emit | intros _; apply preserves_ret].
  - intros e. apply preserves_bind; [apply named_emit | intros _; apply preserves_ret].
Qed.

Lemma named_retryLoop config browser fuel :
  forall n s o s',
    retryLoop config browser fuel n s = Some (o, s') ->
    onResult namesOwnPlatform s -> onResult namesOwnPlatform s'.
Proof.
  induction fuel as [| fuel IH]; intros n s o s' Hrun Hs; simpl in Hrun;
    destruct (_ && _); try discriminate; try (injection Hrun as <- <-; exact Hs).
  pose proof (named_attempt config browser (n + 1) s Hs) as Ha.
  destruct (attempt config browser (n + 1) s) as [[[|] | e] s1]; simpl in Ha.
  - injection Hrun as <- <-. exact Ha.
  - eapply IH; eassumption.
  - injection Hrun as <- <-. exact Ha.
Qed.

Lemma named_run targetUrl options browser :
  namesOwnPlatform (returned (extractSocialLinks targetUrl options browser)).
Proof.
  unfold extractSocialLinks.
  destruct (goto browser _ _); [| apply named_errorRecord].
  destruct (retryLoop _ _ _ _ _) as [[[[] | e] s'] |] eqn:Hloop; cbn [returned].
  - exact (named_retryLoop _ _ _ _ _ _ _ Hloop named_initial).
  - apply named_errorRecord.
  - intros k v _ _ Hv. rewrite lookup_empty in Hv. discriminate.
Qed.

End Provenance.

(** X7. Whatever the pages show, a facebook, instagram, youtube or
    linkedin value that the extractor returns names the domain of its own
    platform, in whatever case. The twitter value is left out: it may be
    the content of the twitter:site tag, which need not be an address. *)
Theorem links_name_their_platform (targetUrl : string) (options : Options)
        (browser : Browser) (k v : string) :
  k ∈ socialPlatforms -> k <> "twitter" ->
  returned (extractSocialLinks targetUrl options browser) !! k = Some v ->
  v <> "" ->
  JS.includes (k +:+ ".com") (JS.toLowerCase v) = true.
Proof. apply Provenance.named_run. Qed.

(** X7 at work, the facebook value; on the same page the twitter value is
    the handle of the twitter:site tag and names no domain. *)
Lemma links_name_their_platform_witness :
  ("facebook" ∈ socialPlatforms /\ "facebook" <> "twitter"
   /\ returned (extractSocialLinks "example.com" noOptions
                  (Examples.staticBrowser handleAndLink)) !! "facebook"
      = Some "https://www.Facebook.com/acme"
   /\ "https://www.Facebook.com/acme" <> "")
  /\ JS.includes ("facebook" +:+ ".com") (JS.toLowerCase "https://www.Facebook.com/acme")
     = true
  /\ returned (extractSocialLinks "example.com" noOptions
                 (Examples.staticBrowser handleAndLink)) !! "twitter" = Some "@acme".
Proof.
  assert (Hk : "facebook" ∈ socialPlatforms) by by_evaluation.
  assert (Hv : returned (extractSocialLinks "example.com" noOptions
                           (Examples.staticBrowser handleAndLink)) !! "facebook"
               = Some "https://www.Facebook.com/acme") by (vm_compute; reflexivity).
  split; [| split].
  - split; [exact Hk |]. split; [discriminate |]. split; [exact Hv | discriminate].
  - exact (links_name_their_platform _ _ _ _ _ Hk ltac:(discriminate) Hv ltac:(discriminate)).
  - vm_compute. reflexivity.
Defined.

(* ===================================================================== *)
(** ** Supplement: scans that are cut short *)
(* ===================================================================== *)

(** X8. A scan of anchors stops at the first anchor whose address query
    throws: the scan throws that error, the anchors after it are not
    looked at, and what the anchors before it resolved stays in the
    result. *)
Theorem extractLinksFrom_stops_at_failure (front rest : list Anchor) (bad : Anchor)
        (e : string) (s : state) :
  Forall answering front ->
  a_href bad = Throws e ->
  (extractLinksFrom (Ok (front ++ bad :: rest)) s).1 = Throws e
  /\ trace (extractLinksFrom (Ok (front ++ bad :: rest)) s).2 = trace s
  /\ forall k, result (extractLinksFrom (Ok (front ++ bad :: rest)) s).2 !! k
               = scanned front (result s) k.
Proof.
  rewrite extractLinksFrom_forOf. intros Hall Hbad. revert s.
  induction Hall as [| a front Ha _ IH]; intros s; cbn [forOf app].
  - assert (Hrun : scanAnchor bad s = (Throws e, s))
      by (unfold scanAnchor, bind, await; rewrite Hbad; reflexivity).
    rewrite (bind_Throws _ _ _ _ _ Hrun).
    split; [reflexivity |]. split; [reflexivity |]. intros k. unfold scanned.
    cbn [firstPlatformLink firstContactLink snd].
    repeat (destruct (_ : bool)); reflexivity.
  - destruct (scan_one a s Ha) as (s1 & Hrun & Htr & Hres).
    rewrite (bind_Ok _ _ _ _ _ Hrun).
    destruct (IH s1) as (Hok & Htr' & Hres').
    split; [exact Hok |]. split; [rewrite Htr'; exact Htr |].
    intros k. rewrite Hres'. apply scanned_cons, Hres.
Qed.

(** X8 at work: the Facebook link before the detached anchor is kept, the
    Instagram link after it is never seen. *)
Lemma extractLinksFrom_stops_at_failure_witness :
  (Forall answering beforeDetached
   /\ a_href detachedAnchor = Throws "Element is not attached to the DOM")
  /\ (extractLinksFrom (Ok (beforeDetached ++ detachedAnchor :: afterDetached))
                       initialState).1
     = Throws "Element is not attached to the DOM"
  /\ result (extractLinksFrom (Ok (beforeDetached ++ detachedAnchor :: afterDetached))
                              initialState).2 !! "facebook"
     = Some "https://www.facebook.com/acme"
  /\ result (extractLinksFrom (Ok (beforeDetached ++ detachedAnchor :: afterDetached))
                              initialState).2 !! "instagram"
     = Some "".
Proof.
  assert (H : Forall answering beforeDetached)
    by (repeat (constructor; [split; eexists; reflexivity |]); constructor).
  destruct (extractLinksFrom_stops_at_failure
              beforeDetached afterDetached detachedAnchor
              "Element is not attached to the DOM" initialState H eq_refl)
    as (Hthrow & _ & Hres).
  split; [split; [exact H | reflexivity] |].
  split; [exact Hthrow |].
  split; [rewrite (Hres "facebook") | rewrite (Hres "instagram")];
    vm_compute; reflexivity.
Defined.

(** the loop over the entries of a sameAs array up to an entry that is no
    string *)
Lemma forOf_sameAs (ls : list string) (x : json) (rest : list json) (s : state) :
  (forall l, x <> JString l) ->
  exists e,
    forOf (map JString ls ++ x :: rest)
          (fun link => match link with
                       | JString l => matchPlatforms (JS.toLowerCase l) l
                       | _ => await (Throws "link.toLowerCase is not a function")
                       end) s
    = (Throws e,
       (forOf ls (fun l => matchPlatforms (JS.toLowerCase l) l) s).2).
Proof.
  intros Hx. revert s. induction ls as [| l ls IH]; intros s; cbn [map app forOf].
  - exists "link.toLowerCase is not a function".
    destruct x; try reflexivity. exfalso. exact (Hx _ eq_refl).
  - destruct (matchPlatforms_matched (JS.toLowerCase l) l s) as (Hok & _ & _).
    destruct (matchPlatforms (JS.toLowerCase l) l s) as [o s1] eqn:Hm.
    cbn [fst] in Hok. subst o.
    rewrite !(bind_Ok _ _ _ _ _ Hm). apply IH.
Qed.

(** X9. A structured-data object whose sameAs array holds an entry that
    is no string: the entries before it are matched against the
    platforms, the entries after it are never looked at, and the error the
    entry raises is swallowed, so the script answers as if the array had
    ended there. *)
Theorem scanScript_stops_at_non_string (props : list (string * json)) (ls : list string)
        (x : json) (rest : list json) (s : state) :
  lookupProp "sameAs" props = Some (JArray (map JString ls ++ x :: rest)) ->
  (forall l, x <> JString l) ->
  scanScript {| s_parsed := Ok (JObject props) |} s
  = (Ok tt, (forOf ls (fun l => matchPlatforms (JS.toLowerCase l) l) s).2).
Proof.
  intros Hprops Hx. unfold scanScript, tryCatch.
  cbn [s_parsed]. unfold bind at 1, await at 1. unfold bind at 1, await at 1.
  cbn [propSameAs]. rewrite Hprops. cbn [jsTruthy negb andb].
  unfold bind at 1, ret at 1.
  destruct (forOf_sameAs ls x rest s Hx) as [e He].
  change (jsTruthy (Some (JArray (map JString ls ++ x :: rest)))) with true.
  cbv iota. rewrite He. reflexivity.
Qed.

(** X9 at work: the number after the Facebook address hides the Instagram
    address. *)
Lemma scanScript_stops_at_non_string_witness :
  (lookupProp "sameAs" mixedSameAs
   = Some (JArray (map JString ["https://facebook.com/acme"]
                   ++ JNumber 7 :: [JString "https://instagram.com/acme"]))
   /\ forall l, JNumber 7 <> JString l)
  /\ (scanScript {| s_parsed := Ok (JObject mixedSameAs) |} initialState).1 = Ok tt
  /\ result (scanScript {| s_parsed := Ok (JObject mixedSameAs) |} initialState).2
     !! "facebook" = Some "https://facebook.com/acme"
  /\ result (scanScript {| s_parsed := Ok (JObject mixedSameAs) |} initialState).2
     !! "instagram" = Some "".
Proof.
  assert (Hx : forall l, JNumber 7 <> JString l) by discriminate.
  split; [split; [reflexivity | exact Hx] |].
  rewrite (scanScript_stops_at_non_string mixedSameAs ["https://facebook.com/acme"]
             (JNumber 7) [JString "https://instagram.com/acme"] initialState eq_refl Hx).
  split; [reflexivity |]. split; vm_compute; reflexivity.
Defined.

(* ===================================================================== *)
(** ** Supplement: the normalized addresses *)
(* ===================================================================== *)

Module NormalFacts.
Import StringFacts.

#[local] Arguments String.append : simpl nomatch.

Lemma trimEnd_idem s : JS.trimEnd (JS.trimEnd s) = JS.trimEnd s.
Proof.
  induction s as [| c s IH]; [reflexivity |]. cbn [JS.trimEnd].
  destruct (JS.trimEnd s) as [| d t] eqn:E.
  - destruct (JS.isWhiteSpace c) eqn:Hc; [reflexivity |]. cbn [JS.trimEnd]. rewrite Hc.
    reflexivity.
  - change (JS.trimEnd (String c (String d t)))
      with (match JS.trimEnd (String d t) with
            | EmptyString => if JS.isWhiteSpace c then EmptyString else String c EmptyString
            | t' => String c t'
            end).
    rewrite IH. reflexivity.
Qed.

Lemma trimStart_clean s : startsClean (JS.trimStart s) = true.
Proof.
  induction s as [| c s IH]; [reflexivity |]. cbn [JS.trimStart].
  destruct (JS.isWhiteSpace c) eqn:Hc; [exact IH |]. cbn [startsClean]. rewrite Hc.
  reflexivity.
Qed.

Lemma clean_trimStart s : startsClean s = true -> JS.trimStart s = s.
Proof.
  destruct s as [| c s]; [reflexivity |]. cbn [startsClean JS.trimStart].
  intros H. apply negb_true_iff in H. rewrite H. reflexivity.
Qed.

Lemma trimEnd_clean s : startsClean s = true -> startsClean (JS.trimEnd s) = true.
Proof.
  destruct s as [| c s]; [reflexivity |]. cbn [startsClean JS.trimEnd]. intros H.
  destruct (JS.trimEnd s); [| exact H].
  apply negb_true_iff in H. rewrite H. cbn [startsClean]. rewrite H. reflexivity.
Qed.

Lemma trim_idem s : JS.trim (JS.trim s) = JS.trim s.
Proof.
  unfold JS.trim.
  rewrite (clean_trimStart (JS.trimEnd (JS.trimStart s))).
  - apply trimEnd_idem.
  - apply trimEnd_clean, trimStart_clean.
Qed.

Lemma trimEnd_cons c t :
  JS.trimEnd t = t -> t <> "" \/ JS.isWhiteSpace c = false ->
  JS.trimEnd (String c t) = String c t.
Proof.
  intros Ht Hc. cbn [JS.trimEnd]. rewrite Ht.
  destruct t as [| d t]; [| reflexivity].
  destruct Hc as [Hc | Hc]; [congruence |]. rewrite Hc. reflexivity.
Qed.

(** white-space-free text in front of a trimmed text *)
Lemma trimEnd_append a t :
  allChars (fun c => negb (JS.isWhiteSpace c)) a = true ->
  JS.trimEnd t = t -> JS.trimEnd (a +:+ t) = a +:+ t.
Proof.
  intros Ha Ht. induction a as [| c a IH]; cbn [String.append]; [exact Ht |].
  cbn [allChars] in Ha. apply andb_true_iff in Ha as [Hc Ha].
  apply trimEnd_cons; [exact (IH Ha) | right; apply negb_true_iff, Hc].
Qed.

Lemma trim_append a t :
  a <> "" -> allChars (fun c => negb (JS.isWhiteSpace c)) a = true ->
  JS.trim t = t -> JS.trim (a +:+ t) = a +:+ t.
Proof.
  intros Hne Ha Ht. unfold JS.trim.
  assert (Hstart : JS.trimStart (a +:+ t) = a +:+ t).
  { destruct a as [| c a]; [congruence |]. cbn [allChars] in Ha.
    apply andb_true_iff in Ha as [Hc _]. apply clean_trimStart. exact Hc. }
  rewrite Hstart. apply trimEnd_append; [exact Ha |].
  unfold JS.trim in Ht. rewrite <- Ht at 1. rewrite trimEnd_idem. exact Ht.
Qed.

Lemma hasHttpScheme_append a t :
  JS.hasHttpScheme a = true -> JS.hasHttpScheme (a +:+ t) = true.
Proof.
  unfold JS.hasHttpScheme. rewrite toLowerCase_append.
  assert (Hp : forall p x y, String.prefix p x = true -> String.prefix p (x +:+ y) = true).
  { induction p as [| c p IH]; intros [| d x] y H; try discriminate H;
      cbn [String.append String.prefix] in *; [destruct y; reflexivity | reflexivity |].
    destruct (ascii_dec c d); [exact (IH _ _ H) | discriminate H]. }
  intros H. apply orb_true_iff in H as [H | H]; rewrite (Hp _ _ _ H);
    [reflexivity | apply orb_true_r].
Qed.

(** a text without white space is one piece *)
Lemma splitWs_plain s :
  allChars (fun c => negb (JS.isWhiteSpace c)) s = true -> JS.splitWs s = [s].
Proof.
  unfold JS.splitWs. induction s as [| c s IH]; [reflexivity |].
  cbn [allChars JS.splitWsAux]. intros H. apply andb_true_iff in H as [Hc H].
  apply negb_true_iff in Hc. rewrite Hc, (IH H). reflexivity.
Qed.

(** the split never answers the empty list *)
Lemma splitWsAux_cons inRun s : exists p ps, JS.splitWsAux inRun s = p :: ps.
Proof.
  revert inRun. induction s as [| c s IH]; intros inRun; cbn [JS.splitWsAux]; [eauto |].
  destruct (JS.isWhiteSpace c).
  - destruct inRun; [apply IH | eauto].
  - destruct (IH false) as (p & ps & ->). eauto.
Qed.

(** the first pieces, joined, start like the text up to its first white
    space *)
Lemma join_take_cons c s n :
  JS.isWhiteSpace c = false ->
  JS.join " " (take (S n) (JS.splitWsAux false (String c s)))
  = String c (JS.join " " (take (S n) (JS.splitWsAux false s))).
Proof.
  intros Hc. cbn [JS.splitWsAux]. rewrite Hc.
  destruct (splitWsAux_cons false s) as (p & ps & ->).
  cbn [take]. destruct (take n ps) as [| q qs]; reflexivity.
Qed.

(** a scheme in front of the text is in front of the joined pieces *)
Lemma prefix_join_take p :
  forall s n,
    allChars (fun c => negb (JS.isWhiteSpace c)) p = true ->
    String.prefix p (JS.toLowerCase s) = true ->
    String.prefix p (JS.toLowerCase (JS.join " " (take (S n) (JS.splitWsAux false s))))
    = true.
Proof.
  induction p as [| a p IH]; intros s n Hp H.
  - clear H. destruct (JS.toLowerCase _); reflexivity.
  - destruct s as [| c s]; [discriminate H |].
    cbn [JS.toLowerCase String.prefix] in H.
    destruct (ascii_dec a (JS.lowerChar c)) as [-> | _]; [| discriminate H].
    cbn [allChars] in Hp. apply andb_true_iff in Hp as [Hc Hp].
    rewrite TrimFacts.lowerChar_ws in Hc. apply negb_true_iff in Hc.
    rewrite (join_take_cons _ _ _ Hc). cbn [JS.toLowerCase].
    rewrite PatternFacts.prefix_cons. exact (IH _ _ Hp H).
Qed.

Lemma hasHttpScheme_join_take s n :
  JS.hasHttpScheme s = true ->
  JS.hasHttpScheme (JS.join " " (take (S n) (JS.splitWs s))) = true.
Proof.
  unfold JS.hasHttpScheme, JS.splitWs. intros H.
  apply orb_true_iff in H as [H | H].
  - rewrite (prefix_join_take "http://" _ n eq_refl H). reflexivity.
  - rewrite (prefix_join_take "https://" _ n eq_refl H). apply orb_true_r.
Qed.

(** the text that follows a trimmed text is trimmed *)
Lemma trimEnd_tail c s : JS.trimEnd (String c s) = String c s -> JS.trimEnd s = s.
Proof.
  cbn [JS.trimEnd]. destruct (JS.trimEnd s) as [| d t].
  - destruct (JS.isWhiteSpace c); [discriminate |]. intros [= <-]. reflexivity.
  - intros [= <-]. reflexivity.
Qed.

Lemma trimEnd_last c : JS.trimEnd (String c "") = String c "" -> JS.isWhiteSpace c = false.
Proof. cbn [JS.trimEnd]. destruct (JS.isWhiteSpace c); [discriminate | reflexivity]. Qed.

(** the pieces of a text that does not end in white space *)
Lemma splitWsAux_pieces s :
  JS.trimEnd s = s ->
  (s <> "" -> Forall piece (JS.splitWsAux true s))
  /\ exists p ps,
      JS.splitWsAux false s = p :: ps
      /\ allChars (fun c => negb (JS.isWhiteSpace c)) p = true
      /\ Forall piece ps
      /\ (startsClean s = true -> s <> "" -> p <> "").
Proof.
  induction s as [| c s IH]; intros Hs.
  - split; [congruence |]. exists "", [].
    split; [reflexivity |]. split; [reflexivity |]. split; [constructor | congruence].
  - destruct (IH (trimEnd_tail _ _ Hs)) as (HA & p & ps & Hsplit & Hp & Hps & Hne).
    cbn [JS.splitWsAux startsClean]. rewrite Hsplit.
    destruct (JS.isWhiteSpace c) eqn:Hc.
    + assert (Hs' : s <> "").
      { intros ->. apply trimEnd_last in Hs. congruence. }
      split; [intros _; exact (HA Hs') |].
      exists "", (JS.splitWsAux true s).
      split; [reflexivity |]. split; [reflexivity |]. split; [exact (HA Hs') | discriminate].
    + assert (Hcp : piece (String c p)).
      { split; [discriminate |]. cbn [allChars]. rewrite Hc, Hp. reflexivity. }
      split; [intros _; constructor; assumption |].
      exists (String c p), ps. destruct Hcp as [Hcp1 Hcp2].
      split; [reflexivity |]. split; [exact Hcp2 |]. split; [exact Hps |].
      intros _ _. exact Hcp1.
Qed.

Lemma splitWs_pieces s :
  JS.trimEnd s = s -> startsClean s = true -> s <> "" -> Forall piece (JS.splitWs s).
Proof.
  intros Hs Hc Hne. destruct (splitWsAux_pieces s Hs) as (_ & p & ps & Hsplit & Hp & Hps & Hp').
  unfold JS.splitWs. rewrite Hsplit. constructor; [| exact Hps].
  split; [exact (Hp' Hc Hne) | exact Hp].
Qed.

(** white-space-free text in front of a text joins its first piece *)
Lemma splitWsAux_append a s :
  allChars (fun c => negb (JS.isWhiteSpace c)) a = true ->
  JS.splitWsAux false (a +:+ s)
  = match JS.splitWsAux false s with
    | [] => [a]
    | p :: ps => (a +:+ p) :: ps
    end.
Proof.
  intros Ha. induction a as [| c a IH]; cbn [String.append].
  - destruct (splitWsAux_cons false s) as (p & ps & ->). reflexivity.
  - cbn [allChars] in Ha. apply andb_true_iff in Ha as [Hc Ha].
    apply negb_true_iff in Hc. cbn [JS.splitWsAux]. rewrite Hc, (IH Ha).
    destruct (splitWsAux_cons false s) as (p & ps & ->). reflexivity.
Qed.

Lemma splitWsAux_clean s :
  startsClean s = true -> s <> "" -> JS.splitWsAux true s = JS.splitWsAux false s.
Proof.
  destruct s as [| c s]; [congruence |]. cbn [startsClean JS.splitWsAux].
  intros H _. apply negb_true_iff in H. rewrite H. reflexivity.
Qed.

Lemma join_cons p q qs : JS.join " " (p :: q :: qs) = p +:+ " " +:+ JS.join " " (q :: qs).
Proof. reflexivity. Qed.

Lemma join_clean ps :
  Forall piece ps -> ps <> [] ->
  startsClean (JS.join " " ps) = true /\ JS.join " " ps <> "".
Proof.
  intros Hps Hne. destruct Hps as [| p ps [Hp1 Hp2] Hps]; [congruence |].
  destruct p as [| c p]; [congruence |]. cbn [allChars] in Hp2.
  apply andb_true_iff in Hp2 as [Hc _].
  destruct ps; [split; [exact Hc | discriminate] |].
  rewrite join_cons. cbn [String.append startsClean]. split; [exact Hc | discriminate].
Qed.

(** pieces joined by single spaces split into the same pieces *)
Lemma splitWs_join ps :
  Forall piece ps -> ps <> [] -> JS.splitWsAux false (JS.join " " ps) = ps.
Proof.
  induction 1 as [| p ps [Hp1 Hp2] Hps IH]; intros Hne; [congruence |].
  destruct ps as [| q qs].
  - exact (splitWs_plain p Hp2).
  - rewrite join_cons, (splitWsAux_append p _ Hp2).
    change (" " +:+ JS.join " " (q :: qs)) with (String " " (JS.join " " (q :: qs))).
    cbn [JS.splitWsAux]. change (JS.isWhiteSpace " ") with true. cbv iota.
    destruct (join_clean (q :: qs) Hps ltac:(discriminate)) as [Hc Hj].
    rewrite (splitWsAux_clean _ Hc Hj), (IH ltac:(discriminate)), append_nil_r.
    reflexivity.
Qed.

(** pieces joined by single spaces are trimmed *)
Lemma trim_join ps :
  Forall piece ps -> ps <> [] -> JS.trim (JS.join " " ps) = JS.join " " ps.
Proof.
  intros Hps Hne. unfold JS.trim.
  rewrite (clean_trimStart _ (proj1 (join_clean ps Hps Hne))).
  clear Hne. induction Hps as [| p ps [Hp1 Hp2] Hps IH]; [reflexivity |].
  destruct ps as [| q qs].
  - cbn [JS.join]. rewrite <- (append_nil_r p) at 1 2.
    apply trimEnd_append; [exact Hp2 | reflexivity].
  - rewrite join_cons. apply trimEnd_append; [exact Hp2 |].
    change (" " +:+ JS.join " " (q :: qs)) with (String " " (JS.join " " (q :: qs))).
    apply trimEnd_cons; [exact IH |].
    left. exact (proj2 (join_clean (q :: qs) Hps ltac:(discriminate))).
Qed.

End NormalFacts.

(** X10. The address the extractor navigates to is in normal form: it
    starts with http:// or https:// in whatever case, it has no white
    space around it, and normalizing it again changes nothing. *)
Theorem normalizeUrl_normal (targetUrl : string) :
  JS.hasHttpScheme (normalizeUrl targetUrl) = true
  /\ JS.trim (normalizeUrl targetUrl) = normalizeUrl targetUrl
  /\ normalizeUrl (normalizeUrl targetUrl) = normalizeUrl targetUrl.
Proof.
  assert (Hs : JS.hasHttpScheme (normalizeUrl targetUrl) = true).
  { unfold normalizeUrl. destruct (JS.hasHttpScheme (JS.trim targetUrl)) eqn:H;
      cbn [negb]; [exact H |].
    apply (NormalFacts.hasHttpScheme_append "http://"). reflexivity. }
  assert (Ht : JS.trim (normalizeUrl targetUrl) = normalizeUrl targetUrl).
  { unfold normalizeUrl. destruct (JS.hasHttpScheme (JS.trim targetUrl));
      cbn [negb]; [apply NormalFacts.trim_idem |].
    apply NormalFacts.trim_append;
      [discriminate | reflexivity | apply NormalFacts.trim_idem]. }
  split; [exact Hs |]. split; [exact Ht |].
  unfold normalizeUrl at 1. rewrite Ht, Hs. reflexivity.
Qed.

(** the address of the Facebook scraper before the pieces are cut *)
Lemma fb_scheme_trimmed (facebookUrl : string) :
  let url := JS.trim facebookUrl in
  let url := if negb (JS.hasHttpScheme url) then "https://" +:+ url else url in
  JS.hasHttpScheme url = true /\ JS.trim url = url.
Proof.
  cbv zeta. destruct (JS.hasHttpScheme (JS.trim facebookUrl)) eqn:H; cbn [negb].
  - split; [exact H | apply NormalFacts.trim_idem].
  - split; [apply (NormalFacts.hasHttpScheme_append "https://"); reflexivity |].
    apply NormalFacts.trim_append;
      [discriminate | reflexivity | apply NormalFacts.trim_idem].
Qed.

Lemma hasHttpScheme_clean s :
  JS.hasHttpScheme s = true -> startsClean s = true /\ s <> "".
Proof.
  destruct s as [| c s]; [discriminate |]. intros H. split; [| discriminate].
  unfold JS.hasHttpScheme in H. cbn [JS.toLowerCase String.prefix] in H.
  cbn [startsClean]. rewrite <- TrimFacts.lowerChar_ws.
  destruct (ascii_dec "h" (JS.lowerChar c)) as [<- | _]; [reflexivity | discriminate H].
Qed.

(** X11. The address the Facebook scraper navigates to is in normal form
    too: it starts with http:// or https:// in whatever case, it has no
    white space around it, and normalizing it again changes nothing. *)
Theorem fb_normalizeUrl_normal (facebookUrl : string) :
  JS.hasHttpScheme (Facebook.normalizeUrl facebookUrl) = true
  /\ JS.trim (Facebook.normalizeUrl facebookUrl) = Facebook.normalizeUrl facebookUrl
  /\ Facebook.normalizeUrl (Facebook.normalizeUrl facebookUrl)
     = Facebook.normalizeUrl facebookUrl.
Proof.
  destruct (fb_scheme_trimmed facebookUrl) as [Hs Ht]. cbv zeta in Hs, Ht.
  unfold Facebook.normalizeUrl at 1 2 3 5.
  set (url := if negb (JS.hasHttpScheme (JS.trim facebookUrl))
              then "https://" +:+ JS.trim facebookUrl else JS.trim facebookUrl) in *.
  destruct (hasHttpScheme_clean url Hs) as [Hc Hne].
  assert (Hend : JS.trimEnd url = url).
  { unfold JS.trim in Ht. rewrite (NormalFacts.clean_trimStart _ Hc) in Ht. exact Ht. }
  pose proof (NormalFacts.splitWs_pieces url Hend Hc Hne) as Hpieces.
  assert (Hcut : Forall piece (take 10 (JS.splitWs url)))
    by (apply Forall_take, Hpieces).
  assert (Hsome : take 10 (JS.splitWs url) <> []).
  { unfold JS.splitWs. destruct (NormalFacts.splitWsAux_cons false url) as (p & ps & ->).
    discriminate. }
  set (r := JS.join " " (take 10 (JS.splitWs url))) in *.
  assert (Hrs : JS.hasHttpScheme r = true)
    by exact (NormalFacts.hasHttpScheme_join_take url 9 Hs).
  assert (Hrt : JS.trim r = r) by exact (NormalFacts.trim_join _ Hcut Hsome).
  split; [exact Hrs |]. split; [exact Hrt |].
  unfold Facebook.normalizeUrl. rewrite Hrt, Hrs. cbn [negb].
  unfold JS.splitWs at 1. unfold r at 1.
  rewrite (NormalFacts.splitWs_join _ Hcut Hsome), take_take. reflexivity.
Qed.

(** X12. On an address without white space inside, the cut to ten pieces
    of the Facebook scraper does nothing: the address is trimmed and given
    the scheme https:// unless it has one. *)
Theorem fb_normalizeUrl_plain (facebookUrl : string) :
  noWhiteSpace (JS.trim facebookUrl) = true ->
  Facebook.normalizeUrl facebookUrl
  = if JS.hasHttpScheme (JS.trim facebookUrl) then JS.trim facebookUrl
    else "https://" +:+ JS.trim facebookUrl.
Proof.
  intros H. unfold Facebook.normalizeUrl.
  destruct (JS.hasHttpScheme (JS.trim facebookUrl)); cbn [negb].
  - rewrite (NormalFacts.splitWs_plain _ H). reflexivity.
  - rewrite NormalFacts.splitWs_plain; [reflexivity |].
    unfold noWhiteSpace in H. rewrite StringFacts.allChars_append, H. reflexivity.
Qed.

(** X12 at work. *)
Lemma fb_normalizeUrl_plain_witness :
  noWhiteSpace (JS.trim "  facebook.com/acme ") = true
  /\ Facebook.normalizeUrl "  facebook.com/acme " = "https://facebook.com/acme".
Proof.
  split; [reflexivity |].
  rewrite (fb_normalizeUrl_plain "  facebook.com/acme " eq_refl). reflexivity.
Defined.

(* ===================================================================== *)
(** ** Supplement: when the loops wait *)
(* ===================================================================== *)

Module Waits.
Import Social SocialFacts SocialTrace.

Section Loop.
Variable config : Config.
Variable browser : Browser.
Local Abbreviation N := (c_maxRetries config).

(** one attempt: one attempt line, and at most one wait, which is made
    only when the loop goes on *)
Lemma attempt_counts n s :
  exists es,
    trace (attempt config browser n s).2 = trace s ++ es
    /\ passes es = 1%nat
    /\ (waits es = []
        \/ (waits es = [1000]
            /\ (attempt config browser n s).1 = Ok false
            /\ hasSocialLinks (result (attempt config browser n s).2) = false
            /\ n < N)).
Proof.
  destruct (pass_emits (rendered browser n) (announced n s)) as (es & Hes & Hall).
  destruct (pass (rendered browser n) (announced n s)) as [[[] | e] s2] eqn:Hp;
    cbn [snd] in Hes; change (trace (announced n s)) with (trace s ++ [LogAttempt n]) in Hes.
  - rewrite (attempt_passed _ _ _ _ _ Hp).
    destruct (hasSocialLinks (result s2)) eqn:Hh; cbn [orb].
    + exists ([LogAttempt n] ++ es ++ [LogResult (result s2)]). cbn [snd trace].
      split; [rewrite Hes, <- !app_assoc; reflexivity |].
      rewrite !passes_app, !waits_app, (passEvent_passes _ Hall), (passEvent_waits _ Hall).
      split; [reflexivity | left; reflexivity].
    + destruct (Z.geb_spec n N) as [Hge | Hlt].
      * exists ([LogAttempt n] ++ es ++ [LogResult (result s2)]). cbn [snd trace].
        split; [rewrite Hes, <- !app_assoc; reflexivity |].
        rewrite !passes_app, !waits_app, (passEvent_passes _ Hall), (passEvent_waits _ Hall).
        split; [reflexivity | left; reflexivity].
      * exists ([LogAttempt n] ++ es ++ [LogResult (result s2)] ++ [WaitForTimeout 1000]).
        cbn [snd trace result].
        split; [rewrite Hes, <- !app_assoc; reflexivity |].
        rewrite !passes_app, !waits_app, (passEvent_passes _ Hall), (passEvent_waits _ Hall).
        split; [reflexivity |]. right. split; [reflexivity |]. split; [reflexivity |].
        split; [exact Hh | exact Hlt].
  - rewrite (attempt_caught _ _ _ _ _ _ Hp).
    exists ([LogAttempt n] ++ es ++ [LogError n e]). cbn [snd trace].
    split; [rewrite Hes, <- !app_assoc; reflexivity |].
    rewrite !passes_app, !waits_app, (passEvent_passes _ Hall), (passEvent_waits _ Hall).
    split; [reflexivity | left; reflexivity].
Qed.

(** the loop: no more waits than passes, and fewer when a pass is made *)
Lemma retryLoop_waits fuel :
  forall n s o s',
    retryLoop config browser fuel n s = Some (o, s') ->
    exists es,
      trace s' = trace s ++ es
      /\ (length (waits es) <= passes es)%nat
      /\ ((n <? N) && negb (hasSocialLinks (result s)) = true ->
          (length (waits es) < passes es)%nat).
Proof.
  induction fuel as [| fuel IH]; intros n s o s'; cbn [retryLoop];
    destruct ((n <? N) && negb (hasSocialLinks (result s))) eqn:Hcond;
    intros Hrun; try discriminate;
    try (injection Hrun as <- <-; exists []; rewrite app_nil_r;
         split; [reflexivity |]; split; [reflexivity | discriminate]).
  destruct (attempt_counts (n + 1) s) as (es1 & Hes1 & Hp1 & Hw1).
  destruct (attempt config browser (n + 1) s) as [[[|] | e] s1];
    cbn [fst snd] in Hes1, Hw1.
  - injection Hrun as <- <-. exists es1. split; [exact Hes1 |].
    destruct Hw1 as [Hw | (_ & Ho & _)]; [| discriminate Ho].
    rewrite Hw, Hp1; cbn [length]; split; lia.
  - destruct (IH _ _ _ _ Hrun) as (es2 & Hes2 & Hle & Hlt).
    exists (es1 ++ es2). split; [rewrite Hes2, Hes1, <- app_assoc; reflexivity |].
    rewrite waits_app, passes_app, length_app, Hp1.
    destruct Hw1 as [Hw | (Hw & _ & Hh & Hn)]; rewrite Hw; cbn [length].
    + split; [lia | intros _; lia].
    + assert (Hnext : (n + 1 <? N) && negb (hasSocialLinks (result s1)) = true).
      { rewrite Hh. apply andb_true_iff. split; [apply Z.ltb_lt, Hn | reflexivity]. }
      specialize (Hlt Hnext). split; [lia | intros _; lia].
  - injection Hrun as <- <-. exists es1. split; [exact Hes1 |].
    destruct Hw1 as [Hw | (_ & Ho & _)]; [| discriminate Ho].
    rewrite Hw, Hp1; cbn [length]; split; lia.
Qed.

(** a pass on a page whose header query throws *)
Lemma pass_headerFails p s e :
  p_header p = Throws e ->
  pass p s = (Throws e, {| result := result s; trace := trace s ++ [Enter 1] |}).
Proof.
  intros H. unfold pass, strategies1to4, strategy1, bind, emit, await. rewrite H.
  reflexivity.
Qed.

(** the loop on pages whose header query throws at every attempt *)
Lemma retryLoop_headerFails fuel :
  (forall n, headerFails (rendered browser n)) ->
  forall n s,
    0 <= n -> hasSocialLinks (result s) = false -> (Z.to_nat (N - n) <= fuel)%nat ->
    exists s' es,
      retryLoop config browser fuel n s = Some (Ok tt, s')
      /\ result s' = result s
      /\ trace s' = trace s ++ es
      /\ passes es = Z.to_nat (N - n)
      /\ waits es = [].
Proof.
  intros Hfail. induction fuel as [| fuel IH]; intros n s Hn Hh Hfuel; cbn [retryLoop];
    rewrite Hh; destruct (Z.ltb_spec n N) as [Hlt | Hge]; cbn [andb negb]; try lia;
    try (exists s, []; rewrite app_nil_r;
         split; [reflexivity |]; split; [reflexivity |]; split; [reflexivity |];
         split; [change (passes []) with 0%nat; lia | reflexivity]).
  destruct (Hfail (n + 1)) as [e He].
  rewrite (attempt_caught _ _ _ _ _ _ (pass_headerFails _ (announced (n + 1) s) e He)).
  cbn [result trace announced].
  set (s1 := {| result := result s;
                trace := ((trace s ++ [LogAttempt (n + 1)]) ++ [Enter 1])
                         ++ [LogError (n + 1) e] |}).
  destruct (IH (n + 1) s1 ltac:(lia) Hh ltac:(lia)) as (s' & es & Hrun & Hres & Htr & Hp & Hw).
  exists s', ([LogAttempt (n + 1); Enter 1; LogError (n + 1) e] ++ es).
  split; [exact Hrun |]. split; [exact Hres |]. split.
  - rewrite Htr. unfold s1. cbn [trace]. rewrite <- !app_assoc. reflexivity.
  - rewrite passes_app, waits_app, Hp, Hw.
    change (passes [LogAttempt (n + 1); Enter 1; LogError (n + 1) e]) with 1%nat.
    split; [lia | reflexivity].
Qed.

End Loop.

Section FacebookLoop.
Import Facebook.
Variable config : Facebook.Config.
Variable browser : Facebook.Browser.
Local Abbreviation N := (Facebook.c_maxRetries config).

(** the loop of the Facebook scraper: every attempt that does not end
    the loop is followed by a wait *)
Lemma fb_retryLoop_waits fuel :
  forall n tr o tr',
    Facebook.retryLoop config browser fuel n None tr = Some (o, tr') ->
    exists es,
      tr' = tr ++ es
      /\ (foundIn o = false -> waits es = repeat 1000 (passes es))
      /\ (foundIn o = true -> waits es = repeat 1000 (passes es - 1)
                              /\ (1 <= passes es)%nat).
Proof.
  induction fuel as [| fuel IH]; intros n tr o tr'; cbn [Facebook.retryLoop];
    destruct (Z.ltb_spec n N) as [Hlt | Hge]; cbn [andb negb bool_decide];
    intros Hrun; try discriminate;
    try (injection Hrun as <- <-; exists []; rewrite app_nil_r;
         split; [reflexivity |]; split; [reflexivity | discriminate]).
  destruct (FacebookFacts.attempted_events browser (n + 1) tr) as (mid & Hmid & _ & Hp & Hw).
  rewrite Hmid in Hrun.
  destruct (Facebook.foundAt browser (n + 1)) as [info |].
  - injection Hrun as <- <-. exists ([LogAttempt (n + 1)] ++ mid).
    split; [reflexivity |]. split; [discriminate |]. intros _.
    rewrite passes_app, waits_app, Hp, Hw.
    change (passes [LogAttempt (n + 1)]) with 1%nat. split; [reflexivity | lia].
  - destruct (Facebook.waitForTimeout browser (n + 1)) as [[] | e].
    + destruct (IH _ _ _ _ Hrun) as (es & -> & Hnone & Hsome).
      exists ([LogAttempt (n + 1)] ++ mid ++ [WaitForTimeout 1000] ++ es).
      split; [rewrite <- !app_assoc; reflexivity |].
      rewrite !passes_app, !waits_app, Hw, Hp.
      change (passes [LogAttempt (n + 1)]) with 1%nat.
      change (passes [WaitForTimeout 1000]) with 0%nat.
      change (waits [LogAttempt (n + 1)]) with (@nil Z).
      change (waits [WaitForTimeout 1000]) with [1000]. cbn [app Nat.add].
      split.
      * intros Hi. rewrite (Hnone Hi). reflexivity.
      * intros Hi. destruct (Hsome Hi) as [Hw' Hp']. rewrite Hw'. split; [| lia].
        destruct (passes es) as [| k]; [lia |]. cbn [Nat.sub repeat].
        rewrite Nat.sub_0_r. reflexivity.
    + injection Hrun as <- <-.
      exists ([LogAttempt (n + 1)] ++ mid ++ [WaitForTimeout 1000]).
      split; [rewrite <- !app_assoc; reflexivity |].
      rewrite !passes_app, !waits_app, Hw, Hp.
      split; [intros _; reflexivity | discriminate].
Qed.

End FacebookLoop.
End Waits.

(** X13. The extractor never waits after its last pass: an invocation
    makes fewer waits than passes. *)
Theorem no_wait_after_last_pass (targetUrl : string) (options : Options)
        (browser : Browser) :
  (length (waits (logged (extractSocialLinks targetUrl options browser)))
   <= passes (logged (extractSocialLinks targetUrl options browser)) - 1)%nat.
Proof.
  assert (Hnil : (length (waits []) <= passes [] - 1)%nat) by (vm_compute; lia).
  unfold extractSocialLinks.
  destruct (goto browser _ _); [| exact Hnil].
  destruct (retryLoop _ _ _ _ _) as [[o s'] |] eqn:Hloop; [| exact Hnil].
  destruct (Waits.retryLoop_waits _ _ _ _ _ _ _ Hloop) as (es & Hes & Hle & Hlt).
  cbn [trace initialState app] in Hes.
  assert (Hlog : logged (match o with
                         | Ok _ => Some (result s', trace s')
                         | Throws e => Some (errorRecord e (normalizeUrl targetUrl), trace s')
                         end) = es)
    by (destruct o; exact Hes).
  rewrite Hlog.
  destruct ((0 <? c_maxRetries (mkConfig options))
            && negb (hasSocialLinks (result initialState))) eqn:Hcond.
  - specialize (Hlt eq_refl). lia.
  - destruct (Z.to_nat (c_maxRetries (mkConfig options))); cbn [retryLoop] in Hloop;
      rewrite Hcond in Hloop; injection Hloop as <- <-; subst es; exact Hnil.
Qed.

(** X14. Pages whose header query throws at every attempt: the extractor
    makes all its passes one after the other without any wait, and
    returns the record with every field empty, not an error record. *)
Theorem failing_passes_retried_at_once (targetUrl : string) (options : Options)
        (browser : Browser) :
  goto browser (normalizeUrl targetUrl) (c_timeout (mkConfig options)) = Ok tt ->
  (forall n, headerFails (rendered browser n)) ->
  returned (extractSocialLinks targetUrl options browser) = initialResult
  /\ passes (logged (extractSocialLinks targetUrl options browser))
     = Z.to_nat (c_maxRetries (mkConfig options))
  /\ waits (logged (extractSocialLinks targetUrl options browser)) = [].
Proof.
  intros Hgo Hfail. unfold extractSocialLinks. rewrite Hgo.
  destruct (Waits.retryLoop_headerFails (mkConfig options) browser
              (Z.to_nat (c_maxRetries (mkConfig options))) Hfail 0 initialState
              ltac:(lia) initialResult_unresolved ltac:(lia))
    as (s' & es & Hrun & Hres & Htr & Hp & Hw).
  rewrite Hrun. cbn [returned logged]. cbn [trace initialState app] in Htr.
  rewrite Htr, Hres, Hp, Hw, Z.sub_0_r. repeat split.
Qed.

(** X14 at work: the page of the broken header, at every attempt. *)
Lemma failing_passes_retried_at_once_witness :
  (goto (Examples.staticBrowser Failing.brokenHeader) (normalizeUrl "example.com")
        (c_timeout (mkConfig (Examples.withMaxRetries 4 None))) = Ok tt
   /\ forall n, headerFails (rendered (Examples.staticBrowser Failing.brokenHeader) n))
  /\ returned (extractSocialLinks "example.com" (Examples.withMaxRetries 4 None)
                 (Examples.staticBrowser Failing.brokenHeader)) = initialResult
  /\ passes (logged (extractSocialLinks "example.com" (Examples.withMaxRetries 4 None)
                       (Examples.staticBrowser Failing.brokenHeader)))
     = Z.to_nat (c_maxRetries (mkConfig (Examples.withMaxRetries 4 None)))
  /\ waits (logged (extractSocialLinks "example.com" (Examples.withMaxRetries 4 None)
                      (Examples.staticBrowser Failing.brokenHeader))) = [].
Proof.
  assert (H : forall n, headerFails (rendered (Examples.staticBrowser Failing.brokenHeader) n))
    by (intros n; eexists; reflexivity).
  split; [split; [reflexivity | exact H] |].
  exact (failing_passes_retried_at_once "example.com" (Examples.withMaxRetries 4 None)
           (Examples.staticBrowser Failing.brokenHeader) eq_refl H).
Defined.

(** the invocation of the Facebook scraper when no attempt gathers
    anything and every wait returns *)
Lemma fb_exhausted (facebookUrl : string) (options : Facebook.Options)
      (fbBrowser : Facebook.Browser) :
  Facebook.goto fbBrowser (Facebook.normalizeUrl facebookUrl)
                (Facebook.c_timeout (Facebook.mkConfig options)) = Ok tt ->
  Facebook.captchaCheck fbBrowser = Ok false ->
  nothingGathered fbBrowser ->
  waitsReturn fbBrowser ->
  returned (Facebook.scrapeFacebookProfile facebookUrl options fbBrowser)
  = Facebook.profileObject Facebook.emptyFields
  /\ passes (logged (Facebook.scrapeFacebookProfile facebookUrl options fbBrowser))
     = Z.to_nat (Facebook.c_maxRetries (Facebook.mkConfig options))
  /\ waits (logged (Facebook.scrapeFacebookProfile facebookUrl options fbBrowser))
     = repeat 1000 (Z.to_nat (Facebook.c_maxRetries (Facebook.mkConfig options))).
Proof.
  intros Hgo Hcap Hnone Hwaits. unfold Facebook.scrapeFacebookProfile. rewrite Hgo, Hcap.
  destruct (FacebookFacts.fb_retryLoop_total (Facebook.mkConfig options) fbBrowser
              (Z.to_nat (Facebook.c_maxRetries (Facebook.mkConfig options))) 0 [])
    as (o & tr & Hloop); [rewrite Z.sub_0_r; lia |].
  rewrite Hloop.
  assert (Ho : o = Ok None).
  { refine (FacebookFacts.fb_retryLoop_none _ _ _ _ Hwaits _ _ _ _ Hloop).
    intros k f Hg. apply FacebookFacts.foundAny_unresolved, (Hnone k f Hg). }
  subst o.
  destruct (FacebookFacts.fb_retryLoop_spec _ _ _ _ _ _ _ Hloop)
    as (es & Hes & _ & _ & Hex & _).
  destruct (Waits.fb_retryLoop_waits _ _ _ _ _ _ _ Hloop) as (es' & Hes' & Hw & _).
  cbn [app] in Hes, Hes'. subst es es'.
  cbn [returned logged]. rewrite (Hw eq_refl), (Hex eq_refl), Z.sub_0_r. repeat split.
Qed.

(** X15. The Facebook scraper waits after every attempt that does not
    end its loop, the last one included: when no attempt gathers anything,
    be it that it throws or that it finds every value empty, and every
    wait returns, it makes as many waits of 1000 ms as attempts before it
    returns the profile with every value empty. *)
Theorem fb_waits_after_every_attempt (facebookUrl : string) (options : Facebook.Options)
        (fbBrowser : Facebook.Browser) :
  Facebook.goto fbBrowser (Facebook.normalizeUrl facebookUrl)
                (Facebook.c_timeout (Facebook.mkConfig options)) = Ok tt ->
  Facebook.captchaCheck fbBrowser = Ok false ->
  nothingGathered fbBrowser ->
  waitsReturn fbBrowser ->
  returned (Facebook.scrapeFacebookProfile facebookUrl options fbBrowser)
  = Facebook.profileObject Facebook.emptyFields
  /\ passes (logged (Facebook.scrapeFacebookProfile facebookUrl options fbBrowser))
     = Z.to_nat (Facebook.c_maxRetries (Facebook.mkConfig options))
  /\ waits (logged (Facebook.scrapeFacebookProfile facebookUrl options fbBrowser))
     = repeat 1000 (Z.to_nat (Facebook.c_maxRetries (Facebook.mkConfig options))).
Proof. apply fb_exhausted. Qed.

(** X15 at work: three attempts, three waits. *)
Lemma fb_waits_after_every_attempt_witness :
  (Facebook.goto Examples.silentProfile (Facebook.normalizeUrl "facebook.com/acme")
     (Facebook.c_timeout (Facebook.mkConfig (Examples.fbMaxRetries 3 None))) = Ok tt
   /\ Facebook.captchaCheck Examples.silentProfile = Ok false
   /\ nothingGathered Examples.silentProfile
   /\ waitsReturn Examples.silentProfile)
  /\ waits (logged (Facebook.scrapeFacebookProfile "facebook.com/acme"
                      (Examples.fbMaxRetries 3 None) Examples.silentProfile))
     = [1000; 1000; 1000].
Proof.
  assert (H : nothingGathered Examples.silentProfile)
    by (intros k f [= <-]; exact emptyFields_unresolved).
  assert (Hw : waitsReturn Examples.silentProfile) by (intros k; reflexivity).
  split; [split; [reflexivity | split; [reflexivity | split; [exact H | exact Hw]]] |].
  exact (proj2 (proj2 (fb_waits_after_every_attempt "facebook.com/acme"
                         (Examples.fbMaxRetries 3 None) Examples.silentProfile
                         eq_refl eq_refl H Hw))).
Defined.

(* ===================================================================== *)
(** ** Supplement: the scroll loop of the local services scraper *)
(* ===================================================================== *)

Module Scroll.
Import LocalServices.

Section Loop.
Variable browser : LocalServices.Browser.

(** the loop from scroll [k] on a page that settles at scroll [k + d] *)
Lemma scrollLoop_settles d :
  forall k fuel tr,
    (forall j, (k <= j < k + d)%nat -> grewAt browser j) ->
    scrollHeight browser (k + d) = Ok (heightBefore browser (k + d)) ->
    (d < fuel)%nat ->
    scrollLoop browser fuel k (heightBefore browser k) tr
    = Some (Ok tt, tr ++ repeat (WaitForTimeout 2000) d).
Proof.
  induction d as [| d IH]; intros k fuel tr Hgrow Hstop Hfuel;
    (destruct fuel as [| fuel]; [lia |]); cbn [scrollLoop].
  - rewrite Nat.add_0_r in Hstop. rewrite Hstop, Z.eqb_refl, app_nil_r. reflexivity.
  - destruct (Hgrow k ltac:(lia)) as (h & Hh & Hne). rewrite Hh.
    apply Z.eqb_neq in Hne. rewrite Hne.
    assert (Hnext : heightBefore browser (S k) = h)
      by (cbn [heightBefore]; rewrite Hh; reflexivity).
    rewrite <- Hnext. rewrite (IH (S k) fuel).
    + rewrite <- app_assoc. reflexivity.
    + intros j Hj. apply Hgrow. lia.
    + replace (S k + d)%nat with (k + S d)%nat by lia. exact Hstop.
    + lia.
Qed.

(** the loop from scroll [k] on a page that grows at every scroll *)
Lemma scrollLoop_endless fuel :
  (forall j, grewAt browser j) ->
  forall k tr, scrollLoop browser fuel k (heightBefore browser k) tr = None.
Proof.
  intros Hgrow. induction fuel as [| fuel IH]; intros k tr; cbn [scrollLoop];
    [reflexivity |].
  destruct (Hgrow k) as (h & Hh & Hne). rewrite Hh.
  apply Z.eqb_neq in Hne. rewrite Hne.
  assert (Hnext : heightBefore browser (S k) = h)
    by (cbn [heightBefore]; rewrite Hh; reflexivity).
  rewrite <- Hnext. apply IH.
Qed.

Lemma unblocked_run fuel :
  unblocked browser ->
  scrapeLocalServices browser fuel
  = match scrollLoop browser fuel 0 0 [] with
    | None => None
    | Some (Throws e, tr) => Some (Throws e, tr)
    | Some (Ok _, tr) =>
        match evaluated browser with
        | Throws e => Some (Throws e, tr)
        | Ok (data, total) => Some (Ok (Results data total), tr)
        end
    end.
Proof.
  intros (Hgo & (text & Htext & H1 & H2) & Hframe).
  unfold scrapeLocalServices. rewrite Hgo, Htext, H1, H2, Hframe. reflexivity.
Qed.

End Loop.
End Scroll.

(** X16. On a results page without block notice whose height changes at
    each of the first [n] scrolls and is unchanged at the next one, the
    local services scraper scrolls [n + 1] times, waits 2000 ms after each
    of the first [n], and then returns what the in-page script found. *)
Theorem scrolls_until_height_settles (lsBrowser : LocalServices.Browser) (n fuel : nat)
        (data : list LocalServices.Listing) (total : Z) :
  unblocked lsBrowser ->
  settlesAt lsBrowser n ->
  LocalServices.evaluated lsBrowser = Ok (data, total) ->
  (n < fuel)%nat ->
  LocalServices.scrapeLocalServices lsBrowser fuel
  = Some (Ok (LocalServices.Results data total), repeat (WaitForTimeout 2000) n).
Proof.
  intros Hun [Hgrow Hstop] Hev Hfuel.
  rewrite (Scroll.unblocked_run lsBrowser fuel Hun).
  change 0 with (heightBefore lsBrowser 0) at 1.
  rewrite (Scroll.scrollLoop_settles lsBrowser n 0 fuel []); [rewrite Hev; reflexivity | | |].
  - intros j Hj. apply Hgrow. lia.
  - exact Hstop.
  - exact Hfuel.
Qed.

(** X16 at work: two scrolls that load more, one that does not. *)
Lemma scrolls_until_height_settles_witness :
  (unblocked threeScreens /\ settlesAt threeScreens 2
   /\ LocalServices.evaluated threeScreens = Ok ([], 0) /\ (2 < 5)%nat)
  /\ LocalServices.scrapeLocalServices threeScreens 5
     = Some (Ok (LocalServices.Results [] 0), [WaitForTimeout 2000; WaitForTimeout 2000]).
Proof.
  assert (Hun : unblocked threeScreens).
  { split; [reflexivity |]. split; [| reflexivity].
    eexists. split; [reflexivity |]. split; vm_compute; reflexivity. }
  assert (Hset : settlesAt threeScreens 2).
  { split; [| reflexivity]. intros k Hk.
    destruct k as [| [| k]]; [| | lia]; eexists; (split; [reflexivity |]);
      vm_compute; discriminate. }
  split; [split; [exact Hun | split; [exact Hset | split; [reflexivity | lia]]] |].
  exact (scrolls_until_height_settles threeScreens 2 5 [] 0 Hun Hset eq_refl ltac:(lia)).
Defined.

(** X17. The scroll loop has no bound of its own: on a results page
    without block notice whose height changes at every scroll, however many
    steps are allowed, the local services scraper does not return. *)
Theorem endless_page_never_returns (lsBrowser : LocalServices.Browser) (fuel : nat) :
  unblocked lsBrowser ->
  (forall k, grewAt lsBrowser k) ->
  LocalServices.scrapeLocalServices lsBrowser fuel = None.
Proof.
  intros Hun Hgrow. rewrite (Scroll.unblocked_run lsBrowser fuel Hun).
  change 0 with (heightBefore lsBrowser 0) at 1.
  rewrite (Scroll.scrollLoop_endless lsBrowser fuel Hgrow 0 []). reflexivity.
Qed.

(** X17 at work: a page that is one screen longer at every scroll. *)
Lemma endless_page_never_returns_witness :
  (unblocked endlessResults /\ forall k, grewAt endlessResults k)
  /\ LocalServices.scrapeLocalServices endlessResults 1000 = None.
Proof.
  assert (Hun : unblocked endlessResults).
  { split; [reflexivity |]. split; [| reflexivity].
    eexists. split; [reflexivity |]. split; vm_compute; reflexivity. }
  assert (Hgrow : forall k, grewAt endlessResults k).
  { intros k. eexists. split; [reflexivity |].
    destruct k as [| k]; cbn [heightBefore endlessResults LocalServices.scrollHeight]; lia. }
  split; [split; [exact Hun | exact Hgrow] |].
  exact (endless_page_never_returns endlessResults 1000 Hun Hgrow).
Defined.

(* ===================================================================== *)
(** ** Supplement: the listings of the local services scraper *)
(* ===================================================================== *)

Module CardFacts.
Import Cards.

Lemma readSpan_cases d span :
  readSpan d span
  = if tellsHours (JS.trim span) then d
    else if negb (foundPhone d) && phoneRegexTest (JS.trim span) then
      {| phone := JS.trim span; category := category d; address := address d;
         foundPhone := true; foundCategory := foundCategory d;
         foundAddress := foundAddress d |}
    else if negb (foundCategory d) then
      {| phone := phone d; category := JS.trim span; address := address d;
         foundPhone := foundPhone d; foundCategory := true;
         foundAddress := foundAddress d |}
    else if negb (foundAddress d) then
      {| phone := phone d; category := category d; address := JS.trim span;
         foundPhone := foundPhone d; foundCategory := foundCategory d;
         foundAddress := true |}
    else d.
Proof. reflexivity. Qed.

(** the loop over the detail spans from any state of its variables in
    which an address is found only after a category *)
Lemma readDetails_from spans :
  forall d,
    (foundAddress d = true -> foundCategory d = true) ->
    let r := fold_left readSpan spans d in
    let kept := keptTexts spans in
    let rest := if foundPhone d then kept else withoutFirstThat phoneRegexTest kept in
    phone r = (if foundPhone d then phone d
               else default (phone d) (firstThat phoneRegexTest kept))
    /\ category r = (if foundCategory d then category d else nth 0 rest (category d))
    /\ address r = (if foundAddress d then address d
                    else nth (if foundCategory d then 0 else 1) rest (address d)).
Proof.
  induction spans as [| span spans IH]; intros d Hinv; cbv zeta.
  - cbn [fold_left keptTexts firstThat withoutFirstThat default].
    destruct (foundPhone d), (foundCategory d), (foundAddress d); repeat split.
  - cbn [fold_left keptTexts]. rewrite readSpan_cases.
    destruct (tellsHours (JS.trim span)); [exact (IH d Hinv) |].
    set (t := JS.trim span). cbn [firstThat withoutFirstThat].
    destruct d as [ph ca ad fp fc fa].
    cbn [foundPhone foundCategory foundAddress phone category address] in *.
    assert (Hfa : fc = false -> fa = false)
      by (intros ->; destruct fa; [discriminate (Hinv eq_refl) | reflexivity]).
    destruct (phoneRegexTest t) eqn:Hp, fp, fc; cbn [negb andb];
      try (rewrite (Hfa eq_refl) in *; clear Hfa);
      try (destruct fa; cbn [negb]);
      match goal with
      | |- context [fold_left readSpan spans ?d'] =>
          exact (IH d' ltac:(cbn [foundAddress foundCategory]; auto))
      end.
Qed.

Lemma scrapeCards_from query pageNumber cards :
  forall data,
    fold_left (fun data card =>
                 if marked card then data
                 else data ++ [listingOf query pageNumber card]) cards data
    = data ++ map (listingOf query pageNumber) (unmarked cards).
Proof.
  induction cards as [| card cards IH]; intros data; cbn [fold_left unmarked map].
  - rewrite app_nil_r. reflexivity.
  - destruct (marked card); [apply IH |].
    rewrite IH, <- app_assoc. reflexivity.
Qed.

End CardFacts.

(** X18. The details of a card. Among the trimmed detail texts that do
    not tell the opening hours, in document order: the phone is the first
    text made of + ( ) ? - digits and white space only; the category is
    the first of the other texts and the address the second of them; what
    is missing stays N/A, and further texts are ignored. *)
Theorem card_details (spans : list string) :
  let d := Cards.readDetails spans in
  let kept := keptTexts spans in
  let others := withoutFirstThat Cards.phoneRegexTest kept in
  Cards.phone d = default "N/A" (firstThat Cards.phoneRegexTest kept)
  /\ Cards.category d = nth 0 others "N/A"
  /\ Cards.address d = nth 1 others "N/A".
Proof.
  exact (CardFacts.readDetails_from spans Cards.noDetails (fun H => H)).
Qed.

(** X19. The listings of a results page: one listing for each card
    without the marker, in document order, and none for a card with the
    marker. Each listing has the query of the call as its keyword, and its
    page is undefined whatever the page number of the call: the function
    that runs in the page is handed the properties query and page, and
    reads the properties query and pageNumber. *)
Theorem one_listing_per_unmarked_card (query : string) (page : Z)
        (cards : list Cards.Card) :
  Cards.scrapeCards (Cards.evaluateArg query page) cards
  = map (Cards.listingOf (Some (LocalServices.VString query)) None) (unmarked cards)
  /\ Forall (fun l => LocalServices.keyword l = Some (LocalServices.VString query)
                      /\ LocalServices.page l = None)
            (Cards.scrapeCards (Cards.evaluateArg query page) cards).
Proof.
  assert (H : Cards.scrapeCards (Cards.evaluateArg query page) cards
              = map (Cards.listingOf (Some (LocalServices.VString query)) None)
                    (unmarked cards))
    by exact (CardFacts.scrapeCards_from _ _ cards []).
  split; [exact H |]. rewrite H. apply Forall_map, Forall_forall.
  intros card _. split; reflexivity.
Qed.

(* ===================================================================== *)
(** ** Supplement: one attempt of the Facebook profile scraper *)
(* ===================================================================== *)

Module ProfileFacts.
Import Profile StringFacts.

#[local] Arguments String.append : simpl nomatch.

Lemma matchTld_dot s :
  matchTld s = true ->
  exists tld, s = "." +:+ tld /\ allChars isLetter tld = true
              /\ (2 <= String.length tld)%nat.
Proof.
  destruct s as [| c rest]; [discriminate |]. cbn [matchTld]. intros H.
  apply andb_true_iff in H as [H Hl]. apply andb_true_iff in H as [Hc Hn].
  apply Ascii.eqb_eq in Hc as ->. apply Nat.leb_le in Hn.
  exists rest. repeat split; assumption.
Qed.

Lemma dot_matchTld tld :
  allChars isLetter tld = true -> (2 <= String.length tld)%nat ->
  matchTld ("." +:+ tld) = true.
Proof.
  intros Hl Hn. cbn [String.append matchTld]. apply Nat.leb_le in Hn.
  rewrite Hn, Hl. reflexivity.
Qed.

(** the rest of the run and the ending, declaratively *)
Lemma matchHostTail_iff s :
  matchHostTail s = true
  <-> exists host tld,
      s = host +:+ "." +:+ tld
      /\ allChars isHostChar host = true
      /\ allChars isLetter tld = true
      /\ (2 <= String.length tld)%nat.
Proof.
  split.
  - induction s as [| c s IH]; [discriminate |]. cbn [matchHostTail]. intros H.
    apply orb_true_iff in H as [H | H].
    + apply andb_true_iff in H as [Hc H].
      destruct (IH H) as (host & tld & -> & Hh & Hl & Hn).
      exists (String c host), tld. cbn [String.append allChars]. rewrite Hc, Hh.
      repeat split; assumption.
    + destruct (matchTld_dot _ H) as (tld & -> & Hl & Hn).
      exists "", tld. repeat split; assumption.
  - intros (host & tld & -> & Hh & Hl & Hn).
    change (host +:+ "." +:+ tld) with (host +:+ String "." tld).
    pose proof (dot_matchTld tld Hl Hn) as Hd.
    change ("." +:+ tld) with (String "." tld) in Hd.
    induction host as [| c host IH].
    + change ("" +:+ String "." tld) with (String "." tld).
      cbn [matchHostTail]. rewrite Hd. apply orb_true_r.
    + cbn [allChars] in Hh. apply andb_true_iff in Hh as [Hc Hh].
      change (String c host +:+ String "." tld) with (String c (host +:+ String "." tld)).
      cbn [matchHostTail]. rewrite Hc, (IH Hh). reflexivity.
Qed.

Lemma websiteRegexTest_hostName s : websiteRegexTest s = true <-> hostName s.
Proof.
  split.
  - destruct s as [| c s]; [discriminate |]. cbn [websiteRegexTest]. intros H.
    apply andb_true_iff in H as [Hc H].
    apply matchHostTail_iff in H as (host & tld & -> & Hh & Hl & Hn).
    exists (String c host), tld. cbn [String.append allChars]. rewrite Hc, Hh.
    repeat split; [discriminate | assumption ..].
  - intros (host & tld & -> & Hne & Hh & Hl & Hn).
    destruct host as [| c host]; [congruence |].
    cbn [allChars] in Hh. apply andb_true_iff in Hh as [Hc Hh].
    cbn [String.append websiteRegexTest]. rewrite Hc.
    apply matchHostTail_iff. exists host, tld. repeat split; assumption.
Qed.

(** a character outside a class is in no text of the class *)
Lemma includes_char c s :
  JS.includes (String c "") s = true <-> exists a b, s = a +:+ String c b.
Proof.
  split.
  - induction s as [| d s IH]; [discriminate |]. cbn [JS.includes String.prefix].
    destruct (ascii_dec c d) as [<- | Hne].
    + intros _. exists "", s. reflexivity.
    + cbn [orb]. intros H. destruct (IH H) as (a & b & ->).
      exists (String d a), b. reflexivity.
  - intros (a & b & ->). apply includes_after.
    change (String c b) with (String c "" +:+ b). apply includes_here.
Qed.

Lemma allChars_excludes cls c s :
  allChars cls s = true -> cls c = false -> JS.includes (String c "") s = false.
Proof.
  intros Hs Hc. apply not_true_iff_false. intros H.
  apply includes_char in H as (a & b & ->).
  rewrite allChars_append in Hs. apply andb_true_iff in Hs as [_ Hs].
  cbn [allChars] in Hs. rewrite Hc in Hs. discriminate.
Qed.

Lemma letter_host c : isLetter c = true -> isHostChar c = true.
Proof.
  unfold isHostChar, Pattern.isWordChar, isLetter. intros H.
  apply orb_true_iff in H as [H | H]; rewrite H; rewrite ?orb_true_r; reflexivity.
Qed.

Lemma hostName_chars s : hostName s -> allChars isHostChar s = true.
Proof.
  intros (host & tld & -> & _ & Hh & Hl & _).
  rewrite !allChars_append, Hh. cbn [allChars andb].
  change (isHostChar ".") with true. cbn [andb].
  clear -Hl. induction tld as [| c tld IH]; [reflexivity |].
  cbn [allChars] in *. apply andb_true_iff in Hl as [Hc Hl].
  rewrite (letter_host c Hc), (IH Hl). reflexivity.
Qed.

(** the loop over the spans from any pair found so far: the spans all
    answer *)
Lemma readSpans_from texts :
  forall found,
    readSpans (map Ok texts) found
    = Ok (if JS.truthy found.1 then found.1
          else default "" (firstThat looksLikeEmail (map JS.trim texts)),
          if JS.truthy found.2 then found.2
          else default "" (firstThat websiteRegexTest (map JS.trim texts))).
Proof.
  induction texts as [| text texts IH]; intros [email website];
    cbn [map readSpans andThen firstThat fst snd default].
  - destruct email, website; reflexivity.
  - rewrite IH. unfold readSpan. cbn [fst snd]. fold (looksLikeEmail (JS.trim text)).
    assert (He : looksLikeEmail (JS.trim text) = true -> JS.truthy (JS.trim text) = true)
      by (destruct (JS.trim text); [discriminate | reflexivity]).
    assert (Hw : websiteRegexTest (JS.trim text) = true -> JS.truthy (JS.trim text) = true)
      by (destruct (JS.trim text); [discriminate | reflexivity]).
    f_equal. f_equal.
    + destruct (JS.truthy email) eqn:Hemail; cbn [negb andb]; [rewrite Hemail; reflexivity |].
      fold (looksLikeEmail (JS.trim text)).
      destruct (looksLikeEmail (JS.trim text)) eqn:Ht; cbn [andb default];
        [rewrite (He eq_refl) | rewrite Hemail]; reflexivity.
    + destruct (JS.truthy website) eqn:Hwebsite; cbn [negb andb];
        [rewrite Hwebsite; reflexivity |].
      destruct (websiteRegexTest (JS.trim text)) eqn:Ht; cbn [default];
        [rewrite (Hw eq_refl) | rewrite Hwebsite]; reflexivity.
Qed.

(** whatever the spans answer, a website that is found is a host name,
    and an email that is found has an at sign *)
Lemma readSpans_kinds spans :
  forall found found',
    readSpans spans found = Ok found' ->
    (found.1 = "" \/ JS.includes "@" found.1 = true) ->
    (found.2 = "" \/ hostName found.2) ->
    (found'.1 = "" \/ JS.includes "@" found'.1 = true)
    /\ (found'.2 = "" \/ hostName found'.2).
Proof.
  induction spans as [| [text | e] spans IH]; intros found found' H He Hw;
    cbn [readSpans andThen] in H; [injection H as <-; split; assumption | | discriminate].
  apply (IH _ _ H); unfold readSpan; cbn [fst snd].
  - destruct (negb (JS.truthy found.1) && JS.includes "@" (JS.trim text)) eqn:Hc;
      cbn [andb]; [| exact He].
    apply andb_true_iff in Hc as [_ Hc].
    destruct (JS.includes "." (JS.trim text)); [right; exact Hc | exact He].
  - destruct (negb (JS.truthy found.2)); cbn [andb]; [| exact Hw].
    destruct (websiteRegexTest (JS.trim text)) eqn:Ht; [| exact Hw].
    right. apply websiteRegexTest_hostName, Ht.
Qed.

(** a span that throws ends the loop *)
Lemma readSpans_throws front e rest :
  forall found,
    readSpans (map Ok front ++ Throws e :: rest) found = Throws e.
Proof.
  induction front as [| text front IH]; intros found; cbn [map app readSpans andThen];
    [reflexivity | apply IH].
Qed.

Lemma gatherFields_spans p f :
  gatherFields p = Ok f ->
  exists spans, autoSpans p = Ok spans
                /\ readSpans spans ("", "") = Ok (Facebook.email f, Facebook.website f).
Proof.
  unfold gatherFields, andThen.
  destruct (heading p); [| discriminate]. destruct (likesLink p); [| discriminate].
  destruct (followersLink p); [| discriminate].
  destruct (autoSpans p) as [spans |]; [| discriminate].
  destruct (readSpans spans ("", "")) as [[email website] |] eqn:Hr; [| discriminate].
  destruct (contactDivs p) as [divs |]; [| discriminate].
  destruct (readContact divs ("", "")); [| discriminate].
  destruct (readCategory p); [| discriminate].
  intros [= <-]. exists spans. split; [reflexivity | exact Hr].
Qed.

End ProfileFacts.

(** X20. The test of the website pattern of the Facebook scraper, read
    declaratively: a text passes exactly when it is a host name, that is a
    non-empty run of word characters, dots and hyphens, then a dot, then
    two letters or more up to the end. *)
Theorem website_pattern_is_host_name (text : string) :
  Profile.websiteRegexTest text = true <-> hostName text.
Proof. apply ProfileFacts.websiteRegexTest_hostName. Qed.

(** X21. The scan of the spans of a profile when every span answers: the
    email is the first trimmed span text with an at sign and a dot, the
    website is the first trimmed span text that is a host name, and each
    is empty when there is no such text. *)
Theorem profile_spans_first_match (texts : list string) :
  Profile.readSpans (map Ok texts) ("", "")
  = Ok (default "" (firstThat looksLikeEmail (map JS.trim texts)),
        default "" (firstThat Profile.websiteRegexTest (map JS.trim texts))).
Proof. exact (ProfileFacts.readSpans_from texts ("", "")). Qed.

(** X22. What one attempt gathers as the website is never an address
    with a scheme, a path or an at sign, and so it is never the email: a
    website that is not empty is a host name, and has no at sign, no colon
    and no slash. *)
Theorem website_is_bare_host (p : Profile.Page) (f : Facebook.Fields) :
  Profile.gatherFields p = Ok f ->
  Facebook.website f <> "" ->
  hostName (Facebook.website f)
  /\ JS.includes "@" (Facebook.website f) = false
  /\ JS.includes ":" (Facebook.website f) = false
  /\ JS.includes "/" (Facebook.website f) = false
  /\ Facebook.email f <> Facebook.website f.
Proof.
  intros Hg Hne. destruct (ProfileFacts.gatherFields_spans p f Hg) as (spans & _ & Hspans).
  destruct (ProfileFacts.readSpans_kinds spans _ _ Hspans (or_introl eq_refl)
              (or_introl eq_refl)) as [He Hw].
  cbn [fst snd] in He, Hw. destruct Hw as [Hw | Hw]; [congruence |].
  pose proof (ProfileFacts.hostName_chars _ Hw) as Hchars.
  assert (Hat : JS.includes "@" (Facebook.website f) = false)
    by (apply (ProfileFacts.allChars_excludes _ _ _ Hchars); reflexivity).
  split; [exact Hw |]. split; [exact Hat |].
  split; [apply (ProfileFacts.allChars_excludes _ _ _ Hchars); reflexivity |].
  split; [apply (ProfileFacts.allChars_excludes _ _ _ Hchars); reflexivity |].
  intros Heq. destruct He as [He | He]; [congruence |].
  rewrite Heq, Hat in He. discriminate.
Qed.

(** X22 at work: the span with the address of the site is not taken, the
    span with the bare host name is. *)
Lemma website_is_bare_host_witness :
  (Profile.gatherFields
     (spansOnly [Ok "https://acme.example/shop"; Ok " info@acme.example ";
                 Ok "acme.example"])
   = Ok {| Facebook.pageName := ""; Facebook.pageLikes := "";
           Facebook.pageFollowers := ""; Facebook.phone := "";
           Facebook.email := "info@acme.example"; Facebook.address := "";
           Facebook.website := "acme.example"; Facebook.category := "" |}
   /\ "acme.example" <> "")
  /\ hostName "acme.example"
  /\ "info@acme.example" <> "acme.example".
Proof.
  assert (Hg : Profile.gatherFields
                 (spansOnly [Ok "https://acme.example/shop"; Ok " info@acme.example ";
                             Ok "acme.example"])
               = Ok {| Facebook.pageName := ""; Facebook.pageLikes := "";
                       Facebook.pageFollowers := ""; Facebook.phone := "";
                       Facebook.email := "info@acme.example"; Facebook.address := "";
                       Facebook.website := "acme.example"; Facebook.category := "" |})
    by (vm_compute; reflexivity).
  assert (Hne : "acme.example" <> "") by discriminate.
  split; [split; [exact Hg | exact Hne] |].
  destruct (website_is_bare_host _ _ Hg Hne) as (Hh & _ & _ & _ & Hd).
  split; [exact Hh | exact Hd].
Defined.

(** X23. One attempt keeps nothing when a query throws: if the text of
    one span cannot be read, the attempt throws that error, whatever the
    heading, the links and the spans before it held. *)
Theorem attempt_lost_on_span_error (p : Profile.Page) (front : list string)
        (e : string) (rest : list (outcome string)) :
  (exists h, Profile.heading p = Ok h) ->
  (exists l, Profile.likesLink p = Ok l) ->
  (exists l, Profile.followersLink p = Ok l) ->
  Profile.autoSpans p = Ok (map Ok front ++ Throws e :: rest) ->
  Profile.gatherFields p = Throws e.
Proof.
  intros [h Hh] [l Hl] [l' Hl'] Hs. unfold Profile.gatherFields.
  rewrite Hh, Hl, Hl', Hs. cbn [Profile.andThen].
  rewrite ProfileFacts.readSpans_throws. reflexivity.
Qed.

(** X23 at work: the email of the first span is lost with the attempt. *)
Lemma attempt_lost_on_span_error_witness :
  ((exists h, Profile.heading lostEmail = Ok h)
   /\ (exists l, Profile.likesLink lostEmail = Ok l)
   /\ (exists l, Profile.followersLink lostEmail = Ok l)
   /\ Profile.autoSpans lostEmail
      = Ok (map Ok ["info@acme.example"] ++ Throws "Target closed" :: [Ok "acme.example"]))
  /\ Profile.gatherFields lostEmail = Throws "Target closed".
Proof.
  assert (H1 : exists h, Profile.heading lostEmail = Ok h) by (eexists; reflexivity).
  assert (H2 : exists l, Profile.likesLink lostEmail = Ok l) by (eexists; reflexivity).
  assert (H3 : exists l, Profile.followersLink lostEmail = Ok l) by (eexists; reflexivity).
  split; [split; [exact H1 | split; [exact H2 | split; [exact H3 | reflexivity]]] |].
  exact (attempt_lost_on_span_error lostEmail ["info@acme.example"] "Target closed"
           [Ok "acme.example"] H1 H2 H3 eq_refl).
Defined.

(** X24. Nothing of an attempt that throws reaches the result of the
    Facebook scraper: when at every attempt some query of the page throws
    and every wait returns, the scraper uses up its attempts and returns
    the profile with every value empty, whatever the queries before the
    failing one had answered. *)
Theorem failing_attempts_return_empty_profile (facebookUrl : string)
        (options : Facebook.Options) (goto : string -> Z -> outcome unit)
        (bodyText : outcome string) (recaptchaCount : outcome nat)
        (pages : Z -> Profile.Page) (waitForTimeout : Z -> outcome unit) :
  let fbBrowser := Profile.browserOf goto bodyText recaptchaCount pages waitForTimeout in
  goto (Facebook.normalizeUrl facebookUrl)
       (Facebook.c_timeout (Facebook.mkConfig options)) = Ok tt ->
  Facebook.captchaCheck fbBrowser = Ok false ->
  (forall n, exists e, Profile.gatherFields (pages n) = Throws e) ->
  (forall n, waitForTimeout n = Ok tt) ->
  returned (Facebook.scrapeFacebookProfile facebookUrl options fbBrowser)
  = Facebook.profileObject Facebook.emptyFields
  /\ passes (logged (Facebook.scrapeFacebookProfile facebookUrl options fbBrowser))
     = Z.to_nat (Facebook.c_maxRetries (Facebook.mkConfig options)).
Proof.
  intros fbBrowser Hgo Hcap Hfail Hwaits.
  destruct (fb_exhausted facebookUrl options fbBrowser Hgo Hcap) as (Hr & Hp & _);
    [| exact Hwaits | split; assumption].
  intros k f Hg. destruct (Hfail k) as [e He].
  unfold fbBrowser in Hg. cbn [Profile.browserOf Facebook.gathered] in Hg.
  rewrite He in Hg. discriminate.
Qed.

(** X24 at work: the heading is read at every attempt, a span fails at
    every attempt. *)
Lemma failing_attempts_return_empty_profile_witness :
  (Facebook.goto (Profile.browserOf (fun _ _ => Ok tt) (Ok "Acme") (Ok 0%nat)
                    (fun _ => namedButFailing) (fun _ => Ok tt))
     (Facebook.normalizeUrl "facebook.com/acme")
     (Facebook.c_timeout (Facebook.mkConfig (Examples.fbMaxRetries 2 None))) = Ok tt
   /\ Facebook.captchaCheck (Profile.browserOf (fun _ _ => Ok tt) (Ok "Acme") (Ok 0%nat)
                               (fun _ => namedButFailing) (fun _ => Ok tt)) = Ok false
   /\ (forall n : Z, exists e, Profile.gatherFields namedButFailing = Throws e)
   /\ (forall n : Z, (fun _ : Z => @Ok unit tt) n = Ok tt))
  /\ returned (Facebook.scrapeFacebookProfile "facebook.com/acme"
                 (Examples.fbMaxRetries 2 None)
                 (Profile.browserOf (fun _ _ => Ok tt) (Ok "Acme") (Ok 0%nat)
                    (fun _ => namedButFailing) (fun _ => Ok tt))) !! "pageName" = Some ""
  /\ passes (logged (Facebook.scrapeFacebookProfile "facebook.com/acme"
                       (Examples.fbMaxRetries 2 None)
                       (Profile.browserOf (fun _ _ => Ok tt) (Ok "Acme") (Ok 0%nat)
                          (fun _ => namedButFailing) (fun _ => Ok tt)))) = 2%nat.
Proof.
  assert (Hfail : forall n : Z, exists e, Profile.gatherFields namedButFailing = Throws e)
    by (intros _; eexists; reflexivity).
  assert (Hwaits : forall n : Z, (fun _ : Z => @Ok unit tt) n = Ok tt)
    by (intros _; reflexivity).
  split; [split; [reflexivity | split; [reflexivity | split; [exact Hfail | exact Hwaits]]] |].
  destruct (failing_attempts_return_empty_profile "facebook.com/acme"
              (Examples.fbMaxRetries 2 None) (fun _ _ => Ok tt) (Ok "Acme") (Ok 0%nat)
              (fun _ => namedButFailing) (fun _ => Ok tt) eq_refl eq_refl Hfail Hwaits)
    as [Hr Hp].
  split; [rewrite Hr; reflexivity | exact Hp].
Defined.

Module ContactFacts.
Import Profile.

(** the loop over the contact block from any pair found so far *)
Lemma readContact_from divs :
  Forall answeringDiv divs ->
  forall found,
    readContact divs found
    = Ok (if JS.truthy found.1 then found.1
          else default "" (firstThat JS.truthy (iconTexts "Dc7-7AgwkwS.png" divs)),
          if JS.truthy found.2 then found.2
          else default "" (firstThat JS.truthy (iconTexts "8k_Y-oVxbuU.png" divs))).
Proof.
  induction 1 as [| div divs [[img Himg] [span Hspan]] _ IH]; intros [ph ad];
    cbn [readContact iconTexts firstThat default fst snd].
  - destruct ph, ad; reflexivity.
  - rewrite Himg, Hspan. cbn [andThen].
    destruct img as [src |]; [| apply IH].
    destruct span as [text |]; [| apply IH].
    rewrite IH. cbn [fst snd]. f_equal. f_equal.
    + destruct (JS.truthy ph) eqn:Hph; cbn [negb andb]; [rewrite Hph; reflexivity |].
      destruct (JS.includes "Dc7-7AgwkwS.png" (default "" src)); cbn [firstThat];
        [| rewrite Hph; reflexivity].
      destruct (JS.truthy (JS.trim text)); reflexivity.
    + destruct (JS.truthy ad) eqn:Had; cbn [negb andb]; [rewrite Had; reflexivity |].
      destruct (JS.includes "8k_Y-oVxbuU.png" (default "" src)); cbn [firstThat];
        [| rewrite Had; reflexivity].
      destruct (JS.truthy (JS.trim text)); reflexivity.
Qed.

Lemma trimStart_skips ws s :
  allChars JS.isWhiteSpace ws = true -> JS.trimStart (ws +:+ s) = JS.trimStart s.
Proof.
  induction ws as [| c ws IH]; [reflexivity |]. cbn [allChars]. intros H.
  apply andb_true_iff in H as [Hc H].
  change (String c ws +:+ s) with (String c (ws +:+ s)). cbn [JS.trimStart].
  rewrite Hc. exact (IH H).
Qed.

End ContactFacts.

(** X25. The scan of the contact block when every div answers: the phone
    is the first non-empty trimmed text among the divs that show the phone
    icon and have a span, the address likewise for the address icon; a div
    of the right icon whose text is blank does not stop the search. *)
Theorem contact_block_first_non_empty (divs : list Profile.ContactDiv) :
  Forall answeringDiv divs ->
  Profile.readContact divs ("", "")
  = Ok (default "" (firstThat JS.truthy (iconTexts "Dc7-7AgwkwS.png" divs)),
        default "" (firstThat JS.truthy (iconTexts "8k_Y-oVxbuU.png" divs))).
Proof. intros H. exact (ContactFacts.readContact_from divs H ("", "")). Qed.

(** X25 at work: the blank phone div is passed over. *)
Lemma contact_block_first_non_empty_witness :
  Forall answeringDiv acmeContact
  /\ Profile.readContact acmeContact ("", "")
     = Ok ("+1 312 555 0100", "12 Main St, Chicago").
Proof.
  assert (H : Forall answeringDiv acmeContact)
    by (repeat (constructor; [split; eexists; reflexivity |]); constructor).
  split; [exact H |].
  rewrite (contact_block_first_non_empty acmeContact H). vm_compute. reflexivity.
Defined.

(** X26. The label in front of the category: a parent text that starts
    with Page, white space or none, and the middle dot gives as category
    the trimmed text after the dot. *)
Theorem category_label_removed (ws rest : string) :
  allChars JS.isWhiteSpace ws = true ->
  Profile.cleanCategory ("Page" +:+ ws +:+ String (ascii_of_N 183) rest) = JS.trim rest.
Proof.
  intros Hws. unfold Profile.cleanCategory.
  assert (Hm : Profile.matchPageDot ("Page" +:+ ws +:+ String (ascii_of_N 183) rest)
               = Some (JS.trimStart rest)).
  { unfold Profile.matchPageDot.
    change (Profile.eatExact "Page" ("Page" +:+ ws +:+ String (ascii_of_N 183) rest))
      with (Some (ws +:+ String (ascii_of_N 183) rest)).
    cbv beta iota. rewrite (ContactFacts.trimStart_skips ws _ Hws). reflexivity. }
  assert (Hr : Profile.removePageDot ("Page" +:+ ws +:+ String (ascii_of_N 183) rest)
               = JS.trimStart rest).
  { change ("Page" +:+ ws +:+ String (ascii_of_N 183) rest)
      with (String "P" ("age" +:+ ws +:+ String (ascii_of_N 183) rest)) in *.
    cbn [Profile.removePageDot]. rewrite Hm. reflexivity. }
  rewrite Hr. unfold JS.trim.
  rewrite (NormalFacts.clean_trimStart _ (NormalFacts.trimStart_clean rest)). reflexivity.
Qed.

(** X26 at work. *)
Lemma category_label_removed_witness :
  allChars JS.isWhiteSpace " " = true
  /\ Profile.cleanCategory ("Page" +:+ " " +:+ String (ascii_of_N 183) " Plumber ")
     = "Plumber".
Proof.
  split; [reflexivity |].
  rewrite (category_label_removed " " " Plumber " eq_refl). reflexivity.
Defined.



Module ListingFacts.
Import Cards StringFacts.

#[local] Arguments String.append : simpl nomatch.

Lemma allChars_trimStart cls s : allChars cls s = true -> allChars cls (JS.trimStart s) = true.
Proof.
  induction s as [| c s IH]; [reflexivity |]. cbn [JS.trimStart]. intros H.
  destruct (JS.isWhiteSpace c); [| exact H].
  cbn [allChars] in H. apply andb_true_iff in H as [_ H]. exact (IH H).
Qed.

Lemma allChars_trimEnd cls s : allChars cls s = true -> allChars cls (JS.trimEnd s) = true.
Proof.
  induction s as [| c s IH]; [reflexivity |]. cbn [allChars JS.trimEnd]. intros H.
  apply andb_true_iff in H as [Hc H]. specialize (IH H).
  destruct (JS.trimEnd s) as [| d t].
  - destruct (JS.isWhiteSpace c); [reflexivity |]. cbn [allChars]. rewrite Hc. reflexivity.
  - cbn [allChars] in *. rewrite Hc, IH. reflexivity.
Qed.

Lemma allChars_trim cls s : allChars cls s = true -> allChars cls (JS.trim s) = true.
Proof. intros H. apply allChars_trimEnd, allChars_trimStart, H. Qed.

Lemma removeParens_clean s :
  allChars (fun c => negb (Ascii.eqb c "(" || Ascii.eqb c ")")) (removeParens s) = true.
Proof.
  induction s as [| c s IH]; [reflexivity |]. cbn [removeParens].
  destruct (Ascii.eqb c "(" || Ascii.eqb c ")") eqn:Hc; [exact IH |].
  cbn [allChars]. rewrite Hc, IH. reflexivity.
Qed.

(** what is found in a trimmed text is found in the text *)
Lemma includes_trimStart_inv needle s :
  JS.includes needle (JS.trimStart s) = true -> JS.includes needle s = true.
Proof.
  induction s as [| c s IH]; [exact id |]. cbn [JS.trimStart].
  destruct (JS.isWhiteSpace c); [| exact id].
  intros H. apply PatternFacts.includes_cons, IH, H.
Qed.

Lemma prefix_extend p :
  forall x y, String.prefix p x = true -> String.prefix p (x +:+ y) = true.
Proof.
  induction p as [| c p IH]; intros [| d x] y H; try discriminate H;
    cbn [String.append String.prefix] in *; [destruct y; reflexivity | reflexivity |].
  destruct (ascii_dec c d); [exact (IH _ _ H) | discriminate H].
Qed.

Lemma includes_extend needle a w :
  JS.includes needle a = true -> JS.includes needle (a +:+ w) = true.
Proof.
  induction a as [| c a IH]; cbn [JS.includes]; intros H.
  - rewrite orb_false_r in H. apply PatternFacts.prefix_includes.
    exact (prefix_extend needle "" w H).
  - apply orb_true_iff in H as [H | H].
    + apply PatternFacts.prefix_includes. exact (prefix_extend needle (String c a) w H).
    + change (String c a +:+ w) with (String c (a +:+ w)).
      apply PatternFacts.includes_cons, IH, H.
Qed.

Lemma trimEnd_split s : exists w, s = JS.trimEnd s +:+ w.
Proof.
  induction s as [| c s [w Hw]]; [exists ""; reflexivity |]. cbn [JS.trimEnd].
  destruct (JS.trimEnd s) as [| d t].
  - destruct (JS.isWhiteSpace c); [exists (String c s); reflexivity |].
    exists s. reflexivity.
  - exists w. rewrite Hw at 1. reflexivity.
Qed.

Lemma includes_trim_inv needle s :
  JS.includes needle (JS.trim s) = true -> JS.includes needle s = true.
Proof.
  unfold JS.trim. intros H. apply includes_trimStart_inv.
  destruct (trimEnd_split (JS.trimStart s)) as [w Hw]. rewrite Hw.
  apply includes_extend, H.
Qed.

End ListingFacts.

(** X28. The website of a listing is never a link to the map: it is N/A,
    or the trimmed address of the anchor of the website button, and then
    it does not contain maps.google.com. *)
Theorem website_never_map_link (query pageNumber : option LocalServices.value)
        (card : Cards.Card) :
  let l := Cards.listingOf query pageNumber card in
  JS.includes "maps.google.com" (LocalServices.website l) = false
  /\ (LocalServices.website l = "N/A"
      \/ exists href, Cards.websiteHref card = Some href
                      /\ LocalServices.website l = JS.trim href).
Proof.
  cbv zeta. cbn [Cards.listingOf LocalServices.website]. unfold Cards.websiteOf.
  destruct (Cards.websiteHref card) as [href |]; [| split; [reflexivity | left; reflexivity]].
  destruct (JS.truthy href); cbn [andb]; [| split; [reflexivity | left; reflexivity]].
  destruct (JS.includes "maps.google.com" href) eqn:Hm; cbn [negb];
    [split; [reflexivity | left; reflexivity] |].
  split; [| right; exists href; split; reflexivity].
  apply not_true_iff_false. intros H.
  apply ListingFacts.includes_trim_inv in H. congruence.
Qed.

(** X29. The review count of a listing never has a parenthesis: it is
    N/A, or the text of the review element without its parentheses and
    trimmed. *)
Theorem reviews_without_parentheses (query pageNumber : option LocalServices.value)
        (card : Cards.Card) :
  let l := Cards.listingOf query pageNumber card in
  JS.includes "(" (LocalServices.reviews l) = false
  /\ JS.includes ")" (LocalServices.reviews l) = false.
Proof.
  cbv zeta. cbn [Cards.listingOf LocalServices.reviews].
  destruct (Cards.reviewText card) as [t |]; [| split; reflexivity].
  pose proof (ListingFacts.allChars_trim _ _ (ListingFacts.removeParens_clean t)) as H.
  split; apply (ProfileFacts.allChars_excludes _ _ _ H); reflexivity.
Qed.

(** the loop of the Facebook scraper when the wait after attempt [m]
    throws and no attempt up to [m] gathers anything *)
Lemma fb_retryLoop_rejected (config : Facebook.Config) (browser : Facebook.Browser)
      (m : Z) (e : string) (fuel : nat) :
  m <= Facebook.c_maxRetries config ->
  (forall k f, 1 <= k <= m -> Facebook.gathered browser k = Ok f ->
               unresolved (Facebook.profileObject f)) ->
  (forall k, 1 <= k < m -> Facebook.waitForTimeout browser k = Ok tt) ->
  Facebook.waitForTimeout browser m = Throws e ->
  forall n tr,
    0 <= n < m -> (Z.to_nat (m - n) <= fuel)%nat ->
    exists es,
      Facebook.retryLoop config browser fuel n None tr = Some (Throws e, tr ++ es)
      /\ passes es = Z.to_nat (m - n).
Proof.
  intros Hm Hnone Hwaits Hthrow.
  induction fuel as [| fuel IH]; intros n tr Hn Hfuel; [lia |].
  cbn [Facebook.retryLoop].
  replace (n <? Facebook.c_maxRetries config) with true by (symmetry; apply Z.ltb_lt; lia).
  cbn [andb negb bool_decide]. 
  destruct (FacebookFacts.attempted_events browser (n + 1) tr) as (mid & Hmid & _ & Hp & _).
  assert (Hfound : Facebook.foundAt browser (n + 1) = None).
  { destruct (Facebook.foundAt browser (n + 1)) as [info |] eqn:Hf; [| reflexivity].
    destruct (FacebookFacts.foundAt_gathered _ _ _ Hf) as (f & Hg & Hany & _).
    rewrite (proj2 (FacebookFacts.foundAny_unresolved f) (Hnone (n + 1) f ltac:(lia) Hg))
      in Hany.
    discriminate. }
  assert (Hone : forall rest, passes ((LogAttempt (n + 1) :: mid) ++ [WaitForTimeout 1000] ++ rest)
                              = S (passes rest)).
  { intros rest. change (LogAttempt (n + 1) :: mid) with ([LogAttempt (n + 1)] ++ mid).
    rewrite !passes_app, Hp. reflexivity. }
  destruct (Z.eq_dec (n + 1) m) as [Heq | Hne].
  - rewrite <- Heq in Hthrow.
    exists ((LogAttempt (n + 1) :: mid) ++ [WaitForTimeout 1000] ++ []).
    split; [| rewrite Hone; change (passes []) with 0%nat; lia].
    change (negb (bool_decide (is_Some (@None (gmap string string))))) with true.
    cbv iota. rewrite Hfound, Hthrow, Hmid, app_nil_r, <- app_assoc. reflexivity.
  - destruct (IH (n + 1) (Facebook.attempted browser (n + 1) tr ++ [WaitForTimeout 1000])
                ltac:(lia) ltac:(lia)) as (es & Hrun & Hes).
    exists ((LogAttempt (n + 1) :: mid) ++ [WaitForTimeout 1000] ++ es).
    split; [| rewrite Hone, Hes; lia].
    change (negb (bool_decide (is_Some (@None (gmap string string))))) with true.
    cbv iota. rewrite Hfound, (Hwaits (n + 1) ltac:(lia)), Hrun, Hmid, <- !app_assoc.
    reflexivity.
Qed.

(** X30. A wait that throws ends the invocation of the Facebook scraper:
    the wait stands outside the [try] of the attempt. When no attempt up
    to the [m]-th gathers anything, the waits before the [m]-th return and
    the [m]-th throws, the scraper makes [m] attempts and returns the
    record with the error of the wait and the address, not a profile,
    whatever attempts were left. *)
Theorem rejected_wait_ends_invocation (facebookUrl : string) (options : Facebook.Options)
        (fbBrowser : Facebook.Browser) (m : Z) (e : string) :
  Facebook.goto fbBrowser (Facebook.normalizeUrl facebookUrl)
                (Facebook.c_timeout (Facebook.mkConfig options)) = Ok tt ->
  Facebook.captchaCheck fbBrowser = Ok false ->
  1 <= m <= Facebook.c_maxRetries (Facebook.mkConfig options) ->
  (forall k f, 1 <= k <= m -> Facebook.gathered fbBrowser k = Ok f ->
               unresolved (Facebook.profileObject f)) ->
  (forall k, 1 <= k < m -> Facebook.waitForTimeout fbBrowser k = Ok tt) ->
  Facebook.waitForTimeout fbBrowser m = Throws e ->
  returned (Facebook.scrapeFacebookProfile facebookUrl options fbBrowser)
  = errorRecord e (Facebook.normalizeUrl facebookUrl)
  /\ passes (logged (Facebook.scrapeFacebookProfile facebookUrl options fbBrowser))
     = Z.to_nat m.
Proof.
  intros Hgo Hcap Hm Hnone Hwaits Hthrow.
  unfold Facebook.scrapeFacebookProfile. rewrite Hgo, Hcap.
  destruct (fb_retryLoop_rejected (Facebook.mkConfig options) fbBrowser m e
              (Z.to_nat (Facebook.c_maxRetries (Facebook.mkConfig options)))
              ltac:(lia) Hnone Hwaits Hthrow 0 [] ltac:(lia) ltac:(lia))
    as (es & Hrun & Hes).
  rewrite Hrun. cbn [returned logged app]. rewrite Hes, Z.sub_0_r. split; reflexivity.
Qed.

(** X30 at work: the page is closed during the first of three waits. *)
Lemma rejected_wait_ends_invocation_witness :
  (Facebook.goto closingProfile (Facebook.normalizeUrl "facebook.com/acme")
     (Facebook.c_timeout (Facebook.mkConfig (Examples.fbMaxRetries 3 None))) = Ok tt
   /\ Facebook.captchaCheck closingProfile = Ok false
   /\ 1 <= 1 <= Facebook.c_maxRetries (Facebook.mkConfig (Examples.fbMaxRetries 3 None))
   /\ (forall k f, 1 <= k <= 1 -> Facebook.gathered closingProfile k = Ok f ->
                   unresolved (Facebook.profileObject f))
   /\ (forall k, 1 <= k < 1 -> Facebook.waitForTimeout closingProfile k = Ok tt)
   /\ Facebook.waitForTimeout closingProfile 1
      = Throws "Target page, context or browser has been closed")
  /\ returned (Facebook.scrapeFacebookProfile "facebook.com/acme"
                 (Examples.fbMaxRetries 3 None) closingProfile)
     = errorRecord "Target page, context or browser has been closed"
                   (Facebook.normalizeUrl "facebook.com/acme")
  /\ passes (logged (Facebook.scrapeFacebookProfile "facebook.com/acme"
                       (Examples.fbMaxRetries 3 None) closingProfile)) = 1%nat.
Proof.
  assert (Hm : 1 <= 1 <= Facebook.c_maxRetries (Facebook.mkConfig (Examples.fbMaxRetries 3 None)))
    by (vm_compute; split; discriminate).
  assert (Hnone : forall k f, 1 <= k <= 1 -> Facebook.gathered closingProfile k = Ok f ->
                              unresolved (Facebook.profileObject f))
    by (intros k f _ [= <-]; exact emptyFields_unresolved).
  assert (Hwaits : forall k, 1 <= k < 1 -> Facebook.waitForTimeout closingProfile k = Ok tt)
    by (intros k Hk; lia).
  split; [split; [reflexivity | split; [reflexivity | split; [exact Hm |
          split; [exact Hnone | split; [exact Hwaits | reflexivity]]]]] |].
  exact (rejected_wait_ends_invocation "facebook.com/acme" (Examples.fbMaxRetries 3 None)
           closingProfile 1 _ eq_refl eq_refl Hm Hnone Hwaits eq_refl).
Defined.
